(** * unifi_respondd: the respondd responder of [respondd_client.py]

    A shallow embedding of [ResponddClient] (record mapper, response merger,
    wire encoder and serving loop) and the properties of its specification.

    Conventions of the embedding.
    - A Python [str] is represented by its UTF-8 encoding, a [string] of
      bytes.  The only string operations of the program are equality with
      ASCII literals, [split(" ")] and [replace(":", "")]; on well-formed
      UTF-8 all three act on the encoding exactly as they act on the code
      points, because an ASCII byte never occurs inside a multi-byte
      sequence.
    - A Python [int] is a [Z].  A Python [float] is a finite binary64 value,
      kept as a significand and a binary exponent.
    - Exceptions and the effects on the outside world (calls of the data
      source, datagrams sent, lines printed) are threaded through a small
      state and error monad. *)

From Stdlib Require Import ZArith List String Ascii Bool Lia Arith.
Import ListNotations.
Set Warnings "-register-all".

Local Open Scope string_scope.
Local Open Scope Z_scope.

(** ** Exceptions *)

Inductive exn : Type :=
| UnicodeDecodeError
| AttributeError
| ZeroDivisionError
| OverflowError
| OSError
| AdapterError (code : nat).

Inductive except (A : Type) : Type :=
| Ok (a : A)
| Raise (e : exn).
Arguments Ok {A} a.
Arguments Raise {A} e.

(** ** Strings *)

Module Str.

(** [old] is a prefix of [s]. *)
Fixpoint startswith (old s : string) : bool :=
  match old, s with
  | EmptyString, _ => true
  | String a old', String b s' => Ascii.eqb a b && startswith old' s'
  | String _ _, EmptyString => false
  end.

(** The value of a byte, and the bytes of a range.  A byte of the form
    10xxxxxx, from 128 to 191, continues a multi-byte UTF-8 sequence. *)
Definition byte (c : ascii) : Z := Z.of_nat (nat_of_ascii c).
Definition between (lo hi : Z) (c : ascii) : bool :=
  (lo <=? byte c) && (byte c <=? hi).
Definition cont : ascii -> bool := between 128 191.

(** [str.replace(old, new)] for a non-empty [old]: the occurrences are
    taken from the left and do not overlap; [skip] counts the bytes of the
    current occurrence that are still to be dropped. *)
Fixpoint replace_from (old new s : string) (skip : nat) : string :=
  match s with
  | EmptyString => EmptyString
  | String c s' =>
      match skip with
      | S k => replace_from old new s' k
      | O =>
          if startswith old s
          then new ++ replace_from old new s' (String.length old - 1)
          else String c (replace_from old new s' 0)
      end
  end.

(** [str.replace("", new)] puts [new] in front of every character and at
    the end. *)
Fixpoint replace_empty (new s : string) : string :=
  match s with
  | EmptyString => new
  | String c s' =>
      if cont c then String c (replace_empty new s')
      else new ++ String c (replace_empty new s')
  end.

Definition replace (old new s : string) : string :=
  match old with
  | EmptyString => replace_empty new s
  | String _ _ => replace_from old new s 0
  end.

(** [str.split(sep)] for a one-character separator: every occurrence of
    the separator ends a piece, so that two adjacent separators enclose an
    empty piece and the result is never the empty list. *)
Fixpoint split (sep : ascii) (s : string) : list string :=
  match s with
  | EmptyString => [EmptyString]
  | String c s' =>
      if Ascii.eqb c sep then EmptyString :: split sep s'
      else
        match split sep s' with
        | [] => [String c EmptyString]
        | piece :: pieces => String c piece :: pieces
        end
  end.

(** The string without the occurrences of the character [c]. *)
Fixpoint remove_char (c : ascii) (s : string) : string :=
  match s with
  | EmptyString => EmptyString
  | String a s' =>
      if Ascii.eqb a c then remove_char c s' else String a (remove_char c s')
  end.

(** The character [c] occurs in [s]. *)
Fixpoint contains (c : ascii) (s : string) : bool :=
  match s with
  | EmptyString => false
  | String a s' => Ascii.eqb a c || contains c s'
  end.

(** [sep.join(pieces)]. *)
Fixpoint join (sep : string) (pieces : list string) : string :=
  match pieces with
  | [] => EmptyString
  | [p] => p
  | p :: ps => p ++ sep ++ join sep ps
  end.

(** [bytes.decode("UTF-8")] in strict mode accepts exactly the well-formed
    sequences of RFC 3629: no stray continuation byte, no truncated or
    overlong form, no surrogate, nothing above U+10FFFF. *)
Fixpoint utf8_valid (s : string) : bool :=
  match s with
  | EmptyString => true
  | String b0 s1 =>
      if between 0 127 b0 then utf8_valid s1
      else
        match s1 with
        | EmptyString => false
        | String b1 s2 =>
            if between 194 223 b0 then cont b1 && utf8_valid s2
            else
              match s2 with
              | EmptyString => false
              | String b2 s3 =>
                  if between 224 239 b0 then
                    (if byte b0 =? 224 then between 160 191 b1
                     else if byte b0 =? 237 then between 128 159 b1
                     else cont b1)
                    && cont b2 && utf8_valid s3
                  else
                    match s3 with
                    | EmptyString => false
                    | String b3 s4 =>
                        between 240 244 b0
                        && (if byte b0 =? 240 then between 144 191 b1
                            else if byte b0 =? 244 then between 128 143 b1
                            else cont b1)
                        && cont b2 && cont b3 && utf8_valid s4
                    end
              end
        end
  end.

(** The first [n] bytes of [s]. *)
Definition take (n : nat) (s : string) : string := String.substring 0 n s.

End Str.

(** ** Floats and true division *)

Module Float.

(** The finite binary64 value [significand * 2 ^ exponent]. *)
Record t : Type := mk { significand : Z; exponent : Z }.

Definition scaled_num (n e : Z) : Z := if e <? 0 then n * 2 ^ (- e) else n.
Definition scaled_den (d e : Z) : Z := if e <? 0 then d else d * 2 ^ e.

(** The integer nearest to [n / d], a tie going to the even one. *)
Definition div_half_even (n d : Z) : Z :=
  let q := n / d in
  let r := n mod d in
  if 2 * r <? d then q
  else if d <? 2 * r then q + 1
  else if Z.even q then q else q + 1.

(** [a / b] on two Python ints: the binary64 value nearest to the exact
    quotient (53 significant bits, ties to even, exponents from -1074),
    [ZeroDivisionError] for a zero divisor and [OverflowError] when the
    quotient is too large for a float. *)
Definition int_truediv (a b : Z) : except t :=
  if b =? 0 then Raise ZeroDivisionError
  else if a =? 0 then Ok (mk 0 0)
  else
    let n := Z.abs a in
    let d := Z.abs b in
    let e0 := Z.max (Z.log2 n - Z.log2 d - 53) (-1074) in
    let e := if 2 ^ 53 <=? scaled_num n e0 / scaled_den d e0
             then e0 + 1 else e0 in
    let m := div_half_even (scaled_num n e) (scaled_den d e) in
    if (971 <? e) || ((e =? 971) && (m =? 2 ^ 53)) then Raise OverflowError
    else Ok (mk (Z.sgn a * Z.sgn b * m) e).

(** [int(x)] on a float: the integer part, truncated toward zero. *)
Definition to_int (x : t) : Z :=
  if 0 <=? exponent x then significand x * 2 ^ exponent x
  else Z.quot (significand x) (2 ^ (- exponent x)).

End Float.

(** ** Dictionaries

    A Python [dict] keeps its keys in the order of their first insertion;
    that order fixes the order of the reply datagrams and of the members of
    each JSON document. *)

Module Dict.

Definition t (V : Type) : Type := list (string * V).

Section Operations.
Context {V : Type}.

(** [d.get(k)] *)
Fixpoint get (k : string) (d : t V) : option V :=
  match d with
  | [] => None
  | (k', v) :: d' => if String.eqb k' k then Some v else get k d'
  end.

(** [k in d] *)
Definition mem (k : string) (d : t V) : bool :=
  match get k d with Some _ => true | None => false end.

(** [d[k] = v]: a key already present keeps its place. *)
Fixpoint set (k : string) (v : V) (d : t V) : t V :=
  match d with
  | [] => [(k, v)]
  | (k', v') :: d' =>
      if String.eqb k' k then (k', v) :: d' else (k', v') :: set k v d'
  end.

Definition keys (d : t V) : list string := map fst d.
Definition values (d : t V) : list V := map snd d.
Definition items (d : t V) : list (string * V) := d.
End Operations.

End Dict.

(** ** Data model: the dataclasses of [respondd_client.py] *)

Module FirmwareInfo.
Record t : Type := mk { base : string; release : string }.
End FirmwareInfo.

Module LocationInfo.
Record t : Type := mk { latitude : Float.t; longitude : Float.t }.
End LocationInfo.

Module HardwareInfo.
Record t : Type := mk { model : string }.
End HardwareInfo.

Module OwnerInfo.
Record t : Type := mk { contact : string }.
End OwnerInfo.

Module NodeInfo.
Record t : Type := mk {
  firmware : FirmwareInfo.t;
  hostname : string;
  node_id : string;
  location : LocationInfo.t;
  hardware : HardwareInfo.t;
  owner : OwnerInfo.t }.
End NodeInfo.

Module ClientInfo.
Record t : Type := mk { total : Z; wifi : Z }.
End ClientInfo.

Module MemoryInfo.
Record t : Type := mk { total : Z; free : Z; buffers : Z }.
End MemoryInfo.

Module StatisticsInfo.
Record t : Type := mk {
  clients : ClientInfo.t;
  uptime : Z;
  node_id : string;
  loadavg : Float.t;
  memory : MemoryInfo.t }.
End StatisticsInfo.

(** Modelled from the spec: the access-point record and the inventory that
    [unifi_respondd.get_infos()] returns.  Module [unifi_respondd] is not
    among the sources; the fields are the attributes that [getNodeInfos] and
    [getStatistics] read, with the types the specification gives them
    (section 6: hardware address, display name, firmware identifier,
    latitude and longitude, hardware model, contact string, client count,
    uptime seconds, load average, total, used and buffer memory in bytes). *)
Module Accesspoint.
Record t : Type := mk {
  name : string;
  mac : string;
  firmware : string;
  latitude : Float.t;
  longitude : Float.t;
  model : string;
  contact : string;
  client_count : Z;
  uptime : Z;
  load_avg : Float.t;
  mem_total : Z;
  mem_used : Z;
  mem_buffer : Z }.
End Accesspoint.

Module Accesspoints.
Record t : Type := mk { accesspoints : list Accesspoint.t }.
End Accesspoints.

(** A record of a kind list: an object with a [node_id] and a [to_dict]. *)
Inductive info : Type :=
| OfNodeInfo (n : NodeInfo.t)
| OfStatisticsInfo (s : StatisticsInfo.t).

Definition info_node_id (i : info) : string :=
  match i with
  | OfNodeInfo n => NodeInfo.node_id n
  | OfStatisticsInfo s => StatisticsInfo.node_id s
  end.

(** ** JSON documents and datagrams *)

Inductive json : Type :=
| JString (s : string)
| JInt (z : Z)
| JFloat (x : Float.t)
| JObject (members : list (string * json)).

(** [to_dict()] of dataclasses_json: one member per field, in the order of
    the declaration, a nested dataclass becoming a nested object. *)
Definition NodeInfo_to_dict (n : NodeInfo.t) : json :=
  JObject
    [ ("firmware",
        JObject [ ("base", JString (FirmwareInfo.base (NodeInfo.firmware n)));
                  ("release", JString (FirmwareInfo.release (NodeInfo.firmware n))) ]);
      ("hostname", JString (NodeInfo.hostname n));
      ("node_id", JString (NodeInfo.node_id n));
      ("location",
        JObject [ ("latitude", JFloat (LocationInfo.latitude (NodeInfo.location n)));
                  ("longitude", JFloat (LocationInfo.longitude (NodeInfo.location n))) ]);
      ("hardware", JObject [ ("model", JString (HardwareInfo.model (NodeInfo.hardware n))) ]);
      ("owner", JObject [ ("contact", JString (OwnerInfo.contact (NodeInfo.owner n))) ]) ].

Definition StatisticsInfo_to_dict (s : StatisticsInfo.t) : json :=
  JObject
    [ ("clients",
        JObject [ ("total", JInt (ClientInfo.total (StatisticsInfo.clients s)));
                  ("wifi", JInt (ClientInfo.wifi (StatisticsInfo.clients s))) ]);
      ("uptime", JInt (StatisticsInfo.uptime s));
      ("node_id", JString (StatisticsInfo.node_id s));
      ("loadavg", JFloat (StatisticsInfo.loadavg s));
      ("memory",
        JObject [ ("total", JInt (MemoryInfo.total (StatisticsInfo.memory s)));
                  ("free", JInt (MemoryInfo.free (StatisticsInfo.memory s)));
                  ("buffers", JInt (MemoryInfo.buffers (StatisticsInfo.memory s))) ]) ].

Definition to_dict (i : info) : json :=
  match i with
  | OfNodeInfo n => NodeInfo_to_dict n
  | OfStatisticsInfo s => StatisticsInfo_to_dict s
  end.

(** The bytes of a datagram, by the library calls that produce them:
    [Json node] stands for [bytes(json.dumps(node), "UTF-8")] and
    [Deflate data] for the output of
    [zlib.compressobj(Z_DEFAULT_COMPRESSION, DEFLATED, -15)] fed with [data]
    and flushed, a raw deflate stream without header or trailer. *)
Inductive wire : Type :=
| Json (node : json)
| Deflate (data : wire).

Record address : Type := mk_address { host : string; port : Z }.

Record datagram : Type := mk_datagram { payload : wire; dest : address }.

(** What [buildStruct] returns: a kind list, or [None]. *)
Definition records : Type := option (list info).

(** The two shapes of [responseStruct] in [start]: a dict from the requested
    names to what [buildStruct] returned for them, or the bare return value
    of [buildStruct]. *)
Inductive responseStruct : Type :=
| OfDict (d : Dict.t records)
| OfRecords (r : records).

(** A line on the standard output. *)
Inductive line : Type :=
| PrintStr (s : string)
| PrintBytes (data : wire)
| PrintVerbose (destAddress : address) (r : responseStruct).

(** ** Record mapper *)

(** The [NodeInfo(...)] of one access point in [getNodeInfos]. *)
Definition nodeinfo_of (ap : Accesspoint.t) : NodeInfo.t :=
  NodeInfo.mk
    (FirmwareInfo.mk (Accesspoint.firmware ap) "")
    (Accesspoint.name ap)
    (Str.replace ":" "" (Accesspoint.mac ap))
    (LocationInfo.mk (Accesspoint.latitude ap) (Accesspoint.longitude ap))
    (HardwareInfo.mk (Accesspoint.model ap))
    (OwnerInfo.mk (Accesspoint.contact ap)).

(** [int(x / 1024)] *)
Definition kib (x : Z) : except Z :=
  match Float.int_truediv x 1024 with
  | Ok q => Ok (Float.to_int q)
  | Raise e => Raise e
  end.

(** The [StatisticsInfo(...)] of one access point in [getStatistics]; the
    three divisions are evaluated in the order of the arguments. *)
Definition statistics_of (ap : Accesspoint.t) : except StatisticsInfo.t :=
  match kib (Accesspoint.mem_total ap) with
  | Raise e => Raise e
  | Ok total =>
      match kib (Accesspoint.mem_total ap - Accesspoint.mem_used ap) with
      | Raise e => Raise e
      | Ok free =>
          match kib (Accesspoint.mem_buffer ap) with
          | Raise e => Raise e
          | Ok buffers =>
              Ok (StatisticsInfo.mk
                    (ClientInfo.mk (Accesspoint.client_count ap)
                                   (Accesspoint.client_count ap))
                    (Accesspoint.uptime ap)
                    (Str.replace ":" "" (Accesspoint.mac ap))
                    (Accesspoint.load_avg ap)
                    (MemoryInfo.mk total free buffers))
          end
      end
  end.

(** The loop [for ap in aps.accesspoints: statistics.append(...)]. *)
Fixpoint statistics_list (aps : list Accesspoint.t) : except (list StatisticsInfo.t) :=
  match aps with
  | [] => Ok []
  | ap :: aps' =>
      match statistics_of ap with
      | Raise e => Raise e
      | Ok s =>
          match statistics_list aps' with
          | Raise e => Raise e
          | Ok l => Ok (s :: l)
          end
      end
  end.

(** ** The outside world *)

(** What the program does not decide: the outcome of every call of the data
    source, of every send and of the start-up sequence, and the verbosity
    flag of the configuration. *)
Record Env : Type := mk_env {
  (** the [n]-th call of [unifi_respondd.get_infos()], counted from 0 *)
  get_infos : nat -> except Accesspoints.t;
  (** the error of the [sendto] issued after [n] datagrams went out *)
  sendto_error : nat -> option exn;
  (** the error of [setsockopt], [bind] or [joinMCAST] in [start] *)
  startup_error : option exn;
  (** [config.verbose] *)
  verbose : bool }.

(** The effects so far: the number of calls of the data source, the
    datagrams sent (oldest first) and the lines printed (oldest first). *)
Record World : Type := mk_world {
  fetches : nat;
  sent : list datagram;
  stdout : list line }.

Definition initial : World := mk_world 0 [] [].

(** A computation returns a value or raises; its effects stay either way. *)
Definition M (A : Type) : Type := World -> except A * World.

Definition ret {A : Type} (a : A) : M A := fun w => (Ok a, w).

Definition bind {A B : Type} (c : M A) (k : A -> M B) : M B :=
  fun w =>
    match c w with
    | (Ok a, w') => k a w'
    | (Raise e, w') => (Raise e, w')
    end.

Definition raise {A : Type} (e : exn) : M A := fun w => (Raise e, w).

Definition lift {A : Type} (r : except A) : M A := fun w => (r, w).

Declare Scope monad_scope.
Delimit Scope monad_scope with monad.
Notation "x <- c ;; k" := (bind c (fun x => k))
  (at level 61, c at next level, right associativity) : monad_scope.
Notation "c ;; k" := (bind c (fun _ => k))
  (at level 61, right associativity) : monad_scope.
Local Open Scope monad_scope.

(** [for x in xs: body(x)] *)
Fixpoint for_each {A : Type} (xs : list A) (body : A -> M unit) : M unit :=
  match xs with
  | [] => ret tt
  | x :: xs' => body x ;; for_each xs' body
  end.

Definition print (l : line) : M unit :=
  fun w => (Ok tt, mk_world (fetches w) (sent w) (stdout w ++ [l])).

(** The result of running the serving loop on a finite sequence of inbound
    datagrams: an exception left the loop, or the loop is blocked in
    [recvfrom] waiting for the next datagram. *)
Inductive outcome : Type :=
| Crashed (e : exn) (w : World)
| Waiting (w : World).

Section ResponddClient.

Variable env : Env.

(** The property [_aps]: one call of the data source. *)
Definition _aps : M Accesspoints.t :=
  fun w => (get_infos env (fetches w),
            mk_world (S (fetches w)) (sent w) (stdout w)).

(** [self._sock.sendto(responseData, destAddress)] *)
Definition sendto (responseData : wire) (destAddress : address) : M unit :=
  fun w =>
    match sendto_error env (List.length (sent w)) with
    | Some e => (Raise e, w)
    | None =>
        (Ok tt, mk_world (fetches w)
                  (sent w ++ [mk_datagram responseData destAddress])
                  (stdout w))
    end.

Definition getNodeInfos : M (list NodeInfo.t) :=
  aps <- _aps ;;
  ret (map nodeinfo_of (Accesspoints.accesspoints aps)).

Definition getStatistics : M (list StatisticsInfo.t) :=
  aps <- _aps ;;
  lift (statistics_list (Accesspoints.accesspoints aps)).

Definition buildStruct (responseType : string) : M records :=
  if String.eqb responseType "statistics" then
    l <- getStatistics ;; ret (Some (map OfStatisticsInfo l))
  else if String.eqb responseType "nodeinfo" then
    l <- getNodeInfos ;; ret (Some (map OfNodeInfo l))
  else
    print (PrintStr ("unknown command: " ++ responseType)) ;;
    ret None.

(** The body of the inner loop of [merge_node]. *)
Definition merge_info (key : string)
    (merged : Dict.t (Dict.t info)) (i : info) : Dict.t (Dict.t info) :=
  match Dict.get (info_node_id i) merged with
  | None => Dict.set (info_node_id i) [(key, i)] merged
  | Some composite =>
      Dict.set (info_node_id i) (Dict.set key i composite) merged
  end.

(** [if responseStruct[key]: for info in responseStruct[key]: ...]; [None]
    and the empty list are false. *)
Definition merge_key (key : string) (value : option records)
    (merged : Dict.t (Dict.t info)) : Dict.t (Dict.t info) :=
  match value with
  | Some (Some (i :: l)) => fold_left (merge_info key) (i :: l) merged
  | _ => merged
  end.

(** The outer loop of [merge_node] over [responseStruct.keys()]. *)
Fixpoint merge_keys (d : Dict.t records) (ks : list string)
    (merged : Dict.t (Dict.t info)) : M (Dict.t (Dict.t info)) :=
  match ks with
  | [] => ret merged
  | key :: ks' =>
      print (PrintStr key) ;;
      merge_keys d ks' (merge_key key (Dict.get key d) merged)
  end.

(** A list and [None] have no method [keys]. *)
Definition merge_node (r : responseStruct) : M (Dict.t (Dict.t info)) :=
  match r with
  | OfDict d => merge_keys d (Dict.keys d) []
  | OfRecords _ => raise AttributeError
  end.

(** The dict [node] that [sendStruct] builds for one composite. *)
Definition node_of (infos : Dict.t info) : Dict.t json :=
  fold_left (fun node kv => Dict.set (fst kv) (to_dict (snd kv)) node)
            (Dict.items infos) [].

Definition sendStruct (destAddress : address) (r : responseStruct)
    (withCompression : bool) : M unit :=
  (if verbose env then print (PrintVerbose destAddress r) else ret tt) ;;
  merged <- merge_node r ;;
  for_each (Dict.values merged) (fun infos =>
    let responseData := Json (JObject (node_of infos)) in
    print (PrintBytes responseData) ;;
    let responseData :=
      if withCompression then Deflate responseData else responseData in
    sendto responseData destAddress).

(** [str(msg, "UTF-8")] *)
Definition decode (msg : string) : M string :=
  if Str.utf8_valid msg then ret msg else raise UnicodeDecodeError.

(** The loop [for request in msgSplit[1:]] of the multi-request branch. *)
Fixpoint build_all (requests : list string) (r : Dict.t records)
    : M (Dict.t records) :=
  match requests with
  | [] => ret r
  | request :: requests' =>
      v <- buildStruct request ;;
      build_all requests' (Dict.set request v r)
  end.

(** The body of the [while True] loop of [start], after [recvfrom]. *)
Definition serve_one (msg : string) (sourceAddress : address) : M unit :=
  text <- decode msg ;;
  let msgSplit := Str.split " " text in
  if String.eqb (hd "" msgSplit) "GET" then
    r <- build_all (tl msgSplit) [] ;;
    sendStruct sourceAddress (OfDict r) true
  else
    r <- buildStruct (hd "" msgSplit) ;;
    sendStruct sourceAddress (OfRecords r) false.

(** [recvfrom(2048)] hands over at most the first 2048 bytes of a
    datagram. *)
Definition recvfrom (d : string * address) : string * address :=
  (Str.take 2048 (fst d), snd d).

(** The [while True] loop, fed with the datagrams that arrive. *)
Fixpoint serve (inbound : list (string * address)) (w : World) : outcome :=
  match inbound with
  | [] => Waiting w
  | d :: inbound' =>
      let (msg, sourceAddress) := recvfrom d in
      match serve_one msg sourceAddress w with
      | (Ok _, w') => serve inbound' w'
      | (Raise e, w') => Crashed e w'
      end
  end.

(** [start]: bind the socket and join the group, then serve. *)
Definition start (inbound : list (string * address)) : outcome :=
  match startup_error env with
  | Some e => Crashed e initial
  | None => serve inbound initial
  end.

End ResponddClient.

(** ** Reading a merge result *)

(** The record filed under [key] in the composite of [nid], if any. *)
Definition entry (merged : Dict.t (Dict.t info)) (nid key : string)
    : option info :=
  match Dict.get nid merged with
  | Some composite => Dict.get key composite
  | None => None
  end.

(** The last record of a kind list that carries the node_id [nid]. *)
Fixpoint last_with (nid : string) (l : list info) : option info :=
  match l with
  | [] => None
  | i :: l' =>
      match last_with nid l' with
      | Some j => Some j
      | None => if String.eqb (info_node_id i) nid then Some i else None
      end
  end.

(** What [responseStruct[key]] contributes for [nid]. *)
Definition selected (nid : string) (value : option records) : option info :=
  match value with
  | Some (Some l) => last_with nid l
  | _ => None
  end.

(** [nid] is the node_id of a record of the kind list [value]. *)
Definition occurs (nid : string) (value : option records) : bool :=
  match value with
  | Some (Some l) => existsb (fun i => String.eqb (info_node_id i) nid) l
  | _ => false
  end.

(** The merge of [merge_node] without its printing. *)
Definition merge_pure (d : Dict.t records) (ks : list string)
    (merged : Dict.t (Dict.t info)) : Dict.t (Dict.t info) :=
  fold_left (fun m key => merge_key key (Dict.get key d) m) ks merged.

(** The world after one more call of the data source. *)
Definition fetched (w : World) : World :=
  mk_world (S (fetches w)) (sent w) (stdout w).

(** The world after printing [ls]. *)
Definition printed (ls : list line) (w : World) : World :=
  mk_world (fetches w) (sent w) (stdout w ++ ls).

(** ** Comparing runs *)

(** The response kinds that [buildStruct] knows. *)
Definition recognized (responseType : string) : bool :=
  String.eqb responseType "statistics" || String.eqb responseType "nodeinfo".

(** Two worlds that differ at most in what was printed. *)
Definition same_effects (w w' : World) : Prop :=
  fetches w = fetches w' /\ sent w = sent w'.

(** Started in worlds with the same effects, [c1] and [c2] raise the same
    exception or return results related by [R], and end in worlds with the
    same effects. *)
Definition sim {A B : Type} (R : A -> B -> Prop) (c1 : M A) (c2 : M B) : Prop :=
  forall w w', same_effects w w' ->
    match c1 w, c2 w' with
    | (Ok a, w1), (Ok b, w2) => R a b /\ same_effects w1 w2
    | (Raise e1, w1), (Raise e2, w2) => e1 = e2 /\ same_effects w1 w2
    | _, _ => False
    end.

(** The computation [c] leaves the component [f] of the world as it is. *)
Definition keeps {A X : Type} (f : World -> X) (c : M A) : Prop :=
  forall w, f (snd (c w)) = f w.

(** [r2] is [r1] without the entries of the names that are not recognized,
    all of which map to [None]. *)
Definition without_unknown (r1 r2 : Dict.t records) : Prop :=
  r2 = filter (fun kv => recognized (fst kv)) r1
  /\ forall k v, In (k, v) r1 -> recognized k = false -> v = None.

(** Every byte of [s] is below 128. *)
Fixpoint is_ascii (s : string) : bool :=
  match s with
  | EmptyString => true
  | String c s' => Str.between 0 127 c && is_ascii s'
  end.

(** The payload is a raw deflate stream of a JSON document. *)
Definition is_deflated (d : datagram) : bool :=
  match payload d with
  | Deflate (Json _) => true
  | _ => false
  end.

(** The world in which a run of the loop ended. *)
Definition world_of (o : outcome) : World :=
  match o with
  | Crashed _ w => w
  | Waiting w => w
  end.

(** The datagram that [sendStruct] makes of one composite. *)
Definition reply (destAddress : address) (withCompression : bool)
    (infos : Dict.t info) : datagram :=
  mk_datagram
    (if withCompression then Deflate (Json (JObject (node_of infos)))
     else Json (JObject (node_of infos)))
    destAddress.

(** ** The specification's wording, for comparison *)

Module Spec.

(** ASCII lowercase. *)
Definition lower_char (c : ascii) : ascii :=
  if Str.between 65 90 c then ascii_of_nat (nat_of_ascii c + 32) else c.

Fixpoint lower (s : string) : string :=
  match s with
  | EmptyString => EmptyString
  | String c s' => String (lower_char c) (lower s')
  end.

(** The canonical node_id of section 3: the hardware address with the
    separators stripped, in lowercase hex. *)
Definition normalize (mac : string) : string :=
  lower (Str.remove_char ":" mac).

(** The ASCII whitespace characters: tab, line feed, vertical tab, form
    feed, carriage return and space. *)
Definition is_space (c : ascii) : bool :=
  Str.between 9 13 c || (Str.byte c =? 32).

(** The pieces between whitespace characters. *)
Fixpoint pieces (s : string) : list string :=
  match s with
  | EmptyString => [EmptyString]
  | String c s' =>
      if is_space c then EmptyString :: pieces s'
      else
        match pieces s' with
        | [] => [String c EmptyString]
        | p :: ps => String c p :: ps
        end
  end.

(** "Split on whitespace into tokens" (section 4.4): the maximal runs of
    characters that are not whitespace. *)
Definition tokens (s : string) : list string :=
  filter (fun t => negb (String.eqb t "")) (pieces s).

End Spec.

(** ** Sample data *)

Module Sample.

Definition zero : Float.t := Float.mk 0 0.

Definition gw1 : Accesspoint.t :=
  Accesspoint.mk "gw1" "AA:BB:CC:DD:EE:FF" "4.3.20" zero zero "U7LR"
    "admin@example.org" 3 86400 zero 268435456 104857605 4096.

Definition gw2 : Accesspoint.t :=
  Accesspoint.mk "gw2" "11:22:33:44:55:66" "4.3.20" zero zero "U7LR"
    "admin@example.org" 5 3600 zero 134217728 1048576 0.

(** An access point that reports 2^53 + 1023 bytes of memory. *)
Definition huge : Accesspoint.t :=
  Accesspoint.mk "big" "02:00:00:00:00:01" "4.3.20" zero zero "U7LR"
    "admin@example.org" 0 0 zero 9007199254742015 0 0.

Definition requester : address := mk_address "fe80::1" 45123.

(** A data source that always reports [aps], a network that never fails. *)
Definition steady (aps : list Accesspoint.t) : Env :=
  mk_env (fun _ => Ok (Accesspoints.mk aps)) (fun _ => None) None false.

(** A data source whose inventory changes between two calls: [gw1] alone
    at the first call, [gw2] alone from then on. *)
Definition changing : Env :=
  mk_env (fun n => match n with
                   | O => Ok (Accesspoints.mk [gw1])
                   | S _ => Ok (Accesspoints.mk [gw2])
                   end)
         (fun _ => None) None false.

(** A data source that is out of order. *)
Definition failing : Env :=
  mk_env (fun _ => Raise (AdapterError 1)) (fun _ => None) None false.

(** A network on which nothing can be sent. *)
Definition unreachable (aps : list Accesspoint.t) : Env :=
  mk_env (fun _ => Ok (Accesspoints.mk aps)) (fun _ => Some OSError) None
    false.

(** The request GET nodeinfo with a tab in the place of the space. *)
Definition tab_request : string :=
  "GET" ++ String (ascii_of_nat 9) "nodeinfo".

(** The single byte 0xFF, which is not UTF-8. *)
Definition not_utf8 : string := String (ascii_of_nat 255) "".

(** A host on which the multicast group cannot be joined. *)
Definition no_interface : Env :=
  mk_env (fun _ => Ok (Accesspoints.mk [gw1])) (fun _ => None) (Some OSError)
    false.

End Sample.

Module Examples.

Definition stat1 : StatisticsInfo.t :=
  StatisticsInfo.mk (ClientInfo.mk 3 3) 86400 "AABBCCDDEEFF" Sample.zero
    (MemoryInfo.mk 262144 159743 4).

(** Two nodes with a nodeinfo record, one of them with statistics too. *)
Definition response : Dict.t records :=
  [ ("nodeinfo", Some [ OfNodeInfo (nodeinfo_of Sample.gw1);
                        OfNodeInfo (nodeinfo_of Sample.gw2) ]);
    ("statistics", Some [ OfStatisticsInfo stat1 ]) ].

End Examples.

(** ** Well-formed merge results *)

(** A composite has at least one record and no kind twice. *)
Definition composite_ok (c : Dict.t info) : Prop :=
  NoDup (Dict.keys c) /\ c <> [].

(** A merge result has no node_id twice and well-formed composites. *)
Definition merged_ok (m : Dict.t (Dict.t info)) : Prop :=
  NoDup (Dict.keys m) /\ Forall composite_ok (Dict.values m).

(** The JSON object of a composite: one member per kind, named by the kind,
    holding the [to_dict] of the record. *)
Definition document (infos : Dict.t info) : json :=
  JObject (map (fun kv => (fst kv, to_dict (snd kv))) infos).

(** ** Comparing environments and runs of the loop *)

(** The environment [env] with the verbosity flag set to [b]. *)
Definition with_verbose (b : bool) (env : Env) : Env :=
  mk_env (get_infos env) (sendto_error env) (startup_error env) b.

(** The exception that ended the loop, if one did. *)
Definition crash_of (o : outcome) : option exn :=
  match o with
  | Crashed e _ => Some e
  | Waiting _ => None
  end.

(** Whatever the world it starts in, [c] has the same result and appends the
    same datagrams. *)
Definition uniform {A : Type} (c : M A) : Prop :=
  exists res new,
    forall w, fst (c w) = res /\ sent (snd (c w)) = (sent w ++ new)%list.

(** Whatever the world it starts in, [c] keeps the datagrams sent so far
    and appends datagrams for the address [a] only. *)
Definition replies_to {A : Type} (a : address) (c : M A) : Prop :=
  forall w,
    exists new,
      sent (snd (c w)) = (sent w ++ new)%list
      /\ Forall (fun d => dest d = a) new.

(** ** Hardware addresses in the usual notation *)

(** [groups] times a colon and two characters that are not colons. *)
Fixpoint colon_groups (groups : nat) (s : string) : bool :=
  match groups with
  | O => String.eqb s ""
  | S groups' =>
      match s with
      | String c (String x (String y rest)) =>
          Ascii.eqb c ":" && negb (Ascii.eqb x ":") && negb (Ascii.eqb y ":")
          && colon_groups groups' rest
      | _ => false
      end
  end.

(** Six groups of two characters, separated by colons, as in
    AA:BB:CC:DD:EE:FF. *)
Definition is_mac (s : string) : bool :=
  match s with
  | String x (String y rest) =>
      negb (Ascii.eqb x ":") && negb (Ascii.eqb y ":") && colon_groups 5 rest
  | _ => false
  end.

(** ** More sample data *)

Module Sample2.

(** An access point that reports 2^1035 bytes of memory. *)
Definition absurd : Accesspoint.t :=
  Accesspoint.mk "absurd" "02:00:00:00:00:02" "4.3.20" Sample.zero Sample.zero
    "U7LR" "admin@example.org" 0 0 Sample.zero (2 ^ 1035) 0 0.

(** An access point that reports more memory used than it has. *)
Definition overdrawn : Accesspoint.t :=
  Accesspoint.mk "odd" "02:00:00:00:00:03" "4.3.20" Sample.zero Sample.zero
    "U7LR" "admin@example.org" 1 60 Sample.zero 4096 6145 (-1).

(** A network on which the second datagram cannot be sent. *)
Definition second_send_fails (aps : list Accesspoint.t) : Env :=
  mk_env (fun _ => Ok (Accesspoints.mk aps))
         (fun n => match n with 1%nat => Some OSError | _ => None end)
         None false.

(** [n] times the letter x. *)
Fixpoint filler (n : nat) : string :=
  match n with
  | O => EmptyString
  | S n' => String "x" (filler n')
  end.

(** A request of exactly 2048 bytes: GET nodeinfo and a long unknown name. *)
Definition full_request : string :=
  ("GET nodeinfo " ++ filler 2035)%string.

End Sample2.

(** * Properties *)

(** ** Record mapper *)

Lemma ascii_eqb_sym (a b : ascii) : Ascii.eqb a b = Ascii.eqb b a.
Proof.
  destruct (Ascii.eqb_spec a b) as [-> | Hab].
  - now rewrite Ascii.eqb_refl.
  - symmetry. apply Ascii.eqb_neq. congruence.
Qed.

(** Replacing a one-character string by nothing removes that character. *)
Lemma replace_char_by_empty (c : ascii) (s : string) :
  Str.replace (String c "") "" s = Str.remove_char c s.
Proof.
  unfold Str.replace.
  induction s as [| a s IH]; [reflexivity |].
  cbn [Str.replace_from Str.remove_char Str.startswith String.length].
  rewrite (ascii_eqb_sym c a).
  destruct (Ascii.eqb a c); cbn [andb Nat.sub]; cbn.
  - exact IH.
  - now rewrite IH.
Qed.

Lemma remove_char_absent (c : ascii) (s : string) :
  Str.contains c (Str.remove_char c s) = false.
Proof.
  induction s as [| a s IH]; [reflexivity |].
  cbn [Str.remove_char].
  destruct (Ascii.eqb a c) eqn:E; [exact IH |].
  cbn [Str.contains]. now rewrite E, IH.
Qed.

Lemma statistics_of_node_id (ap : Accesspoint.t) (s : StatisticsInfo.t) :
  statistics_of ap = Ok s ->
  StatisticsInfo.node_id s = Str.replace ":" "" (Accesspoint.mac ap).
Proof.
  unfold statistics_of.
  destruct (kib (Accesspoint.mem_total ap)); [| discriminate].
  destruct (kib (Accesspoint.mem_total ap - Accesspoint.mem_used ap)); [| discriminate].
  destruct (kib (Accesspoint.mem_buffer ap)); [| discriminate].
  intros [= <-]. reflexivity.
Qed.

(** C2, as the specification states it, fails: for the hardware address
    AA:BB:CC:DD:EE:FF both records carry the node_id AABBCCDDEEFF, not the
    lowercase aabbccddeeff. *)
Lemma node_id_not_lowercased :
  NodeInfo.node_id (nodeinfo_of Sample.gw1) = "AABBCCDDEEFF"
  /\ (exists s, statistics_of Sample.gw1 = Ok s
                /\ StatisticsInfo.node_id s = "AABBCCDDEEFF")
  /\ Spec.normalize (Accesspoint.mac Sample.gw1) = "aabbccddeeff"
  /\ NodeInfo.node_id (nodeinfo_of Sample.gw1)
     <> Spec.normalize (Accesspoint.mac Sample.gw1).
Proof.
  split; [reflexivity |].
  split; [eexists; split; [vm_compute; reflexivity | reflexivity] |].
  split; [reflexivity |].
  vm_compute. discriminate.
Qed.

(** C2 (amended): for every access-point record, the node_id of its NodeInfo
    equals the node_id of its StatisticsInfo, and both are the hardware
    address with every colon removed and the case of the remaining
    characters left as the data source supplied it. *)
Theorem node_id_is_mac_without_colons (ap : Accesspoint.t) (s : StatisticsInfo.t) :
  statistics_of ap = Ok s ->
  NodeInfo.node_id (nodeinfo_of ap) = StatisticsInfo.node_id s
  /\ StatisticsInfo.node_id s = Str.remove_char ":" (Accesspoint.mac ap)
  /\ Str.contains ":" (StatisticsInfo.node_id s) = false.
Proof.
  intros Hs. apply statistics_of_node_id in Hs. rewrite Hs.
  cbn [nodeinfo_of NodeInfo.node_id].
  rewrite replace_char_by_empty.
  repeat split. apply remove_char_absent.
Qed.

Lemma node_id_is_mac_without_colons_witness :
  exists s, statistics_of Sample.gw1 = Ok s
    /\ NodeInfo.node_id (nodeinfo_of Sample.gw1) = StatisticsInfo.node_id s
    /\ StatisticsInfo.node_id s = Str.remove_char ":" (Accesspoint.mac Sample.gw1)
    /\ Str.contains ":" (StatisticsInfo.node_id s) = false.
Proof.
  eexists. split; [vm_compute; reflexivity |].
  apply (node_id_is_mac_without_colons Sample.gw1). vm_compute; reflexivity.
Defined.

(** ** Memory fields *)

Lemma div_half_even_exact (q d : Z) :
  0 < d -> Float.div_half_even (q * d) d = q.
Proof.
  intros Hd. unfold Float.div_half_even.
  rewrite Z.div_mul by lia. rewrite Z.mod_mul by lia.
  destruct (Z.ltb_spec (2 * 0) d); [reflexivity | lia].
Qed.

(** Below 2^53 the quotient by 1024 is a binary64 value, so that the true
    division rounds nothing away and [int] truncates the exact quotient. *)
Lemma kib_exact (x : Z) : Z.abs x < 2 ^ 53 -> kib x = Ok (Z.quot x 1024).
Proof.
  intros Hx. unfold kib, Float.int_truediv.
  change (1024 =? 0) with false. cbv iota.
  destruct (Z.eqb_spec x 0) as [-> | Hnz]; [reflexivity |].
  cbv zeta.
  change (Z.abs 1024) with 1024. change (Z.log2 1024) with 10.
  change (Z.sgn 1024) with 1.
  set (n := Z.abs x) in *.
  assert (Hn : 0 < n) by (subst n; lia).
  pose proof (Z.log2_spec n Hn) as [Hlo Hhi].
  pose proof (Z.log2_nonneg n) as Hl0.
  assert (Hl52 : Z.log2 n <= 52).
  { destruct (Z_le_gt_dec (Z.log2 n) 52) as [| Hgt]; [assumption |].
    exfalso.
    assert (2 ^ 53 <= 2 ^ Z.log2 n) by (apply Z.pow_le_mono_r; lia). lia. }
  set (k := 52 - Z.log2 n).
  assert (Hk : 0 <= k) by (subst k; lia).
  assert (Hpk : 0 < 2 ^ k) by (apply Z.pow_pos_nonneg; lia).
  replace (Z.max (Z.log2 n - 10 - 53) (-1074)) with (- (k + 11))
    by (subst k; lia).
  unfold Float.scaled_num, Float.scaled_den.
  destruct (Z.ltb_spec (- (k + 11)) 0) as [_ |]; [| lia].
  replace (- - (k + 11)) with (k + 1 + 10) by lia.
  rewrite (Z.pow_add_r 2 (k + 1) 10) by lia.
  change (2 ^ 10) with 1024.
  rewrite Z.mul_assoc, Z.div_mul by lia.
  assert (H53 : 2 ^ 53 <= n * 2 ^ (k + 1)).
  { replace 53 with (Z.log2 n + (k + 1)) by (subst k; lia).
    rewrite Z.pow_add_r by lia. apply Z.mul_le_mono_nonneg_r; [| lia].
    apply Z.pow_nonneg; lia. }
  destruct (Z.leb_spec (2 ^ 53) (n * 2 ^ (k + 1))) as [_ |]; [| lia].
  replace (- (k + 11) + 1) with (- (k + 10)) by lia.
  destruct (Z.ltb_spec (- (k + 10)) 0) as [_ |]; [| lia].
  replace (- - (k + 10)) with (k + 10) by lia.
  rewrite (Z.pow_add_r 2 k 10) by lia. change (2 ^ 10) with 1024.
  rewrite Z.mul_assoc, div_half_even_exact by lia.
  destruct (Z.ltb_spec 971 (- (k + 10))) as [| _]; [lia |].
  destruct (Z.eqb_spec (- (k + 10)) 971) as [| _]; [lia |].
  cbn [orb andb]. f_equal.
  unfold Float.to_int; cbn [Float.exponent Float.significand].
  destruct (Z.leb_spec 0 (- (k + 10))) as [| _]; [lia |].
  replace (Z.sgn x * 1 * (n * 2 ^ k)) with (x * 2 ^ k).
  2:{ subst n. transitivity (Z.abs x * Z.sgn x * 2 ^ k); [| ring].
      now rewrite Z.abs_sgn. }
  replace (- - (k + 10)) with (10 + k) by lia.
  rewrite (Z.pow_add_r 2 10 k) by lia. change (2 ^ 10) with 1024.
  apply Z.quot_mul_cancel_r; lia.
Qed.

(** C4, as the specification states it, fails: [int(x / 1024)] divides in
    floating point, and for a total of 2^53 + 1023 bytes the quotient rounds
    up to 2^43 + 1 before it is truncated, one more than the truncating
    integer quotient 2^43. *)
Lemma memory_total_rounded_up :
  0 <= Accesspoint.mem_used Sample.huge <= Accesspoint.mem_total Sample.huge
  /\ exists s, statistics_of Sample.huge = Ok s
       /\ MemoryInfo.total (StatisticsInfo.memory s) = 8796093022209
       /\ Z.quot (Accesspoint.mem_total Sample.huge) 1024 = 8796093022208
       /\ MemoryInfo.total (StatisticsInfo.memory s)
          <> Z.quot (Accesspoint.mem_total Sample.huge) 1024.
Proof.
  split; [cbn; lia |].
  eexists. split; [vm_compute; reflexivity |].
  split; [reflexivity |]. split; [reflexivity |].
  vm_compute. discriminate.
Qed.

(** C4 (amended): for memory byte counts with 0 <= used <= total < 2^53 and
    a buffer count below 2^53 in absolute value, the StatisticsInfo is built
    and its memory fields are total = T / 1024, free = (T - U) / 1024 and
    buffers = B / 1024, each with truncating integer division. *)
Theorem memory_fields_in_kib (ap : Accesspoint.t) :
  0 <= Accesspoint.mem_used ap <= Accesspoint.mem_total ap ->
  Accesspoint.mem_total ap < 2 ^ 53 ->
  Z.abs (Accesspoint.mem_buffer ap) < 2 ^ 53 ->
  exists s, statistics_of ap = Ok s
    /\ MemoryInfo.total (StatisticsInfo.memory s)
       = Z.quot (Accesspoint.mem_total ap) 1024
    /\ MemoryInfo.free (StatisticsInfo.memory s)
       = Z.quot (Accesspoint.mem_total ap - Accesspoint.mem_used ap) 1024
    /\ MemoryInfo.buffers (StatisticsInfo.memory s)
       = Z.quot (Accesspoint.mem_buffer ap) 1024.
Proof.
  intros HU HT HB. unfold statistics_of.
  rewrite !kib_exact by lia.
  eexists. split; [reflexivity |]. cbn. repeat split.
Qed.

Lemma memory_fields_in_kib_witness :
  exists s, statistics_of Sample.gw1 = Ok s
    /\ MemoryInfo.total (StatisticsInfo.memory s) = Z.quot 268435456 1024
    /\ MemoryInfo.free (StatisticsInfo.memory s)
       = Z.quot (268435456 - 104857605) 1024
    /\ MemoryInfo.buffers (StatisticsInfo.memory s) = Z.quot 4096 1024.
Proof.
  apply (memory_fields_in_kib Sample.gw1); cbn; lia.
Defined.

(** ** Dictionaries *)

Section DictFacts.
Context {V : Type}.

Lemma get_set_same (k : string) (v : V) (d : Dict.t V) :
  Dict.get k (Dict.set k v d) = Some v.
Proof.
  induction d as [| [k' v'] d IH]; cbn.
  - now rewrite String.eqb_refl.
  - destruct (String.eqb_spec k' k) as [-> | Hne]; cbn.
    + now rewrite String.eqb_refl.
    + destruct (String.eqb_spec k' k); [contradiction | exact IH].
Qed.

Lemma get_set_other (k k' : string) (v : V) (d : Dict.t V) :
  k <> k' -> Dict.get k' (Dict.set k v d) = Dict.get k' d.
Proof.
  intros Hne. induction d as [| [k0 v0] d IH]; cbn.
  - destruct (String.eqb_spec k k'); [contradiction | reflexivity].
  - destruct (String.eqb_spec k0 k) as [-> | Hk0]; cbn.
    + destruct (String.eqb_spec k k'); [contradiction | reflexivity].
    + destruct (String.eqb_spec k0 k'); [reflexivity | exact IH].
Qed.

Lemma get_set (k k' : string) (v : V) (d : Dict.t V) :
  Dict.get k' (Dict.set k v d)
  = if String.eqb k k' then Some v else Dict.get k' d.
Proof.
  destruct (String.eqb_spec k k') as [-> | Hne].
  - apply get_set_same.
  - now apply get_set_other.
Qed.

Lemma get_in_keys (k : string) (d : Dict.t V) :
  Dict.get k d <> None <-> In k (Dict.keys d).
Proof.
  induction d as [| [k' v'] d IH]; cbn.
  - split; [congruence | contradiction].
  - destruct (String.eqb_spec k' k) as [-> | Hne].
    + split; [now left | discriminate].
    + rewrite IH. split; [now right | intros [? |]; [contradiction | assumption]].
Qed.
End DictFacts.

(** ** Response merger *)

Lemma entry_merge_info (key : string) (m : Dict.t (Dict.t info)) (i : info)
    (nid k : string) :
  entry (merge_info key m i) nid k
  = if String.eqb (info_node_id i) nid && String.eqb key k then Some i
    else entry m nid k.
Proof.
  unfold merge_info, entry.
  destruct (Dict.get (info_node_id i) m) as [c |] eqn:Hc;
    rewrite get_set;
    destruct (String.eqb_spec (info_node_id i) nid) as [<- | Hn]; cbn [andb];
    try reflexivity.
  - rewrite get_set, Hc. now destruct (String.eqb key k).
  - rewrite Hc. cbn. destruct (String.eqb key k); reflexivity.
Qed.

Lemma entry_merge_list (key : string) (l : list info) (nid k : string) :
  forall m,
    entry (fold_left (merge_info key) l m) nid k
    = match (if String.eqb key k then last_with nid l else None) with
      | Some i => Some i
      | None => entry m nid k
      end.
Proof.
  induction l as [| i l IH]; intros m; cbn [fold_left last_with].
  - now destruct (String.eqb key k).
  - rewrite IH, entry_merge_info.
    destruct (String.eqb key k); [| now rewrite andb_false_r].
    rewrite andb_true_r.
    destruct (last_with nid l); [reflexivity |].
    now destruct (String.eqb (info_node_id i) nid).
Qed.

Lemma entry_merge_key (key : string) (value : option records)
    (m : Dict.t (Dict.t info)) (nid k : string) :
  entry (merge_key key value m) nid k
  = match (if String.eqb key k then selected nid value else None) with
    | Some i => Some i
    | None => entry m nid k
    end.
Proof.
  unfold merge_key, selected.
  destruct value as [[[| i l] |] |]; try (now destruct (String.eqb key k)).
  apply entry_merge_list.
Qed.

Lemma entry_merge_pure (d : Dict.t records) (ks : list string)
    (nid k : string) :
  forall m,
    entry (merge_pure d ks m) nid k
    = match (if existsb (String.eqb k) ks then selected nid (Dict.get k d)
             else None) with
      | Some i => Some i
      | None => entry m nid k
      end.
Proof.
  unfold merge_pure.
  induction ks as [| key ks IH]; intros m; cbn [fold_left existsb].
  - reflexivity.
  - rewrite IH, entry_merge_key.
    destruct (String.eqb_spec k key) as [-> | Hne]; cbn [orb].
    + rewrite String.eqb_refl.
      destruct (existsb (String.eqb key) ks); [| reflexivity].
      now destruct (selected nid (Dict.get key d)).
    + destruct (String.eqb_spec key k); [congruence | reflexivity].
Qed.

Lemma existsb_keys {V : Type} (k : string) (d : Dict.t V) :
  Dict.get k d <> None -> existsb (String.eqb k) (Dict.keys d) = true.
Proof.
  intros H. apply get_in_keys in H. apply existsb_exists.
  exists k. split; [assumption | apply String.eqb_refl].
Qed.

(** The composite of [nid] holds under [key] the last record of
    [responseStruct[key]] with that node_id, and nothing else. *)
Lemma entry_merge (d : Dict.t records) (nid key : string) :
  entry (merge_pure d (Dict.keys d) []) nid key = selected nid (Dict.get key d).
Proof.
  rewrite entry_merge_pure.
  destruct (Dict.get key d) as [v |] eqn:Hget.
  - rewrite existsb_keys by congruence.
    now destruct (selected nid (Some v)).
  - cbn [selected]. now destruct (existsb (String.eqb key) (Dict.keys d)).
Qed.

Lemma last_with_none (nid : string) (l : list info) :
  existsb (fun i => String.eqb (info_node_id i) nid) l = false ->
  last_with nid l = None.
Proof.
  induction l as [| i l IH]; cbn [existsb last_with]; [reflexivity |].
  intros H. apply orb_false_elim in H as [Hi Hl].
  now rewrite (IH Hl), Hi.
Qed.

Lemma last_with_occurs (nid : string) (l : list info) :
  existsb (fun i => String.eqb (info_node_id i) nid) l = true ->
  exists i, last_with nid l = Some i /\ In i l /\ info_node_id i = nid.
Proof.
  induction l as [| i l IH]; cbn [existsb last_with]; [discriminate |].
  intros H. destruct (existsb _ l) eqn:El.
  - destruct (IH eq_refl) as (j & -> & Hin & Hj).
    exists j. repeat split; [now right | assumption].
  - rewrite orb_false_r in H. rewrite (last_with_none nid l El), H.
    exists i. repeat split; [now left | now apply String.eqb_eq].
Qed.

Lemma selected_occurs (nid : string) (value : option records) :
  occurs nid value = true ->
  exists i l, value = Some (Some l) /\ selected nid value = Some i
              /\ In i l /\ info_node_id i = nid.
Proof.
  destruct value as [[l |] |]; cbn; try discriminate.
  intros H. destruct (last_with_occurs nid l H) as (i & Hi & Hin & Hn).
  exists i, l. auto.
Qed.

Lemma selected_absent (nid : string) (value : option records) :
  occurs nid value = false -> selected nid value = None.
Proof.
  destruct value as [[l |] |]; cbn; try reflexivity. apply last_with_none.
Qed.

Lemma merge_keys_run (d : Dict.t records) (ks : list string) :
  forall m w,
    merge_keys d ks m w
    = (Ok (merge_pure d ks m), printed (map PrintStr ks) w).
Proof.
  induction ks as [| key ks IH]; intros m w; cbn [merge_keys map].
  - unfold ret, printed. rewrite app_nil_r. now destruct w.
  - unfold bind, print. rewrite IH. unfold printed; cbn.
    now rewrite <- app_assoc.
Qed.

Lemma entry_some (merged : Dict.t (Dict.t info)) (nid key : string) (i : info) :
  entry merged nid key = Some i ->
  exists c, Dict.get nid merged = Some c /\ Dict.get key c = Some i.
Proof.
  unfold entry. destruct (Dict.get nid merged) as [c |]; [eauto | discriminate].
Qed.

(** C5: the merge maps a node_id that occurs in both the nodeinfo and the
    statistics list to a composite with both sub-records; a node_id that
    occurs in the list of one kind only to a composite with the sub-record of
    that kind and no other; and every node_id that occurs in a list of the
    input is a key of the result. *)
Theorem merge_node_groups_by_node_id (d : Dict.t records) (w : World) :
  exists merged,
    merge_node (OfDict d) w
    = (Ok merged, printed (map PrintStr (Dict.keys d)) w)
    /\ (forall nid,
          occurs nid (Dict.get "nodeinfo" d) = true ->
          occurs nid (Dict.get "statistics" d) = true ->
          exists c n s ln ls,
            Dict.get nid merged = Some c
            /\ Dict.get "nodeinfo" c = Some n
            /\ Dict.get "statistics" c = Some s
            /\ Dict.get "nodeinfo" d = Some (Some ln) /\ In n ln
            /\ Dict.get "statistics" d = Some (Some ls) /\ In s ls
            /\ info_node_id n = nid /\ info_node_id s = nid)
    /\ (forall nid key,
          occurs nid (Dict.get key d) = true ->
          (forall key', key' <> key -> occurs nid (Dict.get key' d) = false) ->
          exists c i l,
            Dict.get nid merged = Some c
            /\ Dict.get key c = Some i
            /\ Dict.get key d = Some (Some l) /\ In i l
            /\ info_node_id i = nid
            /\ (forall key', key' <> key -> Dict.get key' c = None))
    /\ (forall nid key,
          occurs nid (Dict.get key d) = true -> Dict.mem nid merged = true).
Proof.
  exists (merge_pure d (Dict.keys d) []).
  split; [apply merge_keys_run |].
  split; [| split].
  - intros nid Hn Hs.
    destruct (selected_occurs _ _ Hn) as (n & ln & Hln & Hseln & Hinn & Hidn).
    destruct (selected_occurs _ _ Hs) as (s & ls & Hls & Hsels & Hins & Hids).
    rewrite <- entry_merge in Hseln, Hsels.
    destruct (entry_some _ _ _ _ Hseln) as (c & Hc & Hcn).
    destruct (entry_some _ _ _ _ Hsels) as (c' & Hc' & Hcs).
    rewrite Hc in Hc'. injection Hc' as <-.
    exists c, n, s, ln, ls. auto 10.
  - intros nid key Hocc Hothers.
    destruct (selected_occurs _ _ Hocc) as (i & l & Hl & Hsel & Hin & Hid).
    rewrite <- entry_merge in Hsel.
    destruct (entry_some _ _ _ _ Hsel) as (c & Hc & Hci).
    exists c, i, l. repeat split; try assumption.
    intros key' Hne.
    pose proof (entry_merge d nid key') as He.
    rewrite (selected_absent _ _ (Hothers key' Hne)) in He.
    unfold entry in He. now rewrite Hc in He.
  - intros nid key Hocc.
    destruct (selected_occurs _ _ Hocc) as (i & l & _ & Hsel & _).
    rewrite <- entry_merge in Hsel.
    destruct (entry_some _ _ _ _ Hsel) as (c & Hc & _).
    unfold Dict.mem. now rewrite Hc.
Qed.

Lemma merge_node_groups_by_node_id_witness :
  exists merged,
    fst (merge_node (OfDict Examples.response) initial) = Ok merged
    /\ (exists c n s,
          Dict.get "AABBCCDDEEFF" merged = Some c
          /\ Dict.get "nodeinfo" c = Some n
          /\ Dict.get "statistics" c = Some s)
    /\ (exists c i,
          Dict.get "112233445566" merged = Some c
          /\ Dict.get "nodeinfo" c = Some i
          /\ Dict.get "statistics" c = None)
    /\ Dict.mem "112233445566" merged = true.
Proof.
  destruct (merge_node_groups_by_node_id Examples.response initial)
    as (merged & Hrun & Hboth & Hone & Hkept).
  exists merged. split; [now rewrite Hrun |]. split; [| split].
  - destruct (Hboth "AABBCCDDEEFF" eq_refl eq_refl)
      as (c & n & s & _ & _ & Hc & Hn & Hs & _).
    exists c, n, s. auto.
  - assert (Hothers : forall key', key' <> "nodeinfo" ->
              occurs "112233445566" (Dict.get key' Examples.response) = false).
    { intros key' Hne. cbn [Examples.response Dict.get].
      destruct (String.eqb_spec "nodeinfo" key'); [congruence |].
      destruct (String.eqb "statistics" key'); reflexivity. }
    destruct (Hone "112233445566" "nodeinfo" eq_refl Hothers)
      as (c & i & _ & Hc & Hi & _ & _ & _ & Hnone).
    exists c, i. repeat split; [exact Hc | exact Hi |].
    apply Hnone. discriminate.
  - exact (Hkept "112233445566" "nodeinfo" eq_refl).
Defined.

(** ** Running the record mapper *)

Lemma getNodeInfos_run (env : Env) (w : World) :
  getNodeInfos env w
  = (match get_infos env (fetches w) with
     | Ok aps => Ok (map nodeinfo_of (Accesspoints.accesspoints aps))
     | Raise e => Raise e
     end, fetched w).
Proof.
  unfold getNodeInfos, bind, _aps, ret, fetched.
  now destruct (get_infos env (fetches w)).
Qed.

Lemma getStatistics_run (env : Env) (w : World) :
  getStatistics env w
  = (match get_infos env (fetches w) with
     | Ok aps => statistics_list (Accesspoints.accesspoints aps)
     | Raise e => Raise e
     end, fetched w).
Proof.
  unfold getStatistics, bind, _aps, lift, fetched.
  now destruct (get_infos env (fetches w)).
Qed.

(** C9: every NodeInfo that the record mapper produces has an empty
    firmware.release, whatever the access-point record holds. *)
Theorem nodeinfo_release_is_empty (env : Env) (w w' : World)
    (l : list NodeInfo.t) :
  getNodeInfos env w = (Ok l, w') ->
  forall n, In n l -> FirmwareInfo.release (NodeInfo.firmware n) = "".
Proof.
  rewrite getNodeInfos_run.
  destruct (get_infos env (fetches w)) as [aps | e]; [| discriminate].
  intros [= <- _] n Hin. apply in_map_iff in Hin as (ap & <- & _).
  reflexivity.
Qed.

Lemma nodeinfo_release_is_empty_witness :
  getNodeInfos (Sample.steady [Sample.gw1; Sample.gw2]) initial
  = (Ok (map nodeinfo_of [Sample.gw1; Sample.gw2]), fetched initial)
  /\ FirmwareInfo.release (NodeInfo.firmware (nodeinfo_of Sample.gw2)) = "".
Proof.
  split; [reflexivity |].
  apply (nodeinfo_release_is_empty (Sample.steady [Sample.gw1; Sample.gw2])
           initial (fetched initial)
           (map nodeinfo_of [Sample.gw1; Sample.gw2]) eq_refl).
  right. left. reflexivity.
Defined.

(** ** Effects that a computation leaves alone *)

Section Keeps.
Context {X : Type} (f : World -> X).

Lemma keeps_ret {A : Type} (a : A) : keeps f (ret a).
Proof. intros w. reflexivity. Qed.

Lemma keeps_raise {A : Type} (e : exn) : keeps f (@raise A e).
Proof. intros w. reflexivity. Qed.

Lemma keeps_lift {A : Type} (r : except A) : keeps f (lift r).
Proof. intros w. reflexivity. Qed.

Lemma keeps_bind {A B : Type} (c : M A) (k : A -> M B) :
  keeps f c -> (forall a, keeps f (k a)) -> keeps f (bind c k).
Proof.
  intros Hc Hk w. unfold bind. specialize (Hc w).
  destruct (c w) as [[a | e] w1]; cbn in *.
  - now rewrite Hk.
  - exact Hc.
Qed.

Lemma keeps_for_each {A : Type} (xs : list A) (body : A -> M unit) :
  (forall x, keeps f (body x)) -> keeps f (for_each xs body).
Proof.
  intros Hb. induction xs as [| x xs IH]; cbn [for_each].
  - apply keeps_ret.
  - apply keeps_bind; [apply Hb | intros _; exact IH].
Qed.
End Keeps.

Lemma keeps_fetches_print (l : line) : keeps fetches (print l).
Proof. intros w. reflexivity. Qed.

Lemma keeps_sent_print (l : line) : keeps sent (print l).
Proof. intros w. reflexivity. Qed.

Lemma keeps_sent_aps (env : Env) : keeps sent (_aps env).
Proof. intros w. reflexivity. Qed.

Lemma keeps_fetches_sendto (env : Env) (data : wire) (a : address) :
  keeps fetches (sendto env data a).
Proof.
  intros w. unfold sendto.
  now destruct (sendto_error env (List.length (sent w))).
Qed.

Lemma keeps_sent_buildStruct (env : Env) (t : string) :
  keeps sent (buildStruct env t).
Proof.
  unfold buildStruct, getStatistics, getNodeInfos.
  destruct (String.eqb t "statistics"); [| destruct (String.eqb t "nodeinfo")];
    repeat (apply keeps_bind; [| intros ?]);
    auto using keeps_sent_aps, keeps_sent_print, keeps_ret, keeps_lift.
Qed.

Lemma keeps_sent_build_all (env : Env) (ks : list string) :
  forall r, keeps sent (build_all env ks r).
Proof.
  induction ks as [| k ks IH]; intros r; cbn [build_all].
  - apply keeps_ret.
  - apply keeps_bind; [apply keeps_sent_buildStruct | intros v; apply IH].
Qed.

Lemma keeps_fetches_merge_node (r : responseStruct) :
  keeps fetches (merge_node r).
Proof.
  destruct r as [d | r]; cbn [merge_node]; [| apply keeps_raise].
  intros w. now rewrite merge_keys_run.
Qed.

Lemma keeps_fetches_sendStruct (env : Env) (a : address)
    (r : responseStruct) (c : bool) :
  keeps fetches (sendStruct env a r c).
Proof.
  unfold sendStruct.
  apply keeps_bind.
  { destruct (verbose env); [apply keeps_fetches_print | apply keeps_ret]. }
  intros _. apply keeps_bind; [apply keeps_fetches_merge_node |].
  intros merged. apply keeps_for_each. intros infos.
  apply keeps_bind; [apply keeps_fetches_print |].
  intros _. apply keeps_fetches_sendto.
Qed.

(** ** Running [buildStruct] *)

Lemma buildStruct_statistics (env : Env) (w : World) :
  buildStruct env "statistics" w
  = (match get_infos env (fetches w) with
     | Ok aps =>
         match statistics_list (Accesspoints.accesspoints aps) with
         | Ok l => Ok (Some (map OfStatisticsInfo l))
         | Raise e => Raise e
         end
     | Raise e => Raise e
     end, fetched w).
Proof.
  unfold buildStruct. cbn [String.eqb Ascii.eqb Bool.eqb andb].
  unfold bind. rewrite getStatistics_run.
  destruct (get_infos env (fetches w)) as [aps | e]; [| reflexivity].
  now destruct (statistics_list (Accesspoints.accesspoints aps)).
Qed.

Lemma buildStruct_nodeinfo (env : Env) (w : World) :
  buildStruct env "nodeinfo" w
  = (match get_infos env (fetches w) with
     | Ok aps => Ok (Some (map OfNodeInfo
                             (map nodeinfo_of (Accesspoints.accesspoints aps))))
     | Raise e => Raise e
     end, fetched w).
Proof.
  unfold buildStruct. cbn [String.eqb Ascii.eqb Bool.eqb andb].
  unfold bind. rewrite getNodeInfos_run.
  now destruct (get_infos env (fetches w)).
Qed.

Lemma buildStruct_unknown (env : Env) (t : string) (w : World) :
  recognized t = false ->
  buildStruct env t w
  = (Ok None, printed [PrintStr ("unknown command: " ++ t)] w).
Proof.
  unfold recognized, buildStruct. intros H.
  apply orb_false_elim in H as [-> ->]. reflexivity.
Qed.

Lemma recognized_cases (t : string) :
  recognized t = true -> t = "statistics" \/ t = "nodeinfo".
Proof.
  unfold recognized. intros H. apply orb_true_iff in H as [H | H];
    apply String.eqb_eq in H; auto.
Qed.

(** ** Runs that differ in their printing only *)

Lemma same_effects_refl (w : World) : same_effects w w.
Proof. split; reflexivity. Qed.

Lemma same_effects_printed (ls ls' : list line) (w w' : World) :
  same_effects w w' -> same_effects (printed ls w) (printed ls' w').
Proof. intros [Hf Hs]. split; assumption. Qed.

Section Sim.
Context {A B : Type}.

Lemma sim_ret (R : A -> B -> Prop) (a : A) (b : B) :
  R a b -> sim R (ret a) (ret b).
Proof. intros HR w w' Hw. cbn. auto. Qed.

Lemma sim_raise (R : A -> B -> Prop) (e : exn) : sim R (raise e) (raise e).
Proof. intros w w' Hw. cbn. auto. Qed.

Lemma sim_bind {A' B' : Type} (R : A -> B -> Prop) (S : A' -> B' -> Prop)
    (c1 : M A) (c2 : M B) (k1 : A -> M A') (k2 : B -> M B') :
  sim R c1 c2 -> (forall a b, R a b -> sim S (k1 a) (k2 b)) ->
  sim S (bind c1 k1) (bind c2 k2).
Proof.
  intros Hc Hk w w' Hw. unfold bind. specialize (Hc w w' Hw).
  destruct (c1 w) as [[a | e1] w1], (c2 w') as [[b | e2] w2];
    try contradiction.
  - destruct Hc as [HR Hw1]. exact (Hk a b HR w1 w2 Hw1).
  - exact Hc.
Qed.

(** A computation that only prints can be dropped on the left. *)
Lemma sim_bind_left {A' : Type} (P : A' -> Prop) (R : A -> B -> Prop)
    (c : M A') (k : A' -> M A) (c2 : M B) :
  sim (fun a _ => P a) c (ret tt) -> (forall a, P a -> sim R (k a) c2) ->
  sim R (bind c k) c2.
Proof.
  intros Hc Hk w w' Hw. unfold bind. specialize (Hc w w' Hw).
  cbn in Hc. destruct (c w) as [[a | e1] w1]; [| contradiction].
  destruct Hc as [HP Hw1]. exact (Hk a HP w1 w' Hw1).
Qed.
End Sim.

Lemma sim_print (l l' : line) : sim (fun _ _ => True) (print l) (print l').
Proof. intros w w' [Hf Hs]. cbn. repeat split; assumption. Qed.

Lemma sim_lift {A : Type} (r : except A) : sim eq (lift r) (lift r).
Proof. intros w w' Hw. unfold lift. destruct r; auto. Qed.

Lemma sim_aps (env : Env) : sim eq (_aps env) (_aps env).
Proof.
  intros w w' [Hf Hs]. unfold _aps. rewrite <- Hf.
  destruct (get_infos env (fetches w)); cbn; repeat split; cbn; congruence.
Qed.

Lemma sim_sendto (env : Env) (data : wire) (a : address) :
  sim eq (sendto env data a) (sendto env data a).
Proof.
  intros w w' [Hf Hs]. unfold sendto. rewrite <- Hs.
  destruct (sendto_error env (List.length (sent w))); cbn;
    repeat split; cbn; congruence.
Qed.

Lemma sim_for_each {A : Type} (xs : list A) (body : A -> M unit) :
  (forall x, sim eq (body x) (body x)) ->
  sim eq (for_each xs body) (for_each xs body).
Proof.
  intros Hb. induction xs as [| x xs IH]; cbn [for_each].
  - now apply sim_ret.
  - eapply sim_bind; [apply Hb | intros _ _ _; exact IH].
Qed.

Lemma sim_buildStruct (env : Env) (t : string) :
  sim eq (buildStruct env t) (buildStruct env t).
Proof.
  unfold buildStruct, getStatistics, getNodeInfos.
  destruct (String.eqb t "statistics"); [| destruct (String.eqb t "nodeinfo")].
  - apply sim_bind with (R := eq); [| intros l ? <-; now apply sim_ret].
    apply sim_bind with (R := eq); [apply sim_aps |].
    intros aps ? <-; apply sim_lift.
  - apply sim_bind with (R := eq); [| intros l ? <-; now apply sim_ret].
    apply sim_bind with (R := eq); [apply sim_aps |].
    intros aps ? <-; now apply sim_ret.
  - eapply sim_bind; [apply sim_print | intros _ _ _; now apply sim_ret].
Qed.

Lemma sim_buildStruct_unknown (env : Env) (t : string) :
  recognized t = false ->
  sim (fun v _ => v = None) (buildStruct env t) (ret tt).
Proof.
  intros Ht w w' Hw. rewrite (buildStruct_unknown env t w Ht). cbn.
  split; [reflexivity |]. destruct Hw. split; assumption.
Qed.

(** ** Dropping the unknown names from a response dict *)

Section Filter.
Context {V : Type} (p : string -> bool).

Lemma filter_set (k : string) (v : V) (d : Dict.t V) :
  filter (fun kv => p (fst kv)) (Dict.set k v d)
  = if p k then Dict.set k v (filter (fun kv => p (fst kv)) d)
    else filter (fun kv => p (fst kv)) d.
Proof.
  induction d as [| [k' v'] d IH]; cbn [Dict.set filter fst].
  - now destruct (p k).
  - destruct (String.eqb_spec k' k) as [-> | Hne]; cbn [filter fst].
    + destruct (p k); [| reflexivity].
      cbn [Dict.set]. now rewrite String.eqb_refl.
    + rewrite IH. destruct (p k'), (p k); try reflexivity.
      cbn [Dict.set]. destruct (String.eqb_spec k' k); [contradiction |].
      reflexivity.
Qed.

Lemma get_filter (k : string) (d : Dict.t V) :
  p k = true ->
  Dict.get k (filter (fun kv => p (fst kv)) d) = Dict.get k d.
Proof.
  intros Hk. induction d as [| [k' v'] d IH]; [reflexivity |].
  cbn [filter Dict.get fst].
  destruct (String.eqb_spec k' k) as [-> | Hne].
  - rewrite Hk. cbn [Dict.get]. now rewrite String.eqb_refl.
  - destruct (p k'); [| exact IH]. cbn [Dict.get].
    destruct (String.eqb_spec k' k); [contradiction | exact IH].
Qed.

Lemma keys_filter (d : Dict.t V) :
  Dict.keys (filter (fun kv => p (fst kv)) d) = filter p (Dict.keys d).
Proof.
  unfold Dict.keys.
  induction d as [| [k' v'] d IH]; [reflexivity |].
  cbn [filter map fst].
  destruct (p k'); cbn [map fst]; now f_equal.
Qed.
End Filter.

Lemma in_set {V : Type} (k k' : string) (v v' : V) (d : Dict.t V) :
  In (k', v') (Dict.set k v d) -> (k' = k /\ v' = v) \/ In (k', v') d.
Proof.
  induction d as [| [k0 v0] d IH]; cbn [Dict.set].
  - intros [[= <- <-] | []]. now left.
  - destruct (String.eqb_spec k0 k) as [-> | Hne].
    + intros [[= <- <-] | Hin]; [now left | right; now right].
    + intros [Heq | Hin]; [right; now left |].
      destruct (IH Hin) as [? | ?]; [now left | right; now right].
Qed.

Lemma get_in {V : Type} (k : string) (v : V) (d : Dict.t V) :
  Dict.get k d = Some v -> In (k, v) d.
Proof.
  induction d as [| [k0 v0] d IH]; cbn [Dict.get]; [discriminate |].
  destruct (String.eqb_spec k0 k) as [-> | Hne].
  - intros [= ->]. now left.
  - intros H. right. auto.
Qed.

Lemma without_unknown_set_known (k : string) (v : records)
    (r1 r2 : Dict.t records) :
  recognized k = true -> without_unknown r1 r2 ->
  without_unknown (Dict.set k v r1) (Dict.set k v r2).
Proof.
  intros Hk [-> Hnone]. split.
  - now rewrite filter_set, Hk.
  - intros k' v' Hin Hk'. apply in_set in Hin as [[-> _] | Hin]; [congruence |].
    eauto.
Qed.

Lemma without_unknown_set_unknown (k : string) (r1 r2 : Dict.t records) :
  recognized k = false -> without_unknown r1 r2 ->
  without_unknown (Dict.set k None r1) r2.
Proof.
  intros Hk [-> Hnone]. split.
  - now rewrite filter_set, Hk.
  - intros k' v' Hin Hk'. apply in_set in Hin as [[_ ->] | Hin]; eauto.
Qed.

Lemma sim_build_all (env : Env) (ks : list string) :
  forall r1 r2,
    without_unknown r1 r2 ->
    sim without_unknown (build_all env ks r1)
        (build_all env (filter recognized ks) r2).
Proof.
  induction ks as [| k ks IH]; intros r1 r2 Hr; cbn [build_all filter].
  - now apply sim_ret.
  - destruct (recognized k) eqn:Hk; cbn [build_all].
    + eapply sim_bind; [apply sim_buildStruct |].
      intros v ? <-. apply IH. now apply without_unknown_set_known.
    + eapply sim_bind_left; [now apply sim_buildStruct_unknown |].
      intros v ->. apply IH. now apply without_unknown_set_unknown.
Qed.

(** The names that are not recognized add nothing to the merge. *)
Lemma merge_pure_without_unknown (r1 r2 : Dict.t records) :
  without_unknown r1 r2 ->
  forall ks m, merge_pure r1 ks m = merge_pure r2 (filter recognized ks) m.
Proof.
  intros [-> Hnone]. unfold merge_pure.
  induction ks as [| k ks IH]; intros m; cbn [fold_left filter]; [reflexivity |].
  destruct (recognized k) eqn:Hk; cbn [fold_left].
  - rewrite (get_filter recognized k r1 Hk). apply IH.
  - rewrite IH. f_equal.
    destruct (Dict.get k r1) as [v |] eqn:Hget; [| reflexivity].
    apply get_in in Hget. now rewrite (Hnone k v Hget Hk).
Qed.

Lemma sim_merge_node (r1 r2 : Dict.t records) :
  without_unknown r1 r2 ->
  sim eq (merge_node (OfDict r1)) (merge_node (OfDict r2)).
Proof.
  intros Hr w w' Hw. cbn [merge_node]. rewrite !merge_keys_run.
  split; [| now apply same_effects_printed].
  rewrite (merge_pure_without_unknown r1 r2 Hr).
  destruct Hr as [-> _]. now rewrite keys_filter.
Qed.

Lemma sim_sendStruct (env : Env) (a : address) (r1 r2 : Dict.t records)
    (c : bool) :
  without_unknown r1 r2 ->
  sim eq (sendStruct env a (OfDict r1) c) (sendStruct env a (OfDict r2) c).
Proof.
  intros Hr. unfold sendStruct.
  eapply sim_bind with (R := fun _ _ => True).
  { destruct (verbose env); [apply sim_print | now apply sim_ret]. }
  intros _ _ _. eapply sim_bind; [now apply sim_merge_node |].
  intros merged ? <-. apply sim_for_each. intros infos.
  eapply sim_bind; [apply sim_print |].
  intros _ _ _. apply sim_sendto.
Qed.

(** ** Splitting and joining *)

Section Split.
Variable sep : ascii.

Lemma split_not_nil (s : string) : Str.split sep s <> [].
Proof.
  induction s as [| c s IH]; cbn [Str.split]; [discriminate |].
  destruct (Ascii.eqb c sep); [discriminate |].
  destruct (Str.split sep s); [contradiction | discriminate].
Qed.

Lemma split_without_sep (p : string) :
  Str.contains sep p = false -> Str.split sep p = [p].
Proof.
  induction p as [| c p IH]; cbn [Str.contains Str.split]; [reflexivity |].
  intros H. apply orb_false_elim in H as [-> Hp]. now rewrite IH.
Qed.

Lemma split_app (p s : string) :
  Str.contains sep p = false ->
  Str.split sep (p ++ String sep s) = p :: Str.split sep s.
Proof.
  induction p as [| c p IH]; cbn [Str.contains Str.split String.append].
  - intros _. now rewrite Ascii.eqb_refl.
  - intros H. apply orb_false_elim in H as [-> Hp]. now rewrite IH.
Qed.

Lemma split_join (l : list string) :
  l <> [] ->
  Forall (fun t => Str.contains sep t = false) l ->
  Str.split sep (Str.join (String sep "") l) = l.
Proof.
  induction l as [| p l IH]; [contradiction |].
  intros _ Hall. inversion Hall as [| ? ? Hp Hl]; subst.
  destruct l as [| q l]; cbn [Str.join].
  - now apply split_without_sep.
  - cbn [String.append]. rewrite split_app by assumption.
    f_equal. apply IH; [discriminate | assumption].
Qed.

Lemma join_split (s : string) :
  Str.join (String sep "") (Str.split sep s) = s.
Proof.
  induction s as [| c s IH]; cbn [Str.split]; [reflexivity |].
  destruct (Ascii.eqb_spec c sep) as [-> | Hne].
  - pose proof (split_not_nil s) as Hnn.
    destruct (Str.split sep s) as [| q l]; [contradiction |].
    cbn [Str.join String.append] in *. now rewrite IH.
  - pose proof (split_not_nil s) as Hnn.
    destruct (Str.split sep s) as [| q l]; [contradiction |].
    rewrite <- IH. destruct l; reflexivity.
Qed.

Lemma split_pieces_without_sep (s : string) :
  Forall (fun t => Str.contains sep t = false) (Str.split sep s).
Proof.
  induction s as [| c s IH]; cbn [Str.split].
  - now constructor.
  - destruct (Ascii.eqb c sep) eqn:Ec; [now constructor |].
    destruct (Str.split sep s) as [| q l]; constructor.
    + cbn. now rewrite Ec.
    + constructor.
    + inversion IH; subst. cbn [Str.contains]. now rewrite Ec.
    + now inversion IH.
Qed.
End Split.

Lemma startswith_app (p s : string) :
  Str.startswith p s = true -> exists s', s = p ++ s'.
Proof.
  revert s. induction p as [| a p IH]; intros s; cbn [Str.startswith].
  - intros _. now exists s.
  - destruct s as [| b s]; [discriminate |].
    intros H. apply andb_true_iff in H as [Hab Hp].
    apply Ascii.eqb_eq in Hab as ->.
    destruct (IH s Hp) as [s' ->]. now exists s'.
Qed.

(** The first piece is GET exactly for the message GET and for the messages
    that begin with GET and a space. *)
Lemma first_token_GET (msg : string) :
  hd "" (Str.split " " msg) = "GET"
  <-> msg = "GET" \/ Str.startswith "GET " msg = true.
Proof.
  split.
  - intros Hhd. pose proof (join_split " " msg) as Hj.
    destruct (Str.split " " msg) as [| t [| q l]]; cbn [hd] in Hhd.
    + discriminate.
    + subst t. left. now rewrite <- Hj.
    + subst t. right. rewrite <- Hj. reflexivity.
  - intros [-> | H]; [reflexivity |].
    apply startswith_app in H as [s' ->].
    change ("GET " ++ s') with ("GET" ++ String " " s').
    now rewrite split_app.
Qed.

Lemma is_ascii_utf8_valid (s : string) :
  is_ascii s = true -> Str.utf8_valid s = true.
Proof.
  induction s as [| c s IH]; [reflexivity |].
  cbn [is_ascii Str.utf8_valid]. intros H.
  apply andb_true_iff in H as [-> Hs]. auto.
Qed.

Lemma is_ascii_app (s1 s2 : string) :
  is_ascii (s1 ++ s2) = is_ascii s1 && is_ascii s2.
Proof.
  induction s1 as [| c s1 IH]; [reflexivity |].
  cbn [String.append is_ascii]. now rewrite IH, andb_assoc.
Qed.

Lemma is_ascii_join (l : list string) :
  Forall (fun t => is_ascii t = true) l -> is_ascii (Str.join " " l) = true.
Proof.
  induction l as [| p l IH]; [reflexivity |].
  intros Hall. inversion Hall as [| ? ? Hp Hl]; subst.
  destruct l as [| q l]; [assumption |].
  change (Str.join " " (p :: q :: l)) with (p ++ " " ++ Str.join " " (q :: l)).
  rewrite !is_ascii_app, Hp, (IH Hl). reflexivity.
Qed.

Lemma recognized_tokens (l : list string) :
  Forall (fun t => is_ascii t = true) (filter recognized l)
  /\ Forall (fun t => Str.contains " " t = false) (filter recognized l).
Proof.
  induction l as [| t l [IH1 IH2]]; cbn [filter]; [split; constructor |].
  destruct (recognized t) eqn:Ht; [| now split].
  destruct (recognized_cases t Ht) as [-> | ->]; split; now constructor.
Qed.

(** ** Running one request *)

Lemma serve_one_invalid (env : Env) (msg : string) (a : address) (w : World) :
  Str.utf8_valid msg = false ->
  serve_one env msg a w = (Raise UnicodeDecodeError, w).
Proof. intros H. unfold serve_one, bind, decode. now rewrite H. Qed.

Lemma serve_one_multi (env : Env) (msg : string) (a : address) (w : World) :
  Str.utf8_valid msg = true ->
  hd "" (Str.split " " msg) = "GET" ->
  serve_one env msg a w
  = bind (build_all env (tl (Str.split " " msg)) [])
         (fun r => sendStruct env a (OfDict r) true) w.
Proof.
  intros Hv Hhd. unfold serve_one, decode. rewrite Hv.
  unfold bind at 1, ret. now rewrite Hhd.
Qed.

Lemma serve_one_single (env : Env) (msg : string) (a : address) (w : World) :
  Str.utf8_valid msg = true ->
  hd "" (Str.split " " msg) <> "GET" ->
  serve_one env msg a w
  = bind (buildStruct env (hd "" (Str.split " " msg)))
         (fun r => sendStruct env a (OfRecords r) false) w.
Proof.
  intros Hv Hhd. unfold serve_one, decode. rewrite Hv.
  unfold bind at 1, ret.
  now destruct (String.eqb_spec (hd "" (Str.split " " msg)) "GET").
Qed.

(** [sendStruct] on the bare return value of [buildStruct] fails in
    [merge_node] before anything is sent. *)
Lemma sendStruct_of_records (env : Env) (a : address) (r : records)
    (c : bool) (w : World) :
  exists w',
    sendStruct env a (OfRecords r) c w = (Raise AttributeError, w')
    /\ sent w' = sent w /\ fetches w' = fetches w.
Proof.
  unfold sendStruct, bind. destruct (verbose env); cbn; eauto.
Qed.

(** A single request never gets a reply: it ends in an exception, the one of
    the data source or the [AttributeError] of [merge_node]. *)
Lemma single_request_raises (env : Env) (msg : string) (a : address)
    (w : World) :
  Str.utf8_valid msg = true ->
  hd "" (Str.split " " msg) <> "GET" ->
  exists e w', serve_one env msg a w = (Raise e, w') /\ sent w' = sent w.
Proof.
  intros Hv Hhd. rewrite serve_one_single by assumption.
  unfold bind.
  pose proof (keeps_sent_buildStruct env (hd "" (Str.split " " msg)) w) as Hk.
  destruct (buildStruct env (hd "" (Str.split " " msg)) w) as [[r | e] w1];
    cbn [snd] in Hk.
  - destruct (sendStruct_of_records env a r false w1) as (w' & -> & Hs & _).
    exists AttributeError, w'. split; [reflexivity | congruence].
  - exists e, w1. auto.
Qed.

Lemma sim_eq_run {A : Type} (c1 c2 : M A) (w : World) :
  sim eq c1 c2 ->
  fst (c1 w) = fst (c2 w)
  /\ sent (snd (c1 w)) = sent (snd (c2 w))
  /\ fetches (snd (c1 w)) = fetches (snd (c2 w)).
Proof.
  intros H. specialize (H w w (same_effects_refl w)).
  destruct (c1 w) as [[a1 | e1] w1], (c2 w) as [[a2 | e2] w2];
    try contradiction; destruct H as [-> [Hf Hs]]; cbn; auto.
Qed.

Lemma without_unknown_nil : without_unknown [] [].
Proof. split; [reflexivity | intros k v []]. Qed.

Lemma sim_multi_request (env : Env) (a : address) (ks : list string) :
  sim eq
    (bind (build_all env ks []) (fun r => sendStruct env a (OfDict r) true))
    (bind (build_all env (filter recognized ks) [])
          (fun r => sendStruct env a (OfDict r) true)).
Proof.
  eapply sim_bind; [apply sim_build_all, without_unknown_nil |].
  intros r1 r2 Hr. now apply sim_sendStruct.
Qed.

(** A multi-request with unknown names has the result, the data-source
    calls and the reply datagrams of the same request without those names. *)
Lemma multi_request_known_only (env : Env) (msg : string) (a : address)
    (w : World) :
  Str.utf8_valid msg = true ->
  hd "" (Str.split " " msg) = "GET" ->
  let known :=
    Str.join " " ("GET" :: filter recognized (tl (Str.split " " msg))) in
  fst (serve_one env msg a w) = fst (serve_one env known a w)
  /\ sent (snd (serve_one env msg a w)) = sent (snd (serve_one env known a w))
  /\ fetches (snd (serve_one env msg a w))
     = fetches (snd (serve_one env known a w)).
Proof.
  intros Hv Hhd known.
  destruct (recognized_tokens (tl (Str.split " " msg))) as [Hascii Hnosp].
  assert (Hsplit : Str.split " " known
                   = "GET" :: filter recognized (tl (Str.split " " msg))).
  { apply split_join; [discriminate | now constructor]. }
  assert (Hvk : Str.utf8_valid known = true).
  { apply is_ascii_utf8_valid, is_ascii_join. now constructor. }
  apply sim_eq_run. intros w1 w2 Hw.
  rewrite (serve_one_multi env msg a w1 Hv Hhd).
  rewrite (serve_one_multi env known a w2 Hvk) by now rewrite Hsplit.
  rewrite Hsplit. cbn [tl]. now apply sim_multi_request.
Qed.

(** ** Calls of the data source *)

(** C10: every recognized kind costs one call of the data source, an
    unknown one none; for the request GET nodeinfo statistics the nodeinfo
    list is built from one call and the statistics list from the next,
    two calls in all, whose inventories need not be the same. *)
Theorem each_kind_fetches_once (env : Env) :
  (forall t w,
      fetches (snd (buildStruct env t w))
      = (fetches w + if recognized t then 1 else 0)%nat)
  /\ (forall a w aps1 aps2 sl,
        get_infos env (fetches w) = Ok aps1 ->
        get_infos env (S (fetches w)) = Ok aps2 ->
        statistics_list (Accesspoints.accesspoints aps2) = Ok sl ->
        build_all env ["nodeinfo"; "statistics"] [] w
        = (Ok [ ("nodeinfo",
                  Some (map OfNodeInfo
                          (map nodeinfo_of (Accesspoints.accesspoints aps1))));
                ("statistics", Some (map OfStatisticsInfo sl)) ],
           fetched (fetched w))
        /\ fetches (snd (serve_one env "GET nodeinfo statistics" a w))
           = S (S (fetches w))).
Proof.
  split.
  - intros t w. destruct (recognized t) eqn:Ht.
    + destruct (recognized_cases t Ht) as [-> | ->];
        [rewrite buildStruct_statistics | rewrite buildStruct_nodeinfo];
        cbn; lia.
    + rewrite buildStruct_unknown by assumption. cbn. lia.
  - intros a w aps1 aps2 sl H1 H2 H3.
    assert (Hbuild :
      build_all env ["nodeinfo"; "statistics"] [] w
      = (Ok [ ("nodeinfo",
                Some (map OfNodeInfo
                        (map nodeinfo_of (Accesspoints.accesspoints aps1))));
              ("statistics", Some (map OfStatisticsInfo sl)) ],
         fetched (fetched w))).
    { cbn [build_all]. unfold bind.
      rewrite buildStruct_nodeinfo, H1, buildStruct_statistics.
      cbn [fetched fetches]. rewrite H2, H3. reflexivity. }
    split; [exact Hbuild |].
    rewrite serve_one_multi by reflexivity.
    change (tl (Str.split " " "GET nodeinfo statistics"))
      with ["nodeinfo"; "statistics"].
    unfold bind. rewrite Hbuild.
    now rewrite keeps_fetches_sendStruct.
Qed.

Lemma each_kind_fetches_once_witness :
  fst (build_all Sample.changing ["nodeinfo"; "statistics"] [] initial)
  = Ok [ ("nodeinfo", Some [OfNodeInfo (nodeinfo_of Sample.gw1)]);
         ("statistics",
           Some (map OfStatisticsInfo
                   [StatisticsInfo.mk (ClientInfo.mk 5 5) 3600 "112233445566"
                      Sample.zero (MemoryInfo.mk 131072 130048 0)])) ]
  /\ fetches (snd (serve_one Sample.changing "GET nodeinfo statistics"
                     Sample.requester initial)) = 2%nat.
Proof.
  destruct (each_kind_fetches_once Sample.changing) as [_ H].
  destruct (H Sample.requester initial
              (Accesspoints.mk [Sample.gw1]) (Accesspoints.mk [Sample.gw2])
              [StatisticsInfo.mk (ClientInfo.mk 5 5) 3600 "112233445566"
                 Sample.zero (MemoryInfo.mk 131072 130048 0)]
              eq_refl eq_refl eq_refl) as [Hbuild Hfetches].
  split; [now rewrite Hbuild | exact Hfetches].
Defined.

(** ** Request parsing *)

(** C8, as the specification states it, fails: a tab is whitespace but not
    a separator of the program.  GET<tab>nodeinfo splits on whitespace into
    GET and nodeinfo, a multi-request; the program sees one token that is not
    GET, takes it for the name of a single request, and sends nothing, where
    GET nodeinfo gets a reply. *)
Lemma tab_does_not_separate :
  Spec.tokens Sample.tab_request = ["GET"; "nodeinfo"]
  /\ Str.split " " Sample.tab_request = [Sample.tab_request]
  /\ hd "" (Str.split " " Sample.tab_request) <> "GET"
  /\ sent (snd (serve_one (Sample.steady [Sample.gw1]) Sample.tab_request
                  Sample.requester initial)) = []
  /\ List.length
       (sent (snd (serve_one (Sample.steady [Sample.gw1]) "GET nodeinfo"
                     Sample.requester initial))) = 1%nat.
Proof.
  split; [reflexivity |]. split; [reflexivity |].
  split; [vm_compute; discriminate |].
  split; vm_compute; reflexivity.
Qed.

(** C8 (amended): a payload that is not valid UTF-8 raises
    [UnicodeDecodeError].  A payload that is valid UTF-8 is cut at every
    single space character, and at nothing else, into pieces that may be
    empty; if and only if the first piece is the literal GET (the payload is
    GET or begins with GET and a space), all later pieces are the requested
    names of a multi-request; otherwise the first piece is the name of a
    single request and later pieces are not looked at. *)
Theorem request_parsing (env : Env) (msg : string) (a : address) (w : World) :
  (Str.utf8_valid msg = false ->
   serve_one env msg a w = (Raise UnicodeDecodeError, w))
  /\ (Str.utf8_valid msg = true ->
      Str.join " " (Str.split " " msg) = msg
      /\ Forall (fun t => Str.contains " " t = false) (Str.split " " msg)
      /\ (hd "" (Str.split " " msg) = "GET"
          <-> msg = "GET" \/ Str.startswith "GET " msg = true)
      /\ (hd "" (Str.split " " msg) = "GET" ->
          serve_one env msg a w
          = bind (build_all env (tl (Str.split " " msg)) [])
                 (fun r => sendStruct env a (OfDict r) true) w)
      /\ (hd "" (Str.split " " msg) <> "GET" ->
          serve_one env msg a w
          = bind (buildStruct env (hd "" (Str.split " " msg)))
                 (fun r => sendStruct env a (OfRecords r) false) w)).
Proof.
  split; [apply serve_one_invalid |].
  intros Hv.
  split; [apply join_split |].
  split; [apply split_pieces_without_sep |].
  split; [apply first_token_GET |].
  split; intros Hhd; [now apply serve_one_multi | now apply serve_one_single].
Qed.

Lemma request_parsing_witness :
  serve_one (Sample.steady [Sample.gw1]) Sample.not_utf8 Sample.requester
    initial
  = (Raise UnicodeDecodeError, initial)
  /\ Str.split " " "GET nodeinfo  statistics"
     = ["GET"; "nodeinfo"; ""; "statistics"]
  /\ serve_one (Sample.steady [Sample.gw1]) "GET nodeinfo  statistics"
       Sample.requester initial
     = bind (build_all (Sample.steady [Sample.gw1])
               ["nodeinfo"; ""; "statistics"] [])
            (fun r => sendStruct (Sample.steady [Sample.gw1])
                        Sample.requester (OfDict r) true) initial
  /\ serve_one (Sample.steady [Sample.gw1]) "nodeinfo statistics"
       Sample.requester initial
     = bind (buildStruct (Sample.steady [Sample.gw1]) "nodeinfo")
            (fun r => sendStruct (Sample.steady [Sample.gw1])
                        Sample.requester (OfRecords r) false) initial.
Proof.
  split; [| split; [reflexivity | split]].
  - destruct (request_parsing (Sample.steady [Sample.gw1])
                Sample.not_utf8 Sample.requester initial) as [Hbad _].
    exact (Hbad eq_refl).
  - destruct (request_parsing (Sample.steady [Sample.gw1])
                "GET nodeinfo  statistics" Sample.requester initial)
      as [_ Hgood].
    destruct (Hgood eq_refl) as (_ & _ & _ & Hmulti & _).
    exact (Hmulti eq_refl).
  - destruct (request_parsing (Sample.steady [Sample.gw1])
                "nodeinfo statistics" Sample.requester initial)
      as [_ Hgood].
    destruct (Hgood eq_refl) as (_ & _ & _ & _ & Hsingle).
    apply Hsingle. discriminate.
Defined.

(** ** Single requests *)

(** C1: the single request nodeinfo against one access point is not
    answered.  [start] hands the list that [buildStruct] returns to
    [sendStruct], and [merge_node] calls [keys] on it: the request ends in an
    [AttributeError] after the call of the data source, with no datagram
    sent, and the exception ends the serving loop. *)
Theorem single_request_is_not_answered :
  start (Sample.steady [Sample.gw1]) [("nodeinfo", Sample.requester)]
  = Crashed AttributeError (mk_world 1 [] [])
  /\ forall env a w,
       exists e w',
         serve_one env "nodeinfo" a w = (Raise e, w') /\ sent w' = sent w.
Proof.
  split; [vm_compute; reflexivity |].
  intros env a w. apply single_request_raises; [reflexivity | discriminate].
Qed.

(** ** Wire encoder *)

Lemma keeps_of_sent {A X : Type} (g : list datagram -> X) (c : M A) :
  keeps sent c -> keeps (fun w => g (sent w)) c.
Proof. intros H w. now rewrite H. Qed.

Lemma keeps_sent_merge_node (r : responseStruct) : keeps sent (merge_node r).
Proof.
  destruct r as [d | r]; cbn [merge_node]; [| apply keeps_raise].
  intros w. now rewrite merge_keys_run.
Qed.

Lemma keeps_deflated_sendto (env : Env) (node : json) (a : address) :
  keeps (fun w => forallb is_deflated (sent w))
        (sendto env (Deflate (Json node)) a).
Proof.
  intros w. unfold sendto.
  destruct (sendto_error env (List.length (sent w))); [reflexivity |].
  cbn [snd sent]. rewrite forallb_app. cbn. now rewrite !andb_true_r.
Qed.

Lemma keeps_deflated_sendStruct (env : Env) (a : address) (d : Dict.t records) :
  keeps (fun w => forallb is_deflated (sent w))
        (sendStruct env a (OfDict d) true).
Proof.
  unfold sendStruct. apply keeps_bind.
  { apply keeps_of_sent.
    destruct (verbose env); [apply keeps_sent_print | apply keeps_ret]. }
  intros _. apply keeps_bind.
  { apply keeps_of_sent, keeps_sent_merge_node. }
  intros merged. apply keeps_for_each. intros infos.
  apply keeps_bind; [apply keeps_of_sent, keeps_sent_print |].
  intros _. apply keeps_deflated_sendto.
Qed.

Lemma keeps_deflated_serve_one (env : Env) (msg : string) (a : address) :
  keeps (fun w => forallb is_deflated (sent w)) (serve_one env msg a).
Proof.
  intros w. destruct (Str.utf8_valid msg) eqn:Hv.
  - destruct (String.eqb_spec (hd "" (Str.split " " msg)) "GET") as [Hhd | Hhd].
    + rewrite serve_one_multi by assumption.
      apply (keeps_bind (fun w0 => forallb is_deflated (sent w0))).
      * apply keeps_of_sent, keeps_sent_build_all.
      * intros r. apply keeps_deflated_sendStruct.
    + destruct (single_request_raises env msg a w Hv Hhd) as (e & w' & -> & Hs).
      cbn [snd]. now rewrite Hs.
  - now rewrite serve_one_invalid.
Qed.

Lemma keeps_deflated_serve (env : Env) (inbound : list (string * address)) :
  forall w,
    forallb is_deflated (sent (world_of (serve env inbound w)))
    = forallb is_deflated (sent w).
Proof.
  induction inbound as [| [msg a] inbound IH]; intros w; cbn [serve];
    [reflexivity |].
  unfold recvfrom; cbn [fst snd].
  pose proof (keeps_deflated_serve_one env (Str.take 2048 msg) a w) as Hk.
  destruct (serve_one env (Str.take 2048 msg) a w) as [[[] | e] w1];
    cbn [snd world_of] in *.
  - now rewrite IH.
  - exact Hk.
Qed.

(** C7: no reply is ever sent uncompressed.  Whatever arrives, every
    datagram that the responder has sent carries a raw deflate stream of a
    JSON document; a single request, here statistics against two access
    points, is not answered with the plain JSON but ends in the
    [AttributeError] of [merge_node], with no datagram sent. *)
Theorem every_reply_is_deflated :
  (forall env inbound,
      forallb is_deflated (sent (world_of (start env inbound))) = true)
  /\ start (Sample.steady [Sample.gw1; Sample.gw2])
       [("statistics", Sample.requester)]
     = Crashed AttributeError (mk_world 1 [] []).
Proof.
  split; [| vm_compute; reflexivity].
  intros env inbound. unfold start.
  destruct (startup_error env); [reflexivity |].
  now rewrite keeps_deflated_serve.
Qed.

(** For a multi-request on a network without send errors, the datagrams are
    the deflated JSON documents of the composites, in the order of the
    merge result. *)
Lemma for_each_reply_run (env : Env) (a : address) (c : bool) :
  (forall n, sendto_error env n = None) ->
  forall vs w,
    for_each vs (fun infos =>
      bind (print (PrintBytes (Json (JObject (node_of infos)))))
           (fun _ => sendto env
                       (if c then Deflate (Json (JObject (node_of infos)))
                        else Json (JObject (node_of infos))) a)) w
    = (Ok tt,
       mk_world (fetches w) (sent w ++ map (reply a c) vs)
         (stdout w
          ++ map (fun infos => PrintBytes (Json (JObject (node_of infos)))) vs)).
Proof.
  intros Hok. induction vs as [| infos vs IH]; intros w; cbn [for_each map].
  - unfold ret. rewrite !app_nil_r. now destruct w.
  - unfold bind at 1 2. unfold print at 1. unfold sendto at 1.
    cbn [sent fetches stdout]. rewrite Hok, IH. cbn [sent fetches stdout].
    unfold reply at 2. now rewrite <- !app_assoc.
Qed.

Lemma multi_request_replies (env : Env) (a : address) (d : Dict.t records)
    (w : World) :
  (forall n, sendto_error env n = None) ->
  fst (sendStruct env a (OfDict d) true w) = Ok tt
  /\ sent (snd (sendStruct env a (OfDict d) true w))
     = (sent w ++ map (reply a true)
                      (Dict.values (merge_pure d (Dict.keys d) [])))%list.
Proof.
  intros Hok. unfold sendStruct, bind.
  destruct (verbose env); cbn [print ret]; cbn [merge_node];
    rewrite merge_keys_run;
    rewrite (for_each_reply_run env a true Hok); split; reflexivity.
Qed.

(** ** Serving loop *)

Lemma build_all_fetch_error (env : Env) (e : exn) (ks : list string) :
  forall r w,
    existsb recognized ks = true ->
    get_infos env (fetches w) = Raise e ->
    exists w', build_all env ks r w = (Raise e, w') /\ sent w' = sent w.
Proof.
  induction ks as [| k ks IH]; intros r w Hex Hget; [discriminate |].
  cbn [build_all]. unfold bind. destruct (recognized k) eqn:Hk.
  - destruct (recognized_cases k Hk) as [-> | ->];
      [rewrite buildStruct_statistics | rewrite buildStruct_nodeinfo];
      rewrite Hget; eexists; split; reflexivity.
  - rewrite buildStruct_unknown by assumption.
    cbn [existsb] in Hex. rewrite Hk in Hex.
    apply (IH _ (printed _ w) Hex Hget).
Qed.

Lemma sendStruct_send_error (env : Env) (a : address) (d : Dict.t records)
    (w : World) (e : exn) (infos : Dict.t info) (others : list (Dict.t info)) :
  Dict.values (merge_pure d (Dict.keys d) []) = infos :: others ->
  sendto_error env (List.length (sent w)) = Some e ->
  exists w',
    sendStruct env a (OfDict d) true w = (Raise e, w') /\ sent w' = sent w.
Proof.
  intros Hvals Herr. unfold sendStruct, bind.
  destruct (verbose env); cbn [print ret merge_node];
    rewrite merge_keys_run, Hvals; cbn [for_each];
    unfold bind, print, sendto, printed; cbn [sent fetches stdout];
    rewrite Herr; eexists; split; reflexivity.
Qed.

Lemma multi_request_unknown_only (env : Env) (a : address) (ks : list string)
    (w : World) :
  filter recognized ks = [] ->
  exists w',
    bind (build_all env ks []) (fun r => sendStruct env a (OfDict r) true) w
    = (Ok tt, w')
    /\ sent w' = sent w /\ fetches w' = fetches w.
Proof.
  intros Hnone.
  destruct (sim_eq_run _ _ w (sim_multi_request env a ks)) as (Hr & Hs & Hf).
  rewrite Hnone in Hr, Hs, Hf.
  assert (Hrun : exists w2,
             bind (build_all env [] [])
                  (fun r => sendStruct env a (OfDict r) true) w = (Ok tt, w2)
             /\ sent w2 = sent w /\ fetches w2 = fetches w).
  { unfold bind, sendStruct, bind. cbn [build_all ret].
    destruct (verbose env); cbn; unfold ret; eexists; repeat split. }
  destruct Hrun as (w2 & Hrun & Hs2 & Hf2).
  rewrite Hrun in Hr, Hs, Hf. cbn [fst snd] in Hr, Hs, Hf.
  destruct (bind (build_all env ks [])
              (fun r => sendStruct env a (OfDict r) true) w) as [res w'].
  cbn [fst snd] in Hr, Hs, Hf. subst res.
  exists w'. split; [reflexivity | split; congruence].
Qed.

(** C3, as the specification states it, fails: the loop has no exception
    handler.  A datagram that is not UTF-8 ends the loop, and the request
    behind it, which would get a reply, is not served; so does an error of
    the data source. *)
Lemma request_error_ends_service :
  startup_error (Sample.steady [Sample.gw1]) = None
  /\ start (Sample.steady [Sample.gw1])
       [(Sample.not_utf8, Sample.requester); ("GET nodeinfo", Sample.requester)]
     = Crashed UnicodeDecodeError initial
  /\ (exists w,
        start (Sample.steady [Sample.gw1]) [("GET nodeinfo", Sample.requester)]
        = Waiting w
        /\ List.length (sent w) = 1%nat)
  /\ start Sample.failing
       [("GET nodeinfo", Sample.requester); ("GET nodeinfo", Sample.requester)]
     = Crashed (AdapterError 1) (mk_world 1 [] []).
Proof.
  split; [reflexivity |].
  split; [vm_compute; reflexivity |].
  split; [| vm_compute; reflexivity].
  eexists. split; vm_compute; reflexivity.
Qed.

(** C3 (amended): the serving loop isolates no failure.  An exception
    raised while one datagram is handled leaves the loop, and the datagrams
    behind it are not served: so for a payload that is not UTF-8, for an
    error of the data source during the fetch for a recognized kind, and for
    a send error.  A multi-request that names unknown kinds only raises
    nothing, sends nothing, and the loop goes on to the next datagram.  A
    start-up failure stops the process before any datagram is served. *)
Theorem request_errors_end_the_loop (env : Env) (msg : string) (a : address)
    (rest : list (string * address)) (w : World) :
  let text := Str.take 2048 msg in
  let requests := tl (Str.split " " text) in
  (forall e w',
      serve_one env text a w = (Raise e, w') ->
      serve env ((msg, a) :: rest) w = Crashed e w')
  /\ (Str.utf8_valid text = false ->
      serve env ((msg, a) :: rest) w = Crashed UnicodeDecodeError w)
  /\ (forall e,
        Str.utf8_valid text = true ->
        hd "" (Str.split " " text) = "GET" ->
        existsb recognized requests = true ->
        get_infos env (fetches w) = Raise e ->
        exists w',
          serve env ((msg, a) :: rest) w = Crashed e w' /\ sent w' = sent w)
  /\ (forall e r w1 infos others,
        Str.utf8_valid text = true ->
        hd "" (Str.split " " text) = "GET" ->
        build_all env requests [] w = (Ok r, w1) ->
        Dict.values (merge_pure r (Dict.keys r) []) = infos :: others ->
        sendto_error env (List.length (sent w)) = Some e ->
        exists w',
          serve env ((msg, a) :: rest) w = Crashed e w' /\ sent w' = sent w)
  /\ (Str.utf8_valid text = true ->
      hd "" (Str.split " " text) = "GET" ->
      filter recognized requests = [] ->
      exists w',
        serve env ((msg, a) :: rest) w = serve env rest w'
        /\ sent w' = sent w /\ fetches w' = fetches w)
  /\ (forall e inbound,
        startup_error env = Some e -> start env inbound = Crashed e initial).
Proof.
  intros text requests.
  assert (Hstep : forall e w',
             serve_one env text a w = (Raise e, w') ->
             serve env ((msg, a) :: rest) w = Crashed e w').
  { intros e w' H. cbn [serve]. unfold recvfrom; cbn [fst snd].
    fold text. now rewrite H. }
  split; [exact Hstep |].
  split; [| split; [| split; [| split]]].
  - intros Hv. apply Hstep. now apply serve_one_invalid.
  - intros e Hv Hhd Hex Hget.
    destruct (build_all_fetch_error env e requests [] w Hex Hget)
      as (w' & Hb & Hs).
    exists w'. split; [| exact Hs]. apply Hstep.
    rewrite serve_one_multi by assumption. fold requests.
    unfold bind. now rewrite Hb.
  - intros e r w1 infos others Hv Hhd Hb Hvals Herr.
    pose proof (keeps_sent_build_all env requests [] w) as Hk.
    rewrite Hb in Hk. cbn [snd] in Hk.
    rewrite <- Hk in Herr.
    destruct (sendStruct_send_error env a r w1 e infos others Hvals Herr)
      as (w' & Hsend & Hs).
    exists w'. split; [| congruence]. apply Hstep.
    rewrite serve_one_multi by assumption. fold requests.
    unfold bind. now rewrite Hb.
  - intros Hv Hhd Hnone.
    destruct (multi_request_unknown_only env a requests w Hnone)
      as (w' & Hrun & Hs & Hf).
    exists w'. split; [| split; assumption].
    cbn [serve]. unfold recvfrom; cbn [fst snd]. fold text.
    rewrite serve_one_multi by assumption. fold requests. now rewrite Hrun.
  - intros e inbound He. unfold start. now rewrite He.
Qed.

Lemma request_errors_end_the_loop_witness :
  serve (Sample.steady [Sample.gw1])
    [(Sample.not_utf8, Sample.requester); ("GET nodeinfo", Sample.requester)]
    initial
  = Crashed UnicodeDecodeError initial
  /\ (exists w',
        serve Sample.failing
          [("GET nodeinfo", Sample.requester); ("GET nodeinfo", Sample.requester)]
          initial
        = Crashed (AdapterError 1) w' /\ sent w' = [])
  /\ (exists w',
        serve (Sample.unreachable [Sample.gw1])
          [("GET nodeinfo", Sample.requester); ("GET nodeinfo", Sample.requester)]
          initial
        = Crashed OSError w' /\ sent w' = [])
  /\ (exists w',
        serve (Sample.steady [Sample.gw1])
          [("GET bogus", Sample.requester); ("GET nodeinfo", Sample.requester)]
          initial
        = serve (Sample.steady [Sample.gw1])
            [("GET nodeinfo", Sample.requester)] w'
        /\ sent w' = [] /\ fetches w' = 0%nat)
  /\ start Sample.no_interface [("GET nodeinfo", Sample.requester)]
     = Crashed OSError initial.
Proof.
  split; [| split; [| split; [| split]]].
  - destruct (request_errors_end_the_loop (Sample.steady [Sample.gw1])
                Sample.not_utf8 Sample.requester
                [("GET nodeinfo", Sample.requester)] initial)
      as (_ & Hbad & _).
    exact (Hbad eq_refl).
  - destruct (request_errors_end_the_loop Sample.failing
                "GET nodeinfo" Sample.requester
                [("GET nodeinfo", Sample.requester)] initial)
      as (_ & _ & Hfetch & _).
    exact (Hfetch (AdapterError 1) eq_refl eq_refl eq_refl eq_refl).
  - destruct (request_errors_end_the_loop (Sample.unreachable [Sample.gw1])
                "GET nodeinfo" Sample.requester
                [("GET nodeinfo", Sample.requester)] initial)
      as (_ & _ & _ & Hsend & _).
    exact (Hsend OSError
             [("nodeinfo", Some [OfNodeInfo (nodeinfo_of Sample.gw1)])]
             (fetched initial)
             [("nodeinfo", OfNodeInfo (nodeinfo_of Sample.gw1))] []
             eq_refl eq_refl eq_refl eq_refl eq_refl).
  - destruct (request_errors_end_the_loop (Sample.steady [Sample.gw1])
                "GET bogus" Sample.requester
                [("GET nodeinfo", Sample.requester)] initial)
      as (_ & _ & _ & _ & Hunknown & _).
    exact (Hunknown eq_refl eq_refl eq_refl).
  - destruct (request_errors_end_the_loop Sample.no_interface
                "GET nodeinfo" Sample.requester [] initial)
      as (_ & _ & _ & _ & _ & Hstart).
    exact (Hstart OSError [("GET nodeinfo", Sample.requester)] eq_refl).
Defined.

(** * Further properties of the program *)

Local Open Scope list_scope.

(** ** The record mapper, list by list *)

Lemma statistics_list_ok (aps : list Accesspoint.t) (l : list StatisticsInfo.t) :
  statistics_list aps = Ok l
  <-> Forall2 (fun ap s => statistics_of ap = Ok s) aps l.
Proof.
  revert l. induction aps as [| ap aps IH]; intros l; cbn [statistics_list].
  - split.
    + intros [= <-]. constructor.
    + intros H. inversion H. reflexivity.
  - split.
    + destruct (statistics_of ap) as [s | e] eqn:Hs; [| discriminate].
      destruct (statistics_list aps) as [l' | e] eqn:Hl; [| discriminate].
      intros [= <-]. constructor; [exact Hs | now apply IH].
    + intros H. inversion H as [| ? s ? l' Hs Hl]; subst.
      rewrite Hs. apply IH in Hl. now rewrite Hl.
Qed.

Lemma statistics_list_raise (aps : list Accesspoint.t) (e : exn) :
  statistics_list aps = Raise e
  <-> exists before ap after,
        aps = (before ++ ap :: after)%list
        /\ Forall (fun a => exists s, statistics_of a = Ok s) before
        /\ statistics_of ap = Raise e.
Proof.
  induction aps as [| ap aps IH]; cbn [statistics_list].
  - split; [discriminate |].
    intros (before & a & after & H & _). now destruct before.
  - split.
    + destruct (statistics_of ap) as [s | e'] eqn:Hs.
      * destruct (statistics_list aps) as [l | e'] eqn:Hl; [discriminate |].
        intros [= ->]. destruct (proj1 IH eq_refl) as (b & a & c & -> & Hb & Ha).
        exists (ap :: b), a, c. repeat split; [| assumption].
        constructor; eauto.
      * intros [= ->]. exists [], ap, aps. repeat split; [constructor | assumption].
    + intros (before & a & after & Heq & Hb & Ha).
      destruct before as [| b before]; cbn in Heq; injection Heq as -> ->.
      * now rewrite Ha.
      * inversion Hb as [| ? ? [s Hs] Hb']; subst. rewrite Hs.
        assert (Hl : statistics_list (before ++ a :: after) = Raise e).
        { apply IH. eauto 6. }
        now rewrite Hl.
Qed.

(** X1: [getNodeInfos] calls the data source once and sends nothing; an
    exception of the data source comes out unchanged; otherwise the result
    has one NodeInfo for every access point of the inventory, in the order of
    the inventory, with the fields of that access point. *)
Theorem getNodeInfos_one_per_accesspoint (env : Env) (w : World) :
  snd (getNodeInfos env w) = fetched w
  /\ (forall e,
        get_infos env (fetches w) = Raise e ->
        fst (getNodeInfos env w) = Raise e)
  /\ (forall aps,
        get_infos env (fetches w) = Ok aps ->
        exists l,
          fst (getNodeInfos env w) = Ok l
          /\ List.length l = List.length (Accesspoints.accesspoints aps)
          /\ Forall2
               (fun ap n =>
                  NodeInfo.hostname n = Accesspoint.name ap
                  /\ NodeInfo.node_id n = Str.remove_char ":" (Accesspoint.mac ap)
                  /\ FirmwareInfo.base (NodeInfo.firmware n)
                     = Accesspoint.firmware ap
                  /\ LocationInfo.latitude (NodeInfo.location n)
                     = Accesspoint.latitude ap
                  /\ LocationInfo.longitude (NodeInfo.location n)
                     = Accesspoint.longitude ap
                  /\ HardwareInfo.model (NodeInfo.hardware n)
                     = Accesspoint.model ap
                  /\ OwnerInfo.contact (NodeInfo.owner n)
                     = Accesspoint.contact ap)
               (Accesspoints.accesspoints aps) l).
Proof.
  rewrite getNodeInfos_run. cbn [fst snd].
  split; [reflexivity |]. split.
  - intros e ->. reflexivity.
  - intros aps ->. eexists. split; [reflexivity |].
    split; [apply length_map |].
    induction (Accesspoints.accesspoints aps) as [| ap l IH]; cbn [map];
      constructor; [| exact IH].
    repeat split.
    exact (replace_char_by_empty ":" (Accesspoint.mac ap)).
Qed.

Lemma getNodeInfos_one_per_accesspoint_witness :
  fst (getNodeInfos Sample.failing initial) = Raise (AdapterError 1)
  /\ exists l,
       fst (getNodeInfos (Sample.steady [Sample.gw1; Sample.gw2]) initial) = Ok l
       /\ List.length l = 2%nat.
Proof.
  split.
  - destruct (getNodeInfos_one_per_accesspoint Sample.failing initial)
      as (_ & Hraise & _).
    exact (Hraise (AdapterError 1) eq_refl).
  - destruct (getNodeInfos_one_per_accesspoint
                (Sample.steady [Sample.gw1; Sample.gw2]) initial)
      as (_ & _ & Hok).
    destruct (Hok (Accesspoints.mk [Sample.gw1; Sample.gw2]) eq_refl)
      as (l & Hl & Hlen & _).
    exists l. split; assumption.
Defined.

(** X2: [getStatistics] is all or nothing.  It returns a list exactly when
    the StatisticsInfo of every access point can be built, and the list then
    has one entry per access point, in order; when one cannot, the call
    raises the exception of the first such access point and no partial list
    comes out. *)
Theorem getStatistics_all_or_nothing (env : Env) (w : World)
    (aps : Accesspoints.t) :
  get_infos env (fetches w) = Ok aps ->
  snd (getStatistics env w) = fetched w
  /\ (forall l,
        fst (getStatistics env w) = Ok l
        <-> Forall2 (fun ap s => statistics_of ap = Ok s)
                    (Accesspoints.accesspoints aps) l)
  /\ (forall e,
        fst (getStatistics env w) = Raise e
        <-> exists before ap after,
              Accesspoints.accesspoints aps = (before ++ ap :: after)%list
              /\ Forall (fun a => exists s, statistics_of a = Ok s) before
              /\ statistics_of ap = Raise e).
Proof.
  intros Hget. rewrite getStatistics_run, Hget. cbn [fst snd].
  split; [reflexivity |]. split.
  - intros l. apply statistics_list_ok.
  - intros e. apply statistics_list_raise.
Qed.

Lemma getStatistics_all_or_nothing_witness :
  fst (getStatistics (Sample.steady [Sample.gw1; Sample.huge; Sample.gw2])
         initial)
  = Ok [ Examples.stat1;
         StatisticsInfo.mk (ClientInfo.mk 0 0) 0 "020000000001" Sample.zero
           (MemoryInfo.mk 8796093022209 8796093022209 0);
         StatisticsInfo.mk (ClientInfo.mk 5 5) 3600 "112233445566" Sample.zero
           (MemoryInfo.mk 131072 130048 0) ].
Proof.
  destruct (getStatistics_all_or_nothing
              (Sample.steady [Sample.gw1; Sample.huge; Sample.gw2]) initial
              (Accesspoints.mk [Sample.gw1; Sample.huge; Sample.gw2]) eq_refl)
    as (_ & Hok & _).
  apply Hok. repeat constructor.
Defined.

Lemma statistics_of_fields (ap : Accesspoint.t) (s : StatisticsInfo.t) :
  statistics_of ap = Ok s ->
  ClientInfo.total (StatisticsInfo.clients s) = Accesspoint.client_count ap
  /\ ClientInfo.wifi (StatisticsInfo.clients s) = Accesspoint.client_count ap
  /\ StatisticsInfo.uptime s = Accesspoint.uptime ap
  /\ StatisticsInfo.loadavg s = Accesspoint.load_avg ap.
Proof.
  unfold statistics_of.
  destruct (kib (Accesspoint.mem_total ap)); [| discriminate].
  destruct (kib (Accesspoint.mem_total ap - Accesspoint.mem_used ap));
    [| discriminate].
  destruct (kib (Accesspoint.mem_buffer ap)); [| discriminate].
  intros [= <-]. repeat split.
Qed.

(** X3: in every StatisticsInfo that [getStatistics] returns, the wifi
    client count equals the total client count, both being the client_count
    of the access point, and uptime and load average are those of the access
    point. *)
Theorem statistics_wifi_equals_total (env : Env) (w w' : World)
    (l : list StatisticsInfo.t) :
  getStatistics env w = (Ok l, w') ->
  Forall (fun s => ClientInfo.wifi (StatisticsInfo.clients s)
                   = ClientInfo.total (StatisticsInfo.clients s)) l
  /\ exists aps,
       get_infos env (fetches w) = Ok aps
       /\ Forall2
            (fun ap s =>
               ClientInfo.total (StatisticsInfo.clients s)
               = Accesspoint.client_count ap
               /\ StatisticsInfo.uptime s = Accesspoint.uptime ap
               /\ StatisticsInfo.loadavg s = Accesspoint.load_avg ap)
            (Accesspoints.accesspoints aps) l.
Proof.
  rewrite getStatistics_run.
  destruct (get_infos env (fetches w)) as [aps | e]; [| discriminate].
  intros [= Hl _]. apply statistics_list_ok in Hl.
  split.
  - induction Hl as [| ap s aps' l' Hs _ IH]; constructor; [| exact IH].
    destruct (statistics_of_fields ap s Hs) as (Ht & Hw & _). congruence.
  - exists aps. split; [reflexivity |].
    induction Hl as [| ap s aps' l' Hs _ IH]; constructor; [| exact IH].
    destruct (statistics_of_fields ap s Hs) as (Ht & _ & Hu & Hl'). auto.
Qed.

Lemma statistics_wifi_equals_total_witness :
  Forall (fun s => ClientInfo.wifi (StatisticsInfo.clients s)
                   = ClientInfo.total (StatisticsInfo.clients s))
         [ Examples.stat1 ].
Proof.
  exact (proj1 (statistics_wifi_equals_total (Sample.steady [Sample.gw1])
                  initial (fetched initial) [Examples.stat1] eq_refl)).
Defined.

(** ** The range of the memory fields *)

Lemma kib_only_overflows (x : Z) (e : exn) :
  kib x = Raise e -> e = OverflowError.
Proof.
  unfold kib, Float.int_truediv. change (1024 =? 0) with false. cbv iota.
  destruct (x =? 0); [discriminate |]. cbv zeta.
  match goal with
  | |- context [if ?c then Raise OverflowError else _] => destruct c
  end; [now intros [= <-] | discriminate].
Qed.

Lemma kib_returns (x : Z) : Z.abs x < 2 ^ 1033 -> exists q, kib x = Ok q.
Proof.
  intros Hx. unfold kib, Float.int_truediv.
  change (1024 =? 0) with false. cbv iota.
  destruct (Z.eqb_spec x 0) as [-> | Hnz]; [eauto |].
  cbv zeta. change (Z.abs 1024) with 1024. change (Z.log2 1024) with 10.
  set (n := Z.abs x) in *.
  assert (Hn : 0 < n) by (subst n; lia).
  assert (Hlog : Z.log2 n < 1033) by (apply Z.log2_lt_pow2; assumption).
  set (e0 := Z.max (Z.log2 n - 10 - 53) (-1074)).
  assert (He0 : e0 <= 969) by (subst e0; lia).
  destruct (2 ^ 53 <=? Float.scaled_num n e0 / Float.scaled_den 1024 e0).
  - destruct (Z.ltb_spec 971 (e0 + 1)) as [| _]; [lia |].
    destruct (Z.eqb_spec (e0 + 1) 971) as [| _]; [lia |]. cbn [orb andb]. eauto.
  - destruct (Z.ltb_spec 971 e0) as [| _]; [lia |].
    destruct (Z.eqb_spec e0 971) as [| _]; [lia |]. cbn [orb andb]. eauto.
Qed.

Lemma kib_overflows (x : Z) :
  2 ^ 1035 <= Z.abs x -> kib x = Raise OverflowError.
Proof.
  intros Hx. unfold kib, Float.int_truediv.
  change (1024 =? 0) with false. cbv iota.
  assert (Hp : 0 < 2 ^ 1035) by (apply Z.pow_pos_nonneg; lia).
  destruct (Z.eqb_spec x 0) as [-> | Hnz]; [cbn in Hx; lia |].
  cbv zeta. change (Z.abs 1024) with 1024. change (Z.log2 1024) with 10.
  set (n := Z.abs x) in *.
  assert (Hn : 0 < n) by lia.
  assert (Hlog : 1035 <= Z.log2 n) by (apply Z.log2_le_pow2; assumption).
  set (e0 := Z.max (Z.log2 n - 10 - 53) (-1074)).
  assert (He0 : 972 <= e0) by (subst e0; lia).
  destruct (2 ^ 53 <=? Float.scaled_num n e0 / Float.scaled_den 1024 e0).
  - destruct (Z.ltb_spec 971 (e0 + 1)) as [_ |]; [reflexivity | lia].
  - destruct (Z.ltb_spec 971 e0) as [_ |]; [reflexivity | lia].
Qed.

(** X4: the only exception of the record of one access point is the
    [OverflowError] of a division.  The StatisticsInfo is built whenever the
    total, the difference of total and used, and the buffer count are below
    2^1033 in absolute value; it is not built, and [OverflowError] is raised,
    when the total is 2^1035 bytes or more. *)
Theorem statistics_of_overflow (ap : Accesspoint.t) :
  (forall e, statistics_of ap = Raise e -> e = OverflowError)
  /\ (Z.abs (Accesspoint.mem_total ap) < 2 ^ 1033 ->
      Z.abs (Accesspoint.mem_total ap - Accesspoint.mem_used ap) < 2 ^ 1033 ->
      Z.abs (Accesspoint.mem_buffer ap) < 2 ^ 1033 ->
      exists s, statistics_of ap = Ok s)
  /\ (2 ^ 1035 <= Z.abs (Accesspoint.mem_total ap) ->
      statistics_of ap = Raise OverflowError).
Proof.
  unfold statistics_of. split; [| split].
  - intros e.
    destruct (kib (Accesspoint.mem_total ap)) eqn:H1;
      [| intros [= <-]; eapply kib_only_overflows; eassumption].
    destruct (kib (Accesspoint.mem_total ap - Accesspoint.mem_used ap)) eqn:H2;
      [| intros [= <-]; eapply kib_only_overflows; eassumption].
    destruct (kib (Accesspoint.mem_buffer ap)) eqn:H3;
      [discriminate | intros [= <-]; eapply kib_only_overflows; eassumption].
  - intros H1 H2 H3.
    destruct (kib_returns _ H1) as [q1 ->].
    destruct (kib_returns _ H2) as [q2 ->].
    destruct (kib_returns _ H3) as [q3 ->]. eauto.
  - intros H. now rewrite (kib_overflows _ H).
Qed.

Lemma statistics_of_overflow_witness :
  (exists s, statistics_of Sample.gw1 = Ok s)
  /\ statistics_of Sample2.absurd = Raise OverflowError.
Proof.
  split.
  - destruct (statistics_of_overflow Sample.gw1) as (_ & Hok & _).
    apply Hok; cbn; lia.
  - destruct (statistics_of_overflow Sample2.absurd) as (_ & _ & Hbad).
    apply Hbad. cbn. lia.
Defined.

(** X5: when the total, the total minus the used and the buffer byte count
    are each below 2^53 in absolute value, the memory fields are their
    quotients by 1024 truncated toward zero, whatever the signs.  When
    more memory is used than there is, free is minus the kibibytes of the
    excess, rounded down: never positive, and zero for an excess of less
    than 1024 bytes. *)
Theorem memory_fields_truncate_toward_zero (ap : Accesspoint.t) :
  Z.abs (Accesspoint.mem_total ap) < 2 ^ 53 ->
  Z.abs (Accesspoint.mem_total ap - Accesspoint.mem_used ap) < 2 ^ 53 ->
  Z.abs (Accesspoint.mem_buffer ap) < 2 ^ 53 ->
  exists s,
    statistics_of ap = Ok s
    /\ MemoryInfo.total (StatisticsInfo.memory s)
       = Z.quot (Accesspoint.mem_total ap) 1024
    /\ MemoryInfo.free (StatisticsInfo.memory s)
       = Z.quot (Accesspoint.mem_total ap - Accesspoint.mem_used ap) 1024
    /\ MemoryInfo.buffers (StatisticsInfo.memory s)
       = Z.quot (Accesspoint.mem_buffer ap) 1024
    /\ (Accesspoint.mem_total ap < Accesspoint.mem_used ap ->
        MemoryInfo.free (StatisticsInfo.memory s)
        = - ((Accesspoint.mem_used ap - Accesspoint.mem_total ap) / 1024)
        /\ MemoryInfo.free (StatisticsInfo.memory s) <= 0)
    /\ (Z.abs (Accesspoint.mem_total ap - Accesspoint.mem_used ap) < 1024 ->
        MemoryInfo.free (StatisticsInfo.memory s) = 0).
Proof.
  intros HT HF HB. unfold statistics_of.
  rewrite !kib_exact by assumption.
  eexists. split; [reflexivity |]. cbn.
  split; [reflexivity |]. split; [reflexivity |]. split; [reflexivity |].
  split.
  - intros Hlt.
    replace (Accesspoint.mem_total ap - Accesspoint.mem_used ap)
      with (- (Accesspoint.mem_used ap - Accesspoint.mem_total ap)) by lia.
    rewrite Z.quot_opp_l by lia.
    rewrite Z.quot_div_nonneg by lia.
    split; [reflexivity |].
    assert (0 <= (Accesspoint.mem_used ap - Accesspoint.mem_total ap) / 1024)
      by (apply Z.div_pos; lia).
    lia.
  - intros Hsmall. apply Z.quot_small_iff; lia.
Qed.

Lemma memory_fields_truncate_toward_zero_witness :
  exists s,
    statistics_of Sample2.overdrawn = Ok s
    /\ MemoryInfo.total (StatisticsInfo.memory s) = 4
    /\ MemoryInfo.free (StatisticsInfo.memory s) = -2
    /\ MemoryInfo.buffers (StatisticsInfo.memory s) = 0.
Proof.
  destruct (memory_fields_truncate_toward_zero Sample2.overdrawn)
    as (s & Hs & Ht & Hf & Hb & _); [cbn; lia | cbn; lia | cbn; lia |].
  exists s. repeat split; assumption.
Defined.

(** ** The shape of a dictionary after an assignment *)

Section DictShape.
Context {V : Type}.

Lemma get_none_keys (k : string) (d : Dict.t V) :
  Dict.get k d = None <-> ~ In k (Dict.keys d).
Proof.
  rewrite <- get_in_keys. destruct (Dict.get k d); split; intros H;
    try congruence; try reflexivity.
  exfalso. apply H. discriminate.
Qed.

(** Assigning to a key that is absent appends it. *)
Lemma set_absent (k : string) (v : V) (d : Dict.t V) :
  Dict.get k d = None -> Dict.set k v d = (d ++ [(k, v)])%list.
Proof.
  induction d as [| [k' v'] d IH]; cbn [Dict.get Dict.set app]; [reflexivity |].
  destruct (String.eqb k' k); [discriminate |].
  intros H. now rewrite IH.
Qed.

(** Assigning to a key that is present replaces its value in place. *)
Lemma set_present (k : string) (v v0 : V) (before after : Dict.t V) :
  Dict.get k before = None ->
  Dict.set k v (before ++ (k, v0) :: after)
  = (before ++ (k, v) :: after)%list.
Proof.
  induction before as [| [k' v'] before IH]; cbn [Dict.get Dict.set app].
  - intros _. now rewrite String.eqb_refl.
  - destruct (String.eqb k' k); [discriminate |].
    intros H. now rewrite IH.
Qed.

Lemma get_app (k : string) (d1 d2 : Dict.t V) :
  Dict.get k (d1 ++ d2)
  = match Dict.get k d1 with Some v => Some v | None => Dict.get k d2 end.
Proof.
  induction d1 as [| [k' v'] d1 IH]; cbn [Dict.get app]; [reflexivity |].
  now destruct (String.eqb k' k).
Qed.

Lemma keys_set (k : string) (v : V) (d : Dict.t V) :
  Dict.keys (Dict.set k v d)
  = if Dict.mem k d then Dict.keys d else (Dict.keys d ++ [k])%list.
Proof.
  unfold Dict.mem, Dict.keys.
  induction d as [| [k' v'] d IH]; cbn [Dict.get Dict.set map fst app];
    [reflexivity |].
  destruct (String.eqb_spec k' k) as [-> | Hne]; cbn [map fst]; [reflexivity |].
  rewrite IH. now destruct (Dict.get k d).
Qed.

Lemma NoDup_keys_set (k : string) (v : V) (d : Dict.t V) :
  NoDup (Dict.keys d) -> NoDup (Dict.keys (Dict.set k v d)).
Proof.
  intros Hnd. rewrite keys_set. unfold Dict.mem.
  destruct (Dict.get k d) eqn:Hget; [assumption |].
  apply get_none_keys in Hget.
  apply NoDup_app; [assumption | repeat constructor; intros [] |].
  intros x Hx [<- | []]. contradiction.
Qed.

Lemma set_not_nil (k : string) (v : V) (d : Dict.t V) : Dict.set k v d <> [].
Proof.
  destruct d as [| [k' v'] d]; cbn [Dict.set]; [discriminate |].
  destruct (String.eqb k' k); discriminate.
Qed.
End DictShape.

Section DictValues.
Context {V : Type}.

Lemma get_in_values (k : string) (v : V) (d : Dict.t V) :
  Dict.get k d = Some v -> In v (Dict.values d).
Proof.
  intros H. apply get_in in H. unfold Dict.values.
  apply in_map_iff. now exists (k, v).
Qed.

Lemma in_values_get (v : V) (d : Dict.t V) :
  NoDup (Dict.keys d) -> In v (Dict.values d) ->
  exists k, Dict.get k d = Some v.
Proof.
  unfold Dict.keys, Dict.values.
  induction d as [| [k' v'] d IH]; cbn [map fst snd In Dict.get]; [intros _ [] |].
  intros Hnd [<- | Hin].
  - exists k'. now rewrite String.eqb_refl.
  - inversion Hnd as [| ? ? Hk' Hnd']; subst.
    destruct (IH Hnd' Hin) as [k Hk]. exists k.
    destruct (String.eqb_spec k' k) as [-> | Hne]; [| exact Hk].
    exfalso. apply Hk'. apply get_in in Hk.
    apply in_map_iff. now exists (k, v).
Qed.

Lemma Forall_values_set (P : V -> Prop) (k : string) (v : V) (d : Dict.t V) :
  P v -> Forall P (Dict.values d) -> Forall P (Dict.values (Dict.set k v d)).
Proof.
  intros Hv. unfold Dict.values.
  induction d as [| [k' v'] d IH]; cbn [Dict.set map snd]; intros Hd.
  - now repeat constructor.
  - inversion Hd as [| ? ? Hv' Hd']; subst.
    destruct (String.eqb k' k); cbn [map snd]; constructor; auto.
Qed.
End DictValues.

(** ** The merge result, key by key *)

Lemma merged_ok_merge_info (key : string) (m : Dict.t (Dict.t info))
    (i : info) :
  merged_ok m -> merged_ok (merge_info key m i).
Proof.
  intros [Hnd Hall]. unfold merge_info.
  destruct (Dict.get (info_node_id i) m) as [c |] eqn:Hc; split;
    try (now apply NoDup_keys_set); apply Forall_values_set; try assumption.
  - assert (Hok : composite_ok c).
    { eapply Forall_forall; [exact Hall |]. eapply get_in_values; eassumption. }
    destruct Hok as [Hndc _]. split; [now apply NoDup_keys_set |].
    apply set_not_nil.
  - split; [| discriminate]. cbn. repeat constructor. intros [].
Qed.

Lemma merged_ok_merge_pure (d : Dict.t records) (ks : list string) :
  forall m, merged_ok m -> merged_ok (merge_pure d ks m).
Proof.
  unfold merge_pure.
  induction ks as [| key ks IH]; intros m Hm; cbn [fold_left]; [assumption |].
  apply IH. unfold merge_key.
  destruct (Dict.get key d) as [[[| i l] |] |]; try assumption.
  generalize (i :: l). intros l'. revert m Hm.
  induction l' as [| j l' IHl]; intros m Hm; cbn [fold_left]; [assumption |].
  apply IHl. now apply merged_ok_merge_info.
Qed.

Lemma merged_ok_nil : merged_ok [].
Proof. split; constructor. Qed.

Lemma last_with_some (nid : string) (l : list info) (i : info) :
  last_with nid l = Some i -> In i l /\ info_node_id i = nid.
Proof.
  induction l as [| j l IH]; cbn [last_with]; [discriminate |].
  destruct (last_with nid l) as [j' |].
  - intros [= ->]. destruct (IH eq_refl). split; [now right | assumption].
  - destruct (String.eqb_spec (info_node_id j) nid); [| discriminate].
    intros [= ->]. split; [now left | assumption].
Qed.

Lemma last_with_app (l1 l2 : list info) (i : info) :
  Forall (fun j => info_node_id j <> info_node_id i) l2 ->
  last_with (info_node_id i) (l1 ++ i :: l2) = Some i.
Proof.
  intros Hl2.
  assert (Hnone : last_with (info_node_id i) l2 = None).
  { apply last_with_none. induction Hl2 as [| j l2 Hj _ IH]; [reflexivity |].
    cbn [existsb]. rewrite IH, orb_false_r. now apply String.eqb_neq. }
  induction l1 as [| a l1 IH]; cbn [app last_with].
  - now rewrite Hnone, String.eqb_refl.
  - now rewrite IH.
Qed.

Lemma selected_some (nid : string) (value : option records) (i : info) :
  selected nid value = Some i ->
  occurs nid value = true
  /\ info_node_id i = nid
  /\ exists l, value = Some (Some l) /\ In i l.
Proof.
  destruct value as [[l |] |]; cbn [selected occurs]; try discriminate.
  intros H. destruct (last_with_some nid l i H) as [Hin Hid].
  split; [| split; [assumption | eauto]].
  apply existsb_exists. exists i. split; [assumption |].
  now apply String.eqb_eq.
Qed.

Lemma entry_get (merged : Dict.t (Dict.t info)) (nid key : string)
    (c : Dict.t info) :
  Dict.get nid merged = Some c -> entry merged nid key = Dict.get key c.
Proof. unfold entry. now intros ->. Qed.

(** X6: in the merge result the record filed for a node_id under a kind is
    the last record of that kind's list with this node_id, so that a later
    record replaces an earlier one of the same node; and every record sits
    in the composite of its own node_id, under the name of the list it comes
    from. *)
Theorem merge_node_last_record_wins (d : Dict.t records) (w : World) :
  exists merged,
    fst (merge_node (OfDict d) w) = Ok merged
    /\ (forall key before i after,
          Dict.get key d = Some (Some (before ++ i :: after)) ->
          Forall (fun j => info_node_id j <> info_node_id i) after ->
          entry merged (info_node_id i) key = Some i)
    /\ (forall nid key i,
          entry merged nid key = Some i ->
          info_node_id i = nid
          /\ exists l, Dict.get key d = Some (Some l) /\ In i l).
Proof.
  exists (merge_pure d (Dict.keys d) []).
  split; [cbn [merge_node]; now rewrite merge_keys_run |]. split.
  - intros key before i after Hget Hafter.
    rewrite entry_merge, Hget. cbn [selected]. now apply last_with_app.
  - intros nid key i He. rewrite entry_merge in He.
    destruct (selected_some _ _ _ He) as (_ & Hid & Hl). auto.
Qed.

Lemma merge_node_last_record_wins_witness :
  exists merged,
    fst (merge_node
           (OfDict [("nodeinfo",
                      Some [ OfNodeInfo (nodeinfo_of Sample.gw1);
                             OfNodeInfo (nodeinfo_of Sample.gw2);
                             OfNodeInfo (nodeinfo_of Sample.gw1) ])])
           initial) = Ok merged
    /\ entry merged "112233445566" "nodeinfo"
       = Some (OfNodeInfo (nodeinfo_of Sample.gw2)).
Proof.
  destruct (merge_node_last_record_wins
              [("nodeinfo",
                 Some [ OfNodeInfo (nodeinfo_of Sample.gw1);
                        OfNodeInfo (nodeinfo_of Sample.gw2);
                        OfNodeInfo (nodeinfo_of Sample.gw1) ])] initial)
    as (merged & Hrun & Hlast & _).
  exists merged. split; [exact Hrun |].
  apply (Hlast "nodeinfo" [OfNodeInfo (nodeinfo_of Sample.gw1)]
           (OfNodeInfo (nodeinfo_of Sample.gw2))
           [OfNodeInfo (nodeinfo_of Sample.gw1)] eq_refl).
  repeat constructor. vm_compute. discriminate.
Defined.

(** X7: the merge result has every node_id once; its node_ids are exactly
    those that occur in a list of the input, none invented; and every
    composite has at least one record, no kind twice, and only kinds that
    are keys of the input. *)
Theorem merge_node_keys (d : Dict.t records) (w : World) :
  exists merged,
    fst (merge_node (OfDict d) w) = Ok merged
    /\ NoDup (Dict.keys merged)
    /\ (forall nid,
          In nid (Dict.keys merged)
          <-> exists key, occurs nid (Dict.get key d) = true)
    /\ Forall (fun c =>
                 c <> [] /\ NoDup (Dict.keys c)
                 /\ forall key, In key (Dict.keys c) -> In key (Dict.keys d))
              (Dict.values merged).
Proof.
  exists (merge_pure d (Dict.keys d) []).
  pose proof (merged_ok_merge_pure d (Dict.keys d) [] merged_ok_nil)
    as [Hnd Hall].
  split; [cbn [merge_node]; now rewrite merge_keys_run |].
  split; [exact Hnd |]. split.
  - intros nid. split.
    + intros Hin. apply get_in_keys in Hin.
      destruct (Dict.get nid (merge_pure d (Dict.keys d) [])) as [c |] eqn:Hc;
        [| congruence].
      assert (Hok : composite_ok c).
      { eapply Forall_forall; [exact Hall |]. eapply get_in_values; eassumption. }
      destruct c as [| [key i] c]; [now destruct Hok |].
      exists key. pose proof (entry_merge d nid key) as He.
      rewrite (entry_get _ _ key _ Hc) in He. cbn [Dict.get] in He.
      rewrite String.eqb_refl in He. symmetry in He.
      now destruct (selected_some _ _ _ He).
    + intros [key Hocc].
      destruct (selected_occurs _ _ Hocc) as (i & l & _ & Hsel & _).
      rewrite <- entry_merge in Hsel.
      destruct (entry_some _ _ _ _ Hsel) as (c & Hc & _).
      apply get_in_keys. congruence.
  - apply Forall_forall. intros c Hin.
    assert (Hok : composite_ok c) by (eapply Forall_forall; eassumption).
    destruct Hok as [Hndc Hne]. split; [assumption |]. split; [assumption |].
    intros key Hkey. destruct (in_values_get c _ Hnd Hin) as [nid Hc].
    apply get_in_keys in Hkey.
    destruct (Dict.get key c) as [i |] eqn:Hi; [| congruence].
    pose proof (entry_merge d nid key) as He.
    rewrite (entry_get _ _ key _ Hc), Hi in He. symmetry in He.
    destruct (selected_some _ _ _ He) as (_ & _ & l & Hl & _).
    apply get_in_keys. congruence.
Qed.

Lemma merge_node_keys_witness :
  exists merged,
    fst (merge_node (OfDict Examples.response) initial) = Ok merged
    /\ NoDup (Dict.keys merged)
    /\ In "112233445566" (Dict.keys merged)
    /\ ~ In "000000000000" (Dict.keys merged).
Proof.
  destruct (merge_node_keys Examples.response initial)
    as (merged & Hrun & Hnd & Hkeys & _).
  exists merged. split; [exact Hrun |]. split; [exact Hnd |]. split.
  - apply Hkeys. exists "nodeinfo". reflexivity.
  - intros Hin. apply Hkeys in Hin as [key Hocc].
    cbn [Examples.response Dict.get] in Hocc.
    destruct (String.eqb "nodeinfo" key); [discriminate |].
    destruct (String.eqb "statistics" key); discriminate.
Defined.

(** ** The reply set of a multi-request *)

Lemma node_of_acc (infos : Dict.t info) :
  forall acc : Dict.t json,
    NoDup (Dict.keys acc ++ Dict.keys infos) ->
    fold_left (fun node kv => Dict.set (fst kv) (to_dict (snd kv)) node)
              infos acc
    = acc ++ map (fun kv => (fst kv, to_dict (snd kv))) infos.
Proof.
  induction infos as [| [k i] infos IH]; intros acc Hnd; cbn [fold_left map].
  - now rewrite app_nil_r.
  - cbn [fst snd]. cbn [Dict.keys map fst] in Hnd.
    assert (Hk : Dict.get k acc = None).
    { apply get_none_keys. intros Hin.
      apply NoDup_remove_2 in Hnd. apply Hnd. apply in_or_app. now left. }
    rewrite (set_absent k (to_dict i) acc Hk), IH.
    + now rewrite <- app_assoc.
    + unfold Dict.keys in *. rewrite map_app, <- app_assoc. exact Hnd.
Qed.

Lemma node_of_document (infos : Dict.t info) :
  NoDup (Dict.keys infos) -> JObject (node_of infos) = document infos.
Proof.
  intros Hnd. unfold node_of, document, Dict.items.
  now rewrite (node_of_acc infos [] Hnd).
Qed.

Lemma map_reply_document (a : address) (vs : list (Dict.t info)) :
  Forall composite_ok vs ->
  map (reply a true) vs
  = map (fun c => mk_datagram (Deflate (Json (document c))) a) vs.
Proof.
  induction 1 as [| c vs [Hnd _] _ IH]; cbn [map]; [reflexivity |].
  unfold reply at 1. now rewrite (node_of_document c Hnd), IH.
Qed.

Lemma sendStruct_documents (env : Env) (a : address) (d : Dict.t records)
    (w : World) :
  (forall n, sendto_error env n = None) ->
  fst (sendStruct env a (OfDict d) true w) = Ok tt
  /\ sent (snd (sendStruct env a (OfDict d) true w))
     = sent w
       ++ map (fun c => mk_datagram (Deflate (Json (document c))) a)
              (Dict.values (merge_pure d (Dict.keys d) []))
  /\ fetches (snd (sendStruct env a (OfDict d) true w)) = fetches w.
Proof.
  intros Hok.
  destruct (multi_request_replies env a d w Hok) as [Hres Hsent].
  split; [exact Hres |]. split; [| apply keeps_fetches_sendStruct].
  rewrite Hsent. f_equal. apply map_reply_document.
  apply (merged_ok_merge_pure d (Dict.keys d) [] merged_ok_nil).
Qed.

(** X8: on a network without send errors, [sendStruct] answers a dict of
    kind lists with one datagram per node_id of the merge result, in the
    order of the merge result and after the datagrams sent before; each goes
    to the given address and carries the raw deflate stream of the JSON
    object that has one member per kind of the composite, named by the kind
    and holding the [to_dict] of the record.  No call of the data source is
    made. *)
Theorem sendStruct_replies (env : Env) (a : address) (d : Dict.t records)
    (w : World) :
  (forall n, sendto_error env n = None) ->
  exists merged,
    fst (merge_node (OfDict d) w) = Ok merged
    /\ fst (sendStruct env a (OfDict d) true w) = Ok tt
    /\ sent (snd (sendStruct env a (OfDict d) true w))
       = sent w
         ++ map (fun c => mk_datagram (Deflate (Json (document c))) a)
                (Dict.values merged)
    /\ fetches (snd (sendStruct env a (OfDict d) true w)) = fetches w.
Proof.
  intros Hok. exists (merge_pure d (Dict.keys d) []).
  split; [cbn [merge_node]; now rewrite merge_keys_run |].
  apply (sendStruct_documents env a d w Hok).
Qed.

Lemma sendStruct_replies_witness :
  sent (snd (sendStruct (Sample.steady []) Sample.requester
               (OfDict Examples.response) true initial))
  = [ mk_datagram
        (Deflate (Json (JObject
           [ ("nodeinfo", NodeInfo_to_dict (nodeinfo_of Sample.gw1));
             ("statistics", StatisticsInfo_to_dict Examples.stat1) ])))
        Sample.requester;
      mk_datagram
        (Deflate (Json (JObject
           [ ("nodeinfo", NodeInfo_to_dict (nodeinfo_of Sample.gw2)) ])))
        Sample.requester ].
Proof.
  destruct (sendStruct_replies (Sample.steady []) Sample.requester
              Examples.response initial (fun _ => eq_refl))
    as (merged & Hm & _ & Hsent & _).
  rewrite Hsent. injection Hm as <-. reflexivity.
Defined.

Lemma Forall_prefix {A : Type} (P : A -> Prop) (n : nat) (l : list A) :
  Forall P l -> Forall P (firstn n l).
Proof.
  intros H. revert n. induction H as [| x l Hx _ IH]; intros [| n];
    cbn [firstn]; constructor; auto.
Qed.

(** The loop of [sendStruct] stops at the first send that fails. *)
Lemma for_each_reply_stops (env : Env) (a : address) (c : bool) :
  forall vs w,
    let run :=
      for_each vs (fun infos =>
        bind (print (PrintBytes (Json (JObject (node_of infos)))))
             (fun _ => sendto env
                         (if c then Deflate (Json (JObject (node_of infos)))
                          else Json (JObject (node_of infos))) a)) w in
    ((forall j, (j < List.length vs)%nat ->
                sendto_error env (List.length (sent w) + j) = None)
     /\ fst run = Ok tt
     /\ sent (snd run) = sent w ++ map (reply a c) vs)
    \/ (exists k e,
          (k < List.length vs)%nat
          /\ (forall j, (j < k)%nat ->
                        sendto_error env (List.length (sent w) + j) = None)
          /\ sendto_error env (List.length (sent w) + k) = Some e
          /\ fst run = Raise e
          /\ sent (snd run) = sent w ++ map (reply a c) (firstn k vs)).
Proof.
  induction vs as [| infos vs IH]; intros w; cbn zeta.
  - left. split; [intros j Hj; inversion Hj |].
    cbn. now rewrite app_nil_r.
  - set (body := fun infos0 : Dict.t info =>
        bind (print (PrintBytes (Json (JObject (node_of infos0)))))
             (fun _ => sendto env
                         (if c then Deflate (Json (JObject (node_of infos0)))
                          else Json (JObject (node_of infos0))) a)) in *.
    set (w1 := mk_world (fetches w) (sent w ++ [reply a c infos])
                 (stdout w ++ [PrintBytes (Json (JObject (node_of infos)))])).
    assert (Hstep :
      for_each (infos :: vs) body w
      = match sendto_error env (List.length (sent w)) with
        | Some e =>
            (Raise e,
             printed [PrintBytes (Json (JObject (node_of infos)))] w)
        | None => for_each vs body w1
        end).
    { cbn [for_each]. subst body. unfold bind at 1 2, print at 1, sendto at 1.
      cbn [sent fetches stdout].
      destruct (sendto_error env (List.length (sent w))); reflexivity. }
    rewrite Hstep. clear Hstep.
    destruct (sendto_error env (List.length (sent w))) as [e |] eqn:Herr.
    + right. exists 0%nat, e. cbn [List.length firstn map fst snd printed sent].
      rewrite Nat.add_0_r, app_nil_r.
      split; [lia |]. split; [intros j Hj; lia |].
      split; [assumption |]. split; reflexivity.
    + specialize (IH w1). cbn zeta in IH.
      assert (Hlen : List.length (sent w1) = S (List.length (sent w))).
      { subst w1. cbn [sent]. rewrite length_app. cbn. lia. }
      assert (Hsent : forall l, sent w1 ++ l = sent w ++ reply a c infos :: l).
      { intros l. subst w1. cbn [sent]. now rewrite <- app_assoc. }
      destruct IH as [(Hall & Hres & Hs) | (k & e & Hk & Hall & Hfail & Hres & Hs)].
      * left. split; [| split; [exact Hres |]].
        -- intros [| j] Hj; [now rewrite Nat.add_0_r |].
           cbn [List.length] in Hj.
           specialize (Hall j ltac:(lia)). rewrite Hlen in Hall.
           now replace (List.length (sent w) + S j)%nat
             with (S (List.length (sent w)) + j)%nat by lia.
        -- rewrite Hs. cbn [map]. apply Hsent.
      * right. exists (S k), e. cbn [List.length firstn map].
        split; [lia |]. split; [| split; [| split; [exact Hres |]]].
        -- intros [| j] Hj; [now rewrite Nat.add_0_r |].
           specialize (Hall j ltac:(lia)). rewrite Hlen in Hall.
           now replace (List.length (sent w) + S j)%nat
             with (S (List.length (sent w)) + j)%nat by lia.
        -- rewrite Hlen in Hfail.
           now replace (List.length (sent w) + S k)%nat
             with (S (List.length (sent w)) + k)%nat by lia.
        -- rewrite Hs. apply Hsent.
Qed.

(** X9: a send error ends [sendStruct] where it occurs.  The datagrams of
    the nodes before the failing one have been sent and stay sent, the
    failing datagram is not tried again, the nodes behind it get nothing,
    and the error of the failing send is raised. *)
Theorem sendStruct_stops_at_send_error (env : Env) (a : address)
    (d : Dict.t records) (w : World) (k : nat) (e : exn) :
  (forall j, (j < k)%nat -> sendto_error env (List.length (sent w) + j) = None) ->
  sendto_error env (List.length (sent w) + k) = Some e ->
  exists merged,
    fst (merge_node (OfDict d) w) = Ok merged
    /\ ((k < List.length (Dict.values merged))%nat ->
        fst (sendStruct env a (OfDict d) true w) = Raise e
        /\ sent (snd (sendStruct env a (OfDict d) true w))
           = sent w
             ++ map (fun c => mk_datagram (Deflate (Json (document c))) a)
                    (firstn k (Dict.values merged)))
    /\ ((List.length (Dict.values merged) <= k)%nat ->
        fst (sendStruct env a (OfDict d) true w) = Ok tt
        /\ sent (snd (sendStruct env a (OfDict d) true w))
           = sent w
             ++ map (fun c => mk_datagram (Deflate (Json (document c))) a)
                    (Dict.values merged)).
Proof.
  intros Hbefore Hfail. exists (merge_pure d (Dict.keys d) []).
  split; [cbn [merge_node]; now rewrite merge_keys_run |].
  pose proof (merged_ok_merge_pure d (Dict.keys d) [] merged_ok_nil)
    as [_ Hall].
  set (vs := Dict.values (merge_pure d (Dict.keys d) [])) in *.
  assert (Hrun :
            sendStruct env a (OfDict d) true w
            = for_each vs (fun infos =>
                bind (print (PrintBytes (Json (JObject (node_of infos)))))
                     (fun _ => sendto env
                                 (Deflate (Json (JObject (node_of infos)))) a))
                (printed (map PrintStr (Dict.keys d))
                   (if verbose env
                    then printed [PrintVerbose a (OfDict d)] w else w))).
  { unfold sendStruct, bind.
    destruct (verbose env); cbn [print ret merge_node];
      rewrite merge_keys_run; reflexivity. }
  rewrite Hrun. clear Hrun.
  set (w0 := printed (map PrintStr (Dict.keys d))
               (if verbose env
                then printed [PrintVerbose a (OfDict d)] w else w)).
  assert (Hs0 : sent w0 = sent w) by (subst w0; now destruct (verbose env)).
  pose proof (for_each_reply_stops env a true vs w0) as Hloop.
  cbn zeta in Hloop. rewrite Hs0 in Hloop.
  assert (Hprefix : forall n,
            map (reply a true) (firstn n vs)
            = map (fun c => mk_datagram (Deflate (Json (document c))) a)
                  (firstn n vs)).
  { intros n. apply map_reply_document. now apply Forall_prefix. }
  destruct Hloop as [(Hnone & Hres & Hsent)
                    | (k' & e' & Hk' & Hnone & Herr & Hres & Hsent)].
  - split.
    + intros Hk. specialize (Hnone k Hk). congruence.
    + intros _. split; [exact Hres |].
      rewrite Hsent, <- (firstn_all vs) at 1. rewrite Hprefix.
      now rewrite firstn_all.
  - assert (Hkk : k' = k).
    { destruct (Nat.lt_trichotomy k' k) as [Hlt | [Heq | Hgt]]; [| exact Heq |].
      - specialize (Hbefore k' Hlt). congruence.
      - specialize (Hnone k Hgt). congruence. }
    subst k'. split.
    + intros _. split; [congruence |]. now rewrite Hsent, Hprefix.
    + intros Hle. lia.
Qed.

Lemma sendStruct_stops_at_send_error_witness :
  fst (sendStruct (Sample2.second_send_fails []) Sample.requester
         (OfDict Examples.response) true initial) = Raise OSError
  /\ sent (snd (sendStruct (Sample2.second_send_fails []) Sample.requester
                  (OfDict Examples.response) true initial))
     = [ mk_datagram
           (Deflate (Json (JObject
              [ ("nodeinfo", NodeInfo_to_dict (nodeinfo_of Sample.gw1));
                ("statistics", StatisticsInfo_to_dict Examples.stat1) ])))
           Sample.requester ].
Proof.
  destruct (sendStruct_stops_at_send_error (Sample2.second_send_fails [])
              Sample.requester Examples.response initial 1 OSError)
    as (merged & Hm & Hstop & _).
  - intros [| j] Hj; [reflexivity | lia].
  - reflexivity.
  - injection Hm as <-.
    destruct Hstop as [Hres Hsent]; [cbn; lia |].
    split; [exact Hres | exact Hsent].
Defined.

(** ** Calls of the data source, request by request *)

Lemma buildStruct_fetches (env : Env) (t : string) (w : World) :
  fetches (snd (buildStruct env t w))
  = (fetches w + if recognized t then 1 else 0)%nat.
Proof.
  destruct (recognized t) eqn:Ht.
  - destruct (recognized_cases t Ht) as [-> | ->];
      [rewrite buildStruct_statistics | rewrite buildStruct_nodeinfo];
      cbn; lia.
  - rewrite buildStruct_unknown by assumption. cbn. lia.
Qed.

Lemma build_all_fetches (env : Env) (ks : list string) :
  forall r w,
    (fetches w <= fetches (snd (build_all env ks r w))
                <= fetches w + List.length (filter recognized ks))%nat
    /\ (forall r',
          fst (build_all env ks r w) = Ok r' ->
          fetches (snd (build_all env ks r w))
          = (fetches w + List.length (filter recognized ks))%nat).
Proof.
  induction ks as [| k ks IH]; intros r w; cbn [build_all filter].
  - cbn. split; [lia | intros; lia].
  - unfold bind. pose proof (buildStruct_fetches env k w) as Hk.
    destruct (buildStruct env k w) as [[v | e] w1]; cbn [fst snd] in *.
    + destruct (IH (Dict.set k v r) w1) as [Hle Heq].
      destruct (recognized k); cbn [List.length]; split; try lia;
        intros r' Hr'; rewrite (Heq r' Hr'); lia.
    + destruct (recognized k); cbn [List.length]; split; try lia; discriminate.
Qed.

(** X10: a request never costs more calls of the data source than it names
    recognized kinds, repetitions counted.  A multi-request that is served
    to the end costs exactly that many; a single request costs one call when
    its name is recognized and none otherwise; a payload that is not UTF-8
    costs none. *)
Theorem fetches_per_request (env : Env) (msg : string) (a : address)
    (w : World) :
  (Str.utf8_valid msg = false ->
   fetches (snd (serve_one env msg a w)) = fetches w)
  /\ (Str.utf8_valid msg = true ->
      hd "" (Str.split " " msg) = "GET" ->
      (fetches w <= fetches (snd (serve_one env msg a w))
       <= fetches w
          + List.length (filter recognized (tl (Str.split " " msg))))%nat
      /\ (fst (serve_one env msg a w) = Ok tt ->
          fetches (snd (serve_one env msg a w))
          = (fetches w
             + List.length (filter recognized (tl (Str.split " " msg))))%nat))
  /\ (Str.utf8_valid msg = true ->
      hd "" (Str.split " " msg) <> "GET" ->
      fetches (snd (serve_one env msg a w))
      = (fetches w + if recognized (hd "" (Str.split " " msg)) then 1 else 0)%nat).
Proof.
  split; [| split].
  - intros Hv. now rewrite serve_one_invalid.
  - intros Hv Hhd. rewrite serve_one_multi by assumption. unfold bind.
    destruct (build_all_fetches env (tl (Str.split " " msg)) [] w)
      as [Hle Heq].
    destruct (build_all env (tl (Str.split " " msg)) [] w) as [[r | e] w1];
      cbn [fst snd] in *.
    + rewrite keeps_fetches_sendStruct. split; [exact Hle |].
      intros _. now apply (Heq r).
    + split; [exact Hle | discriminate].
  - intros Hv Hhd. rewrite serve_one_single by assumption. unfold bind.
    pose proof (buildStruct_fetches env (hd "" (Str.split " " msg)) w) as Hk.
    destruct (buildStruct env (hd "" (Str.split " " msg)) w) as [[r | e] w1];
      cbn [fst snd] in *; [| exact Hk].
    destruct (sendStruct_of_records env a r false w1) as (w' & -> & _ & Hf).
    cbn [snd]. congruence.
Qed.

Lemma fetches_per_request_witness :
  fetches (snd (serve_one (Sample.steady [Sample.gw1]) Sample.not_utf8
                  Sample.requester initial)) = 0%nat
  /\ fetches (snd (serve_one (Sample.steady [Sample.gw1])
                     "GET nodeinfo bogus nodeinfo statistics"
                     Sample.requester initial)) = 3%nat
  /\ fetches (snd (serve_one (Sample.steady [Sample.gw1]) "statistics"
                     Sample.requester initial)) = 1%nat.
Proof.
  split; [| split].
  - destruct (fetches_per_request (Sample.steady [Sample.gw1]) Sample.not_utf8
                Sample.requester initial) as (Hbad & _).
    exact (Hbad eq_refl).
  - destruct (fetches_per_request (Sample.steady [Sample.gw1])
                "GET nodeinfo bogus nodeinfo statistics"
                Sample.requester initial) as (_ & Hmulti & _).
    destruct (Hmulti eq_refl eq_refl) as [_ Heq].
    apply Heq. vm_compute. reflexivity.
  - destruct (fetches_per_request (Sample.steady [Sample.gw1]) "statistics"
                Sample.requester initial) as (_ & _ & Hsingle).
    apply Hsingle; [reflexivity | discriminate].
Defined.

(** ** An empty inventory *)

Lemma merge_pure_falsy (d : Dict.t records) (ks : list string) :
  Forall (fun v => v = None \/ v = Some []) (Dict.values d) ->
  forall m, merge_pure d ks m = m.
Proof.
  intros Hd. unfold merge_pure.
  induction ks as [| k ks IH]; intros m; cbn [fold_left]; [reflexivity |].
  rewrite IH. unfold merge_key.
  destruct (Dict.get k d) as [v |] eqn:Hget; [| reflexivity].
  apply get_in_values in Hget.
  destruct (proj1 (Forall_forall _ _) Hd v Hget) as [-> | ->]; reflexivity.
Qed.

Lemma build_all_empty_inventory (env : Env) (ks : list string) :
  (forall n, get_infos env n = Ok (Accesspoints.mk [])) ->
  forall (r : Dict.t records) w,
    Forall (fun v => v = None \/ v = Some []) (Dict.values r) ->
    exists r' w',
      build_all env ks r w = (Ok r', w')
      /\ Forall (fun v => v = None \/ v = Some []) (Dict.values r')
      /\ sent w' = sent w.
Proof.
  intros Hsrc. induction ks as [| k ks IH]; intros r w Hr; cbn [build_all].
  - exists r, w. auto.
  - unfold bind.
    assert (Hk : exists v w1,
               buildStruct env k w = (Ok v, w1)
               /\ (v = None \/ v = Some []) /\ sent w1 = sent w).
    { destruct (recognized k) eqn:Hrec.
      - destruct (recognized_cases k Hrec) as [-> | ->];
          [rewrite buildStruct_statistics | rewrite buildStruct_nodeinfo];
          rewrite Hsrc; cbn; eauto 6.
      - rewrite buildStruct_unknown by assumption. eauto 6. }
    destruct Hk as (v & w1 & -> & Hv & Hs).
    destruct (IH (Dict.set k v r) w1) as (r' & w' & Hrun & Hr' & Hs').
    { now apply Forall_values_set. }
    exists r', w'. split; [exact Hrun |]. split; [exact Hr' | congruence].
Qed.

(** X11: while the data source reports no access point, a multi-request is
    served without an error and without a reply: no datagram is sent,
    whatever kinds it names and whatever the network would do. *)
Theorem empty_inventory_no_reply (env : Env) (msg : string) (a : address)
    (w : World) :
  (forall n, get_infos env n = Ok (Accesspoints.mk [])) ->
  Str.utf8_valid msg = true ->
  hd "" (Str.split " " msg) = "GET" ->
  fst (serve_one env msg a w) = Ok tt
  /\ sent (snd (serve_one env msg a w)) = sent w.
Proof.
  intros Hsrc Hv Hhd. rewrite serve_one_multi by assumption. unfold bind.
  destruct (build_all_empty_inventory env (tl (Str.split " " msg)) Hsrc
              (@nil (string * records)) w)
    as (r & w1 & -> & Hr & Hs); [constructor |].
  unfold sendStruct, bind.
  destruct (verbose env); cbn [print ret merge_node];
    rewrite merge_keys_run, (merge_pure_falsy r _ Hr); cbn; auto.
Qed.

Lemma empty_inventory_no_reply_witness :
  fst (serve_one (Sample.unreachable []) "GET nodeinfo statistics"
         Sample.requester initial) = Ok tt
  /\ sent (snd (serve_one (Sample.unreachable []) "GET nodeinfo statistics"
                  Sample.requester initial)) = [].
Proof.
  apply (empty_inventory_no_reply (Sample.unreachable [])
           "GET nodeinfo statistics" Sample.requester initial);
    [intros n | |]; reflexivity.
Defined.

(** ** The verbosity flag *)

Lemma sim_merge_node_refl (r : responseStruct) :
  sim eq (merge_node r) (merge_node r).
Proof.
  destruct r as [d | r]; cbn [merge_node]; [| apply sim_raise].
  intros w w' Hw. rewrite !merge_keys_run.
  split; [reflexivity | now apply same_effects_printed].
Qed.

Lemma sim_sendStruct_verbose (env : Env) (b : bool) (a : address)
    (r : responseStruct) (c : bool) :
  sim eq (sendStruct (with_verbose b env) a r c) (sendStruct env a r c).
Proof.
  unfold sendStruct.
  apply sim_bind with (R := fun _ _ => True).
  { cbn [with_verbose verbose].
    destruct b, (verbose env); try apply sim_print; try (now apply sim_ret);
      intros w w' [Hf Hs]; cbn; repeat split; assumption. }
  intros _ _ _. apply sim_bind with (R := eq); [apply sim_merge_node_refl |].
  intros merged ? <-.
  change (sendto (with_verbose b env)) with (sendto env).
  apply sim_for_each. intros infos.
  eapply sim_bind; [apply sim_print |].
  intros _ _ _. apply sim_sendto.
Qed.

Lemma sim_build_all_refl (env : Env) (ks : list string) :
  forall r, sim eq (build_all env ks r) (build_all env ks r).
Proof.
  induction ks as [| k ks IH]; intros r; cbn [build_all].
  - now apply sim_ret.
  - apply sim_bind with (R := eq); [apply sim_buildStruct |].
    intros v ? <-. apply IH.
Qed.

Lemma sim_serve_one_verbose (env : Env) (b : bool) (msg : string)
    (a : address) :
  sim eq (serve_one (with_verbose b env) msg a) (serve_one env msg a).
Proof.
  unfold serve_one.
  apply sim_bind with (R := eq).
  { unfold decode. destruct (Str.utf8_valid msg);
      [now apply sim_ret | apply sim_raise]. }
  intros text ? <-.
  destruct (String.eqb (hd "" (Str.split " " text)) "GET").
  - change (build_all (with_verbose b env)) with (build_all env).
    apply sim_bind with (R := eq); [apply sim_build_all_refl |].
    intros r ? <-. apply sim_sendStruct_verbose.
  - change (buildStruct (with_verbose b env)) with (buildStruct env).
    apply sim_bind with (R := eq); [apply sim_buildStruct |].
    intros r ? <-. apply sim_sendStruct_verbose.
Qed.

Lemma serve_verbose (env : Env) (b : bool) (inbound : list (string * address)) :
  forall w w',
    same_effects w w' ->
    crash_of (serve (with_verbose b env) inbound w)
    = crash_of (serve env inbound w')
    /\ same_effects (world_of (serve (with_verbose b env) inbound w))
                    (world_of (serve env inbound w')).
Proof.
  induction inbound as [| [msg a] inbound IH]; intros w w' Hw; cbn [serve].
  - now split.
  - unfold recvfrom; cbn [fst snd].
    pose proof (sim_serve_one_verbose env b (Str.take 2048 msg) a w w' Hw)
      as Hsim.
    destruct (serve_one (with_verbose b env) (Str.take 2048 msg) a w)
      as [[[] | e1] w1],
      (serve_one env (Str.take 2048 msg) a w') as [[[] | e2] w2];
      try contradiction; destruct Hsim as [Heq Hw12].
    + now apply IH.
    + subst e2. now split.
Qed.

(** X12: the verbosity flag changes what is printed and nothing else.  With
    the flag set either way, the loop ends with the same exception or goes
    on waiting alike, after the same datagrams and the same number of calls
    of the data source. *)
Theorem verbose_only_prints (env : Env) (b : bool)
    (inbound : list (string * address)) :
  crash_of (start (with_verbose b env) inbound) = crash_of (start env inbound)
  /\ sent (world_of (start (with_verbose b env) inbound))
     = sent (world_of (start env inbound))
  /\ fetches (world_of (start (with_verbose b env) inbound))
     = fetches (world_of (start env inbound)).
Proof.
  unfold start. cbn [with_verbose startup_error].
  destruct (startup_error env); [now repeat split |].
  destruct (serve_verbose env b inbound initial initial
              (same_effects_refl initial)) as [Hc [Hf Hs]].
  auto.
Qed.

(** ** Replies that do not depend on the past *)

Section Uniform.

Lemma uniform_ret {A : Type} (x : A) : uniform (ret x).
Proof. exists (Ok x), []. intros w. cbn. now rewrite app_nil_r. Qed.

Lemma uniform_raise {A : Type} (e : exn) : uniform (@raise A e).
Proof. exists (Raise e), []. intros w. cbn. now rewrite app_nil_r. Qed.

Lemma uniform_lift {A : Type} (r : except A) : uniform (lift r).
Proof. exists r, []. intros w. cbn. now rewrite app_nil_r. Qed.

Lemma uniform_print (l : line) : uniform (print l).
Proof. exists (Ok tt), []. intros w. cbn. now rewrite app_nil_r. Qed.

Lemma uniform_bind {A B : Type} (c : M A) (k : A -> M B) :
  uniform c -> (forall x, uniform (k x)) -> uniform (bind c k).
Proof.
  intros (res & new & Hc) Hk. destruct res as [x | e].
  - destruct (Hk x) as (res' & new' & Hkx).
    exists res', (new ++ new'). intros w. unfold bind.
    destruct (Hc w) as [Hr Hs]. destruct (c w) as [r w1]; cbn [fst snd] in *.
    subst r. destruct (Hkx w1) as [Hr' Hs'].
    split; [exact Hr' |]. now rewrite Hs', Hs, app_assoc.
  - exists (Raise e), new. intros w. unfold bind.
    destruct (Hc w) as [Hr Hs]. destruct (c w) as [r w1]; cbn [fst snd] in *.
    now subst r.
Qed.

Lemma uniform_for_each {A : Type} (xs : list A) (body : A -> M unit) :
  (forall x, uniform (body x)) -> uniform (for_each xs body).
Proof.
  intros Hb. induction xs as [| x xs IH]; cbn [for_each].
  - apply uniform_ret.
  - apply uniform_bind; [apply Hb | intros _; exact IH].
Qed.

Variable env : Env.
Hypothesis steady : forall n, get_infos env n = get_infos env 0.
Hypothesis reliable : forall n, sendto_error env n = None.

Lemma uniform_aps : uniform (_aps env).
Proof.
  exists (get_infos env 0), []. intros w. unfold _aps. cbn.
  now rewrite app_nil_r, steady.
Qed.

Lemma uniform_sendto (data : wire) (a : address) :
  uniform (sendto env data a).
Proof.
  exists (Ok tt), [mk_datagram data a]. intros w. unfold sendto.
  now rewrite reliable.
Qed.

Lemma uniform_merge_node (r : responseStruct) : uniform (merge_node r).
Proof.
  destruct r as [d | r]; cbn [merge_node]; [| apply uniform_raise].
  exists (Ok (merge_pure d (Dict.keys d) [])), []. intros w.
  rewrite merge_keys_run. cbn. now rewrite app_nil_r.
Qed.

Lemma uniform_buildStruct (t : string) : uniform (buildStruct env t).
Proof.
  unfold buildStruct, getStatistics, getNodeInfos.
  destruct (String.eqb t "statistics"); [| destruct (String.eqb t "nodeinfo")];
    repeat (apply uniform_bind; [| intros ?]);
    auto using uniform_aps, uniform_print, uniform_ret, uniform_lift.
Qed.

Lemma uniform_build_all (ks : list string) :
  forall r, uniform (build_all env ks r).
Proof.
  induction ks as [| k ks IH]; intros r; cbn [build_all].
  - apply uniform_ret.
  - apply uniform_bind; [apply uniform_buildStruct | intros v; apply IH].
Qed.

Lemma uniform_sendStruct (a : address) (r : responseStruct) (c : bool) :
  uniform (sendStruct env a r c).
Proof.
  unfold sendStruct. apply uniform_bind.
  { destruct (verbose env); [apply uniform_print | apply uniform_ret]. }
  intros _. apply uniform_bind; [apply uniform_merge_node |].
  intros merged. apply uniform_for_each. intros infos.
  apply uniform_bind; [apply uniform_print | intros _; apply uniform_sendto].
Qed.

Lemma uniform_serve_one (msg : string) (a : address) :
  uniform (serve_one env msg a).
Proof.
  unfold serve_one. apply uniform_bind.
  { unfold decode. destruct (Str.utf8_valid msg);
      [apply uniform_ret | apply uniform_raise]. }
  intros text. destruct (String.eqb (hd "" (Str.split " " text)) "GET").
  - apply uniform_bind; [apply uniform_build_all |].
    intros r. apply uniform_sendStruct.
  - apply uniform_bind; [apply uniform_buildStruct |].
    intros r. apply uniform_sendStruct.
Qed.

End Uniform.

(** X13: with a data source that answers every call alike and a network
    without send errors, what a request gets does not depend on what was
    served before: the same payload from the same address has the same
    result and adds the same datagrams, whenever it arrives. *)
Theorem same_request_same_replies (env : Env) (msg : string) (a : address) :
  (forall n, get_infos env n = get_infos env 0) ->
  (forall n, sendto_error env n = None) ->
  exists res new,
    forall w,
      fst (serve_one env msg a w) = res
      /\ sent (snd (serve_one env msg a w)) = sent w ++ new.
Proof.
  intros Hsteady Hreliable. now apply uniform_serve_one.
Qed.

Lemma same_request_same_replies_witness :
  exists res new,
    forall w,
      fst (serve_one (Sample.steady [Sample.gw1; Sample.gw2])
             "GET statistics nodeinfo" Sample.requester w) = res
      /\ sent (snd (serve_one (Sample.steady [Sample.gw1; Sample.gw2])
                      "GET statistics nodeinfo" Sample.requester w))
         = sent w ++ new.
Proof.
  apply (same_request_same_replies (Sample.steady [Sample.gw1; Sample.gw2])
           "GET statistics nodeinfo" Sample.requester);
    intros n; reflexivity.
Defined.

(** ** Where the replies go *)

Section RepliesTo.
Variable a : address.

Lemma replies_to_keeps {A : Type} (c : M A) : keeps sent c -> replies_to a c.
Proof. intros H w. exists []. rewrite H, app_nil_r. now split. Qed.

Lemma replies_to_bind {A B : Type} (c : M A) (k : A -> M B) :
  replies_to a c -> (forall x, replies_to a (k x)) -> replies_to a (bind c k).
Proof.
  intros Hc Hk w. unfold bind. destruct (Hc w) as (new & Hs & Hall).
  destruct (c w) as [[x | e] w1]; cbn [snd] in *.
  - destruct (Hk x w1) as (new' & Hs' & Hall').
    exists (new ++ new'). split; [now rewrite Hs', Hs, app_assoc |].
    apply Forall_app. now split.
  - exists new. now split.
Qed.

Lemma replies_to_for_each {A : Type} (xs : list A) (body : A -> M unit) :
  (forall x, replies_to a (body x)) -> replies_to a (for_each xs body).
Proof.
  intros Hb. induction xs as [| x xs IH]; cbn [for_each].
  - apply replies_to_keeps, keeps_ret.
  - apply replies_to_bind; [apply Hb | intros _; exact IH].
Qed.

Lemma replies_to_sendto (env : Env) (data : wire) :
  replies_to a (sendto env data a).
Proof.
  intros w. unfold sendto.
  destruct (sendto_error env (List.length (sent w))).
  - exists []. rewrite app_nil_r. now split.
  - exists [mk_datagram data a]. split; [reflexivity | now repeat constructor].
Qed.

Lemma replies_to_sendStruct (env : Env) (r : responseStruct) (c : bool) :
  replies_to a (sendStruct env a r c).
Proof.
  unfold sendStruct. apply replies_to_bind.
  { apply replies_to_keeps.
    destruct (verbose env); [apply keeps_sent_print | apply keeps_ret]. }
  intros _. apply replies_to_bind.
  { apply replies_to_keeps, keeps_sent_merge_node. }
  intros merged. apply replies_to_for_each. intros infos.
  apply replies_to_bind; [apply replies_to_keeps, keeps_sent_print |].
  intros _. apply replies_to_sendto.
Qed.

Lemma replies_to_serve_one (env : Env) (msg : string) :
  replies_to a (serve_one env msg a).
Proof.
  unfold serve_one. apply replies_to_bind.
  { apply replies_to_keeps. unfold decode.
    destruct (Str.utf8_valid msg); [apply keeps_ret | apply keeps_raise]. }
  intros text. destruct (String.eqb (hd "" (Str.split " " text)) "GET").
  - apply replies_to_bind.
    + apply replies_to_keeps, keeps_sent_build_all.
    + intros r. apply replies_to_sendStruct.
  - apply replies_to_bind.
    + apply replies_to_keeps, keeps_sent_buildStruct.
    + intros r. apply replies_to_sendStruct.
Qed.
End RepliesTo.

Lemma serve_replies_to_sources (env : Env) (inbound : list (string * address)) :
  forall w,
    exists new,
      sent (world_of (serve env inbound w)) = sent w ++ new
      /\ Forall (fun d => In (dest d) (map snd inbound)) new.
Proof.
  induction inbound as [| [msg a] inbound IH]; intros w; cbn [serve].
  - exists []. rewrite app_nil_r. now split.
  - unfold recvfrom; cbn [fst snd map].
    destruct (replies_to_serve_one a env (Str.take 2048 msg) w)
      as (new & Hs & Hall).
    assert (Hall' : Forall (fun d => In (dest d) (a :: map snd inbound)) new).
    { eapply Forall_impl; [| exact Hall]. intros d <-. now left. }
    destruct (serve_one env (Str.take 2048 msg) a w) as [[[] | e] w1];
      cbn [snd world_of] in *.
    + destruct (IH w1) as (new' & Hs' & Hall'').
      exists (new ++ new'). split; [now rewrite Hs', Hs, app_assoc |].
      apply Forall_app. split; [exact Hall' |].
      eapply Forall_impl; [| exact Hall'']. intros d Hd. now right.
    + exists new. now split.
Qed.

(** X14: the responder keeps what it has sent and only adds to it, and it
    sends to no address it has not received a datagram from: every datagram
    sent while a request is served goes to the source address of that
    request, and every datagram the loop has sent goes to the source of one
    of the datagrams that arrived. *)
Theorem replies_go_to_the_requesters (env : Env)
    (inbound : list (string * address)) :
  Forall (fun d => In (dest d) (map snd inbound))
         (sent (world_of (start env inbound)))
  /\ (forall msg a w,
        exists new,
          sent (snd (serve_one env msg a w)) = sent w ++ new
          /\ Forall (fun d => dest d = a) new)
  /\ (forall w,
        exists new, sent (world_of (serve env inbound w)) = sent w ++ new).
Proof.
  split; [| split].
  - unfold start. destruct (startup_error env); [constructor |].
    destruct (serve_replies_to_sources env inbound initial)
      as (new & -> & Hall).
    exact Hall.
  - intros msg a w. apply replies_to_serve_one.
  - intros w. destruct (serve_replies_to_sources env inbound w)
      as (new & Hs & _). eauto.
Qed.

(** ** One reply per access point *)

Lemma merge_key_list (key : string) (l : list info)
    (m : Dict.t (Dict.t info)) :
  merge_key key (Some (Some l)) m = fold_left (merge_info key) l m.
Proof. now destruct l. Qed.

(** The first kind list, with distinct node_ids, appends one composite per
    record. *)
Lemma merge_first_kind (k : string) (l : list info) :
  forall m : Dict.t (Dict.t info),
    NoDup (map info_node_id l) ->
    (forall i, In i l -> Dict.get (info_node_id i) m = None) ->
    fold_left (merge_info k) l m
    = m ++ map (fun i => (info_node_id i, [(k, i)])) l.
Proof.
  induction l as [| i l IH]; intros m Hnd Hnew; cbn [fold_left map].
  - now rewrite app_nil_r.
  - cbn [map] in Hnd. inversion Hnd as [| ? ? Hi Hnd']; subst.
    unfold merge_info at 2. rewrite (Hnew i (or_introl eq_refl)).
    rewrite set_absent by (apply Hnew; now left).
    rewrite IH; [now rewrite <- app_assoc | assumption |].
    intros j Hj. rewrite get_app, (Hnew j (or_intror Hj)). cbn [Dict.get].
    destruct (String.eqb_spec (info_node_id i) (info_node_id j)) as [Heq |];
      [| reflexivity].
    exfalso. apply Hi. rewrite Heq. now apply in_map.
Qed.

(** A second kind list with the same node_ids in the same order extends
    every composite in place. *)
Lemma merge_second_kind (k1 k2 : string) :
  k1 <> k2 ->
  forall (l1 l2 : list info) (before : Dict.t (Dict.t info)),
    map info_node_id l2 = map info_node_id l1 ->
    NoDup (map info_node_id l1) ->
    (forall i, In i l1 -> Dict.get (info_node_id i) before = None) ->
    fold_left (merge_info k2) l2
      (before ++ map (fun i => (info_node_id i, [(k1, i)])) l1)
    = before
      ++ map (fun p => (info_node_id (fst p), [(k1, fst p); (k2, snd p)]))
             (combine l1 l2).
Proof.
  intros Hk. induction l1 as [| i1 l1 IH]; intros l2 before Hids Hnd Hnew.
  - destruct l2; [reflexivity | discriminate].
  - destruct l2 as [| i2 l2]; [discriminate |].
    cbn [map] in Hids, Hnd. injection Hids as Hid Hids.
    inversion Hnd as [| ? ? Hi Hnd']; subst.
    cbn [fold_left map combine fst snd].
    assert (Hstep :
      merge_info k2
        (before ++ (info_node_id i1, [(k1, i1)])
                :: map (fun i => (info_node_id i, [(k1, i)])) l1) i2
      = (before ++ [(info_node_id i1, [(k1, i1); (k2, i2)])])
        ++ map (fun i => (info_node_id i, [(k1, i)])) l1).
    { unfold merge_info. rewrite Hid, get_app, (Hnew i1 (or_introl eq_refl)).
      cbn [Dict.get]. rewrite String.eqb_refl.
      rewrite set_present by (apply Hnew; now left).
      cbn [Dict.set]. destruct (String.eqb_spec k1 k2); [contradiction |].
      now rewrite <- app_assoc. }
    rewrite Hstep, IH; [now rewrite <- app_assoc | assumption | assumption |].
    intros j Hj. rewrite get_app, (Hnew j (or_intror Hj)). cbn [Dict.get].
    destruct (String.eqb_spec (info_node_id i1) (info_node_id j)) as [Heq |];
      [| reflexivity].
    exfalso. apply Hi. rewrite Heq. now apply in_map.
Qed.

Lemma statistics_list_node_ids (aps : list Accesspoint.t)
    (sl : list StatisticsInfo.t) :
  statistics_list aps = Ok sl ->
  map info_node_id (map OfStatisticsInfo sl)
  = map (fun ap => Str.remove_char ":" (Accesspoint.mac ap)) aps.
Proof.
  intros H. apply statistics_list_ok in H.
  induction H as [| ap s aps sl Hs _ IH]; cbn [map]; [reflexivity |].
  cbn [info_node_id]. rewrite (statistics_of_node_id ap s Hs),
    replace_char_by_empty. now f_equal.
Qed.

Lemma nodeinfo_list_node_ids (aps : list Accesspoint.t) :
  map info_node_id (map OfNodeInfo (map nodeinfo_of aps))
  = map (fun ap => Str.remove_char ":" (Accesspoint.mac ap)) aps.
Proof.
  induction aps as [| ap aps IH]; cbn [map]; [reflexivity |].
  rewrite IH. f_equal. exact (replace_char_by_empty ":" (Accesspoint.mac ap)).
Qed.

Lemma combine_of_maps {A B C D : Type} (f : A -> C) (g : B -> D)
    (l1 : list A) (l2 : list B) :
  combine (map f l1) (map g l2)
  = map (fun p => (f (fst p), g (snd p))) (combine l1 l2).
Proof.
  revert l2. induction l1 as [| x l1 IH]; intros [| y l2]; cbn; [auto .. |].
  now rewrite IH.
Qed.

Lemma two_kinds_documents (a : address) (k1 k2 : string)
    (l1 l2 : list info) :
  k1 <> k2 ->
  map info_node_id l2 = map info_node_id l1 ->
  NoDup (map info_node_id l1) ->
  map (fun c => mk_datagram (Deflate (Json (document c))) a)
      (Dict.values
         (merge_pure [(k1, Some l1); (k2, Some l2)]
            (Dict.keys [(k1, Some l1); (k2, Some l2)]) []))
  = map (fun p =>
           mk_datagram
             (Deflate (Json (JObject [ (k1, to_dict (fst p));
                                       (k2, to_dict (snd p)) ]))) a)
        (combine l1 l2).
Proof.
  intros Hk Hids Hnd.
  unfold merge_pure. cbn [Dict.keys map fst fold_left Dict.get].
  rewrite String.eqb_refl.
  destruct (String.eqb_spec k1 k2) as [| _]; [contradiction |].
  rewrite String.eqb_refl, !merge_key_list.
  rewrite (merge_first_kind k1 l1 [] Hnd) by reflexivity.
  rewrite (merge_second_kind k1 k2 Hk l1 l2 [] Hids Hnd) by reflexivity.
  cbn [app]. unfold Dict.values. rewrite !map_map. reflexivity.
Qed.

Lemma one_kind_documents (a : address) (k : string) (l : list info) :
  NoDup (map info_node_id l) ->
  map (fun c => mk_datagram (Deflate (Json (document c))) a)
      (Dict.values (merge_pure [(k, Some l)] (Dict.keys [(k, Some l)]) []))
  = map (fun i => mk_datagram (Deflate (Json (JObject [(k, to_dict i)]))) a) l.
Proof.
  intros Hnd.
  unfold merge_pure. cbn [Dict.keys map fst fold_left Dict.get].
  rewrite String.eqb_refl, merge_key_list.
  rewrite (merge_first_kind k l [] Hnd) by reflexivity.
  cbn [app]. unfold Dict.values. rewrite !map_map. reflexivity.
Qed.

(** X15: the request GET nodeinfo statistics against an inventory whose
    access points have distinct node_ids, the same at both calls of the data
    source, on a network without send errors: the request is served without
    an exception and adds exactly one datagram per access point, in the
    order of the inventory, each to the requester, each the deflated JSON
    object with the member nodeinfo followed by the member statistics of
    that access point.  For GET statistics nodeinfo the members come in the
    other order. *)
Theorem both_kinds_one_reply_per_accesspoint (env : Env) (a : address)
    (w : World) (aps : Accesspoints.t) (sl : list StatisticsInfo.t) :
  get_infos env (fetches w) = Ok aps ->
  get_infos env (S (fetches w)) = Ok aps ->
  statistics_list (Accesspoints.accesspoints aps) = Ok sl ->
  NoDup (map (fun ap => Str.remove_char ":" (Accesspoint.mac ap))
             (Accesspoints.accesspoints aps)) ->
  (forall n, sendto_error env n = None) ->
  (fst (serve_one env "GET nodeinfo statistics" a w) = Ok tt
   /\ sent (snd (serve_one env "GET nodeinfo statistics" a w))
      = sent w
        ++ map (fun p =>
                  mk_datagram
                    (Deflate (Json (JObject
                       [ ("nodeinfo", NodeInfo_to_dict (nodeinfo_of (fst p)));
                         ("statistics", StatisticsInfo_to_dict (snd p)) ])))
                    a)
               (combine (Accesspoints.accesspoints aps) sl))
  /\ (fst (serve_one env "GET statistics nodeinfo" a w) = Ok tt
      /\ sent (snd (serve_one env "GET statistics nodeinfo" a w))
         = sent w
           ++ map (fun p =>
                     mk_datagram
                       (Deflate (Json (JObject
                          [ ("statistics", StatisticsInfo_to_dict (snd p));
                            ("nodeinfo",
                              NodeInfo_to_dict (nodeinfo_of (fst p))) ])))
                       a)
                  (combine (Accesspoints.accesspoints aps) sl)).
Proof.
  intros H1 H2 Hsl Hnd Hok.
  set (l1 := map OfNodeInfo (map nodeinfo_of (Accesspoints.accesspoints aps))).
  set (l2 := map OfStatisticsInfo sl).
  assert (Hid1 : map info_node_id l1
                 = map (fun ap => Str.remove_char ":" (Accesspoint.mac ap))
                       (Accesspoints.accesspoints aps))
    by apply nodeinfo_list_node_ids.
  assert (Hid2 : map info_node_id l2
                 = map (fun ap => Str.remove_char ":" (Accesspoint.mac ap))
                       (Accesspoints.accesspoints aps))
    by now apply statistics_list_node_ids.
  assert (Hlen : List.length sl = List.length (Accesspoints.accesspoints aps)).
  { apply (f_equal (@List.length _)) in Hid2. subst l2.
    now rewrite !length_map in Hid2. }
  split.
  - rewrite serve_one_multi by reflexivity.
    change (tl (Str.split " " "GET nodeinfo statistics"))
      with ["nodeinfo"; "statistics"]%string.
    assert (Hbuild :
      build_all env ["nodeinfo"; "statistics"]%string [] w
      = (Ok [("nodeinfo"%string, Some l1); ("statistics"%string, Some l2)],
         fetched (fetched w))).
    { cbn [build_all]. unfold bind.
      rewrite buildStruct_nodeinfo, H1, buildStruct_statistics.
      cbn [fetched fetches]. rewrite H2, Hsl. reflexivity. }
    unfold bind. rewrite Hbuild.
    destruct (sendStruct_documents env a
                [("nodeinfo"%string, Some l1); ("statistics"%string, Some l2)]
                (fetched (fetched w)) Hok) as (Hres & Hsent & _).
    split; [exact Hres |]. rewrite Hsent. cbn [fetched sent]. f_equal.
    rewrite two_kinds_documents;
      [| discriminate | congruence | now rewrite Hid1].
    subst l1 l2. rewrite map_map, combine_of_maps, map_map. reflexivity.
  - rewrite serve_one_multi by reflexivity.
    change (tl (Str.split " " "GET statistics nodeinfo"))
      with ["statistics"; "nodeinfo"]%string.
    assert (Hbuild :
      build_all env ["statistics"; "nodeinfo"]%string [] w
      = (Ok [("statistics"%string, Some l2); ("nodeinfo"%string, Some l1)],
         fetched (fetched w))).
    { cbn [build_all]. unfold bind.
      rewrite buildStruct_statistics, H1, Hsl, buildStruct_nodeinfo.
      cbn [fetched fetches]. rewrite H2. reflexivity. }
    unfold bind. rewrite Hbuild.
    destruct (sendStruct_documents env a
                [("statistics"%string, Some l2); ("nodeinfo"%string, Some l1)]
                (fetched (fetched w)) Hok) as (Hres & Hsent & _).
    split; [exact Hres |]. rewrite Hsent. cbn [fetched sent]. f_equal.
    rewrite two_kinds_documents;
      [| discriminate | congruence | now rewrite Hid2].
    subst l1 l2. rewrite map_map, combine_of_maps, map_map.
    rewrite <- (map_map (fun p : Accesspoint.t * StatisticsInfo.t =>
                           (snd p, fst p))
                  (fun q : StatisticsInfo.t * Accesspoint.t =>
                     mk_datagram
                       (Deflate (Json (JObject
                          [ ("statistics"%string, StatisticsInfo_to_dict (fst q));
                            ("nodeinfo"%string,
                              NodeInfo_to_dict (nodeinfo_of (snd q))) ])))
                       a)).
    f_equal. clear -Hlen. revert sl Hlen.
    induction (Accesspoints.accesspoints aps) as [| ap l IH];
      intros [| s sl] Hlen; try discriminate; cbn; [reflexivity |].
    f_equal. apply IH. now injection Hlen.
Qed.

Lemma both_kinds_one_reply_per_accesspoint_witness :
  sent (snd (serve_one (Sample.steady [Sample.gw1; Sample.gw2])
               "GET nodeinfo statistics" Sample.requester initial))
  = [ mk_datagram
        (Deflate (Json (JObject
           [ ("nodeinfo"%string, NodeInfo_to_dict (nodeinfo_of Sample.gw1));
             ("statistics"%string, StatisticsInfo_to_dict Examples.stat1) ])))
        Sample.requester;
      mk_datagram
        (Deflate (Json (JObject
           [ ("nodeinfo"%string, NodeInfo_to_dict (nodeinfo_of Sample.gw2));
             ("statistics"%string,
               StatisticsInfo_to_dict
                 (StatisticsInfo.mk (ClientInfo.mk 5 5) 3600 "112233445566"
                    Sample.zero (MemoryInfo.mk 131072 130048 0))) ])))
        Sample.requester ].
Proof.
  destruct (both_kinds_one_reply_per_accesspoint
              (Sample.steady [Sample.gw1; Sample.gw2]) Sample.requester initial
              (Accesspoints.mk [Sample.gw1; Sample.gw2])
              [ Examples.stat1;
                StatisticsInfo.mk (ClientInfo.mk 5 5) 3600 "112233445566"
                  Sample.zero (MemoryInfo.mk 131072 130048 0) ]
              eq_refl eq_refl eq_refl)
    as [[_ Hsent] _].
  - repeat constructor; cbn; intuition discriminate.
  - intros n. reflexivity.
  - exact Hsent.
Defined.

(** X16: a multi-request for one kind, against an inventory whose access
    points have distinct node_ids and on a network without send errors, adds
    one datagram per access point, in the order of the inventory, each the
    deflated JSON object with the one member of that kind. *)
Theorem one_kind_one_reply_per_accesspoint (env : Env) (a : address)
    (w : World) (aps : Accesspoints.t) :
  get_infos env (fetches w) = Ok aps ->
  NoDup (map (fun ap => Str.remove_char ":" (Accesspoint.mac ap))
             (Accesspoints.accesspoints aps)) ->
  (forall n, sendto_error env n = None) ->
  (fst (serve_one env "GET nodeinfo" a w) = Ok tt
   /\ sent (snd (serve_one env "GET nodeinfo" a w))
      = sent w
        ++ map (fun ap =>
                  mk_datagram
                    (Deflate (Json (JObject
                       [ ("nodeinfo"%string,
                           NodeInfo_to_dict (nodeinfo_of ap)) ])))
                    a)
               (Accesspoints.accesspoints aps))
  /\ (forall sl,
        statistics_list (Accesspoints.accesspoints aps) = Ok sl ->
        fst (serve_one env "GET statistics" a w) = Ok tt
        /\ sent (snd (serve_one env "GET statistics" a w))
           = sent w
             ++ map (fun s =>
                       mk_datagram
                         (Deflate (Json (JObject
                            [ ("statistics"%string,
                                StatisticsInfo_to_dict s) ])))
                         a)
                    sl).
Proof.
  intros Hget Hnd Hok. split.
  - rewrite serve_one_multi by reflexivity.
    change (tl (Str.split " " "GET nodeinfo")) with ["nodeinfo"%string].
    set (l := map OfNodeInfo (map nodeinfo_of (Accesspoints.accesspoints aps))).
    assert (Hbuild :
      build_all env ["nodeinfo"%string] [] w
      = (Ok [("nodeinfo"%string, Some l)], fetched w)).
    { cbn [build_all]. unfold bind.
      rewrite buildStruct_nodeinfo, Hget. reflexivity. }
    unfold bind. rewrite Hbuild.
    destruct (sendStruct_documents env a [("nodeinfo"%string, Some l)]
                (fetched w) Hok) as (Hres & Hsent & _).
    split; [exact Hres |]. rewrite Hsent.
    cbn [fetched sent]. f_equal.
    rewrite one_kind_documents
      by (subst l; now rewrite nodeinfo_list_node_ids).
    subst l. now rewrite !map_map.
  - intros sl Hsl.
    rewrite serve_one_multi by reflexivity.
    change (tl (Str.split " " "GET statistics")) with ["statistics"%string].
    set (l := map OfStatisticsInfo sl).
    assert (Hbuild :
      build_all env ["statistics"%string] [] w
      = (Ok [("statistics"%string, Some l)], fetched w)).
    { cbn [build_all]. unfold bind.
      rewrite buildStruct_statistics, Hget, Hsl. reflexivity. }
    unfold bind. rewrite Hbuild.
    destruct (sendStruct_documents env a [("statistics"%string, Some l)]
                (fetched w) Hok) as (Hres & Hsent & _).
    split; [exact Hres |]. rewrite Hsent.
    cbn [fetched sent]. f_equal.
    rewrite one_kind_documents
      by (subst l; now rewrite (statistics_list_node_ids _ _ Hsl)).
    subst l. now rewrite !map_map.
Qed.

Lemma one_kind_one_reply_per_accesspoint_witness :
  sent (snd (serve_one (Sample.steady [Sample.gw2; Sample.gw1])
               "GET nodeinfo" Sample.requester initial))
  = [ mk_datagram
        (Deflate (Json (JObject
           [ ("nodeinfo"%string, NodeInfo_to_dict (nodeinfo_of Sample.gw2)) ])))
        Sample.requester;
      mk_datagram
        (Deflate (Json (JObject
           [ ("nodeinfo"%string, NodeInfo_to_dict (nodeinfo_of Sample.gw1)) ])))
        Sample.requester ]
  /\ sent (snd (serve_one (Sample.steady [Sample.gw1])
                  "GET statistics" Sample.requester initial))
     = [ mk_datagram
           (Deflate (Json (JObject
              [ ("statistics"%string, StatisticsInfo_to_dict Examples.stat1) ])))
           Sample.requester ].
Proof.
  split.
  - destruct (one_kind_one_reply_per_accesspoint
                (Sample.steady [Sample.gw2; Sample.gw1]) Sample.requester
                initial (Accesspoints.mk [Sample.gw2; Sample.gw1]) eq_refl)
      as [[_ Hsent] _].
    + repeat constructor; cbn; intuition discriminate.
    + intros n. reflexivity.
    + exact Hsent.
  - destruct (one_kind_one_reply_per_accesspoint
                (Sample.steady [Sample.gw1]) Sample.requester
                initial (Accesspoints.mk [Sample.gw1]) eq_refl)
      as [_ Hstat].
    + repeat constructor; cbn; intuition discriminate.
    + intros n. reflexivity.
    + exact (proj2 (Hstat [Examples.stat1] eq_refl)).
Defined.

(** ** What is printed for unknown names *)

(** X17: when the kind lists of a multi-request have been built, the lines
    printed meanwhile are the lines unknown command: NAME, one for every
    requested name that is not recognized, in the order of the request,
    repetitions included, and nothing else. *)
Theorem unknown_names_are_logged (env : Env) (ks : list string) :
  forall (r r' : Dict.t records) (w w' : World),
    build_all env ks r w = (Ok r', w') ->
    stdout w'
    = stdout w
      ++ map (fun t => PrintStr ("unknown command: " ++ t)%string)
             (filter (fun t => negb (recognized t)) ks).
Proof.
  induction ks as [| k ks IH]; intros r r' w w'; cbn [build_all filter].
  - intros [= _ <-]. cbn. now rewrite app_nil_r.
  - unfold bind. destruct (recognized k) eqn:Hk; cbn [negb].
    + assert (Hout : stdout (snd (buildStruct env k w)) = stdout w).
      { destruct (recognized_cases k Hk) as [-> | ->];
          [rewrite buildStruct_statistics | rewrite buildStruct_nodeinfo];
          reflexivity. }
      destruct (buildStruct env k w) as [[v | e] w1]; [| discriminate].
      cbn [snd] in Hout. intros H. rewrite (IH _ _ _ _ H). now rewrite Hout.
    + rewrite buildStruct_unknown by assumption.
      intros H. rewrite (IH _ _ _ _ H). cbn [printed stdout map].
      now rewrite <- app_assoc.
Qed.

Lemma unknown_names_are_logged_witness :
  stdout (snd (build_all (Sample.steady [Sample.gw1])
                 ["bogus"; "nodeinfo"; ""; "bogus"]%string [] initial))
  = [ PrintStr "unknown command: bogus"; PrintStr "unknown command: ";
      PrintStr "unknown command: bogus" ].
Proof.
  exact (unknown_names_are_logged (Sample.steady [Sample.gw1])
           ["bogus"; "nodeinfo"; ""; "bogus"]%string [] _ initial _ eq_refl).
Defined.

(** ** The size of a datagram *)

Lemma take_app (p s : string) :
  Str.take (String.length p) (p ++ s)%string = p.
Proof.
  unfold Str.take. induction p as [| c p IH]; cbn.
  - now destruct s.
  - now rewrite IH.
Qed.

Lemma take_all (n : nat) (s : string) :
  (String.length s <= n)%nat -> Str.take n s = s.
Proof.
  unfold Str.take. revert n. induction s as [| c s IH]; intros n Hn.
  - now destruct n.
  - destruct n as [| n]; cbn in *; [lia |]. rewrite IH; [reflexivity | lia].
Qed.

(** X18: the loop reads at most 2048 bytes of a datagram.  A payload of up
    to 2048 bytes is served as it is; of a longer one only the first 2048
    bytes are served, and what follows them changes nothing. *)
Theorem only_2048_bytes_are_read (env : Env) (p s : string) (a : address)
    (rest : list (string * address)) (w : World) :
  (String.length p <= 2048)%nat ->
  recvfrom (p, a) = (p, a)
  /\ (String.length p = 2048%nat ->
      serve env ((p ++ s, a)%string :: rest) w = serve env ((p, a) :: rest) w).
Proof.
  intros Hle. unfold recvfrom; cbn [fst snd].
  split; [now rewrite take_all |].
  intros Hlen. cbn [serve]. unfold recvfrom; cbn [fst snd].
  rewrite <- Hlen at 1. rewrite take_app, take_all by assumption.
  reflexivity.
Qed.

Lemma only_2048_bytes_are_read_witness :
  serve (Sample.steady [Sample.gw1])
    [((Sample2.full_request ++ " statistics")%string, Sample.requester)]
    initial
  = serve (Sample.steady [Sample.gw1])
      [(Sample2.full_request, Sample.requester)] initial.
Proof.
  destruct (only_2048_bytes_are_read (Sample.steady [Sample.gw1])
              Sample2.full_request " statistics" Sample.requester []
              initial) as [_ Hcut].
  - apply Nat.leb_le. vm_compute. reflexivity.
  - apply Hcut. vm_compute. reflexivity.
Defined.

(** ** The loop over a sequence of datagrams *)

(** X19: the loop serves the datagrams one after the other, each in the
    world the one before has left; once an exception has ended it, what
    arrives later is not served and changes nothing. *)
Theorem serve_in_sequence (env : Env) (first later : list (string * address))
    (w : World) :
  serve env (first ++ later) w
  = match serve env first w with
    | Waiting w' => serve env later w'
    | Crashed e w' => Crashed e w'
    end.
Proof.
  revert w. induction first as [| [msg a] first IH]; intros w;
    cbn [app serve]; [reflexivity |].
  unfold recvfrom; cbn [fst snd].
  destruct (serve_one env (Str.take 2048 msg) a w) as [[[] | e] w1];
    [apply IH | reflexivity].
Qed.

(** ** Node identifiers of well-formed hardware addresses *)

Lemma colon_groups_injective (n : nat) :
  forall s1 s2,
    colon_groups n s1 = true -> colon_groups n s2 = true ->
    Str.remove_char ":" s1 = Str.remove_char ":" s2 ->
    s1 = s2.
Proof.
  induction n as [| n IH]; intros s1 s2; cbn [colon_groups].
  - intros H1 H2 _. apply String.eqb_eq in H1, H2. congruence.
  - destruct s1 as [| c1 [| x1 [| y1 r1]]]; try discriminate.
    destruct s2 as [| c2 [| x2 [| y2 r2]]]; try discriminate.
    intros H1 H2.
    apply andb_true_iff in H1 as [H1 Hr1].
    apply andb_true_iff in H1 as [H1 Hy1].
    apply andb_true_iff in H1 as [Hc1 Hx1].
    apply andb_true_iff in H2 as [H2 Hr2].
    apply andb_true_iff in H2 as [H2 Hy2].
    apply andb_true_iff in H2 as [Hc2 Hx2].
    apply Ascii.eqb_eq in Hc1, Hc2. subst c1 c2.
    apply negb_true_iff in Hx1, Hy1, Hx2, Hy2.
    cbn [Str.remove_char]. rewrite Ascii.eqb_refl, Hx1, Hy1, Hx2, Hy2.
    intros [= -> -> Hr]. f_equal. f_equal. f_equal. now apply IH.
Qed.

Lemma colon_groups_length (n : nat) :
  forall s,
    colon_groups n s = true ->
    String.length (Str.remove_char ":" s) = (2 * n)%nat.
Proof.
  induction n as [| n IH]; intros s; cbn [colon_groups].
  - intros H. apply String.eqb_eq in H. now subst s.
  - destruct s as [| c [| x [| y r]]]; try discriminate.
    intros H.
    apply andb_true_iff in H as [H Hr].
    apply andb_true_iff in H as [H Hy].
    apply andb_true_iff in H as [Hc Hx].
    apply negb_true_iff in Hx, Hy.
    cbn [Str.remove_char]. rewrite Hc, Hx, Hy. cbn [String.length].
    rewrite (IH r Hr). lia.
Qed.

(** X20: on hardware addresses in the notation of six colon-separated
    groups of two characters the node_id loses nothing: it has twelve
    characters, and two access points with different addresses get different
    node_ids, so that their records are not merged. *)
Theorem node_id_of_mac_is_injective (ap1 ap2 : Accesspoint.t) :
  is_mac (Accesspoint.mac ap1) = true ->
  is_mac (Accesspoint.mac ap2) = true ->
  String.length (NodeInfo.node_id (nodeinfo_of ap1)) = 12%nat
  /\ (NodeInfo.node_id (nodeinfo_of ap1) = NodeInfo.node_id (nodeinfo_of ap2) ->
      Accesspoint.mac ap1 = Accesspoint.mac ap2).
Proof.
  cbn [nodeinfo_of NodeInfo.node_id]. rewrite !replace_char_by_empty.
  unfold is_mac.
  destruct (Accesspoint.mac ap1) as [| x1 [| y1 r1]]; try discriminate.
  destruct (Accesspoint.mac ap2) as [| x2 [| y2 r2]]; try discriminate.
  intros H1 H2.
  apply andb_true_iff in H1 as [H1 Hr1].
  apply andb_true_iff in H1 as [Hx1 Hy1].
  apply andb_true_iff in H2 as [H2 Hr2].
  apply andb_true_iff in H2 as [Hx2 Hy2].
  apply negb_true_iff in Hx1, Hy1, Hx2, Hy2.
  cbn [Str.remove_char]. rewrite Hx1, Hy1, Hx2, Hy2. split.
  - cbn [String.length]. now rewrite (colon_groups_length 5 r1 Hr1).
  - intros [= -> -> Hr]. f_equal. f_equal.
    now apply (colon_groups_injective 5).
Qed.

Lemma node_id_of_mac_is_injective_witness :
  String.length (NodeInfo.node_id (nodeinfo_of Sample.gw1)) = 12%nat
  /\ NodeInfo.node_id (nodeinfo_of Sample.gw1)
     <> NodeInfo.node_id (nodeinfo_of Sample.gw2).
Proof.
  destruct (node_id_of_mac_is_injective Sample.gw1 Sample.gw2 eq_refl eq_refl)
    as [Hlen Hinj].
  split; [exact Hlen |].
  intros Heq. apply Hinj in Heq. discriminate.
Defined.

(** ** Unknown kinds *)

(** The request for nodeinfo alone, as the loop runs it. *)
Lemma known_nodeinfo_run (env : Env) (a : address) (w : World)
    (aps : Accesspoints.t) :
  get_infos env (fetches w) = Ok aps ->
  NoDup (map (fun ap => Str.remove_char ":" (Accesspoint.mac ap))
             (Accesspoints.accesspoints aps)) ->
  (forall n, sendto_error env n = None) ->
  fst (bind (build_all env ["nodeinfo"%string] [])
            (fun r => sendStruct env a (OfDict r) true) w) = Ok tt
  /\ sent (snd (bind (build_all env ["nodeinfo"%string] [])
                     (fun r => sendStruct env a (OfDict r) true) w))
     = sent w
       ++ map (fun ap =>
                 mk_datagram
                   (Deflate (Json (JObject
                      [ ("nodeinfo"%string,
                          NodeInfo_to_dict (nodeinfo_of ap)) ])))
                   a)
              (Accesspoints.accesspoints aps).
Proof.
  intros Hget Hnd Hok.
  set (l := map OfNodeInfo (map nodeinfo_of (Accesspoints.accesspoints aps))).
  assert (Hbuild :
    build_all env ["nodeinfo"%string] [] w
    = (Ok [("nodeinfo"%string, Some l)], fetched w)).
  { cbn [build_all]. unfold bind.
    rewrite buildStruct_nodeinfo, Hget. reflexivity. }
  unfold bind. rewrite Hbuild.
  destruct (sendStruct_documents env a [("nodeinfo"%string, Some l)]
              (fetched w) Hok) as (Hres & Hsent & _).
  split; [exact Hres |]. rewrite Hsent. cbn [fetched sent]. f_equal.
  rewrite one_kind_documents by (subst l; now rewrite nodeinfo_list_node_ids).
  subst l. now rewrite !map_map.
Qed.

(** The request for nodeinfo and statistics, as the loop runs it. *)
Lemma known_both_run (env : Env) (a : address) (w : World)
    (aps : Accesspoints.t) (sl : list StatisticsInfo.t) :
  get_infos env (fetches w) = Ok aps ->
  get_infos env (S (fetches w)) = Ok aps ->
  statistics_list (Accesspoints.accesspoints aps) = Ok sl ->
  NoDup (map (fun ap => Str.remove_char ":" (Accesspoint.mac ap))
             (Accesspoints.accesspoints aps)) ->
  (forall n, sendto_error env n = None) ->
  fst (bind (build_all env ["nodeinfo"; "statistics"]%string [])
            (fun r => sendStruct env a (OfDict r) true) w) = Ok tt
  /\ sent (snd (bind (build_all env ["nodeinfo"; "statistics"]%string [])
                     (fun r => sendStruct env a (OfDict r) true) w))
     = sent w
       ++ map (fun p =>
                 mk_datagram
                   (Deflate (Json (JObject
                      [ ("nodeinfo"%string,
                          NodeInfo_to_dict (nodeinfo_of (fst p)));
                        ("statistics"%string,
                          StatisticsInfo_to_dict (snd p)) ])))
                   a)
              (combine (Accesspoints.accesspoints aps) sl).
Proof.
  intros H1 H2 Hsl Hnd Hok.
  set (l1 := map OfNodeInfo (map nodeinfo_of (Accesspoints.accesspoints aps))).
  set (l2 := map OfStatisticsInfo sl).
  assert (Hid1 : map info_node_id l1
                 = map (fun ap => Str.remove_char ":" (Accesspoint.mac ap))
                       (Accesspoints.accesspoints aps))
    by apply nodeinfo_list_node_ids.
  assert (Hid2 : map info_node_id l2
                 = map (fun ap => Str.remove_char ":" (Accesspoint.mac ap))
                       (Accesspoints.accesspoints aps))
    by now apply statistics_list_node_ids.
  assert (Hbuild :
    build_all env ["nodeinfo"; "statistics"]%string [] w
    = (Ok [("nodeinfo"%string, Some l1); ("statistics"%string, Some l2)],
       fetched (fetched w))).
  { cbn [build_all]. unfold bind.
    rewrite buildStruct_nodeinfo, H1, buildStruct_statistics.
    cbn [fetched fetches]. rewrite H2, Hsl. reflexivity. }
  unfold bind. rewrite Hbuild.
  destruct (sendStruct_documents env a
              [("nodeinfo"%string, Some l1); ("statistics"%string, Some l2)]
              (fetched (fetched w)) Hok) as (Hres & Hsent & _).
  split; [exact Hres |]. rewrite Hsent. cbn [fetched sent]. f_equal.
  rewrite two_kinds_documents;
    [| discriminate | congruence | now rewrite Hid1].
  subst l1 l2. rewrite map_map, combine_of_maps, map_map. reflexivity.
Qed.

(** A single request for an unknown name: the name is printed, [buildStruct]
    returns [None], and [merge_node] fails on it. *)
Lemma unknown_single_request_run (env : Env) (msg : string) (a : address)
    (w : World) :
  Str.utf8_valid msg = true ->
  hd "" (Str.split " " msg) <> "GET"%string ->
  recognized (hd "" (Str.split " " msg)) = false ->
  serve_one env msg a w
  = (Raise AttributeError,
     printed
       (PrintStr ("unknown command: " ++ hd "" (Str.split " " msg))%string
        :: (if verbose env then [PrintVerbose a (OfRecords None)] else []))
       w).
Proof.
  intros Hv Hhd Hrec. rewrite serve_one_single by assumption.
  unfold bind. rewrite buildStruct_unknown by assumption.
  unfold sendStruct, bind, printed.
  destruct (verbose env); cbn; [now rewrite <- app_assoc | reflexivity].
Qed.

(** C6: unknown kinds in a multi-request are ignored, in a single request
    they are not.  A multi-request with unknown names has the result, the
    data-source calls and the reply datagrams of the same request without
    them, and its replies carry the data of the recognized kinds: with
    nodeinfo as the one recognized name, one datagram per access point with
    the member nodeinfo alone; with nodeinfo and statistics, one datagram
    per access point with both members.  A single request for an unknown
    name is logged, sends nothing and calls no data source, but then raises
    the [AttributeError] of [merge_node] on [None], which ends the loop: the
    datagram bogus followed by GET nodeinfo leaves the second request
    without a reply. *)
Theorem unknown_kind_in_single_request_ends_the_loop :
  start (Sample.steady [Sample.gw1])
    [("bogus"%string, Sample.requester);
     ("GET nodeinfo"%string, Sample.requester)]
  = Crashed AttributeError
      (mk_world 0 [] [PrintStr "unknown command: bogus"])
  /\ (forall env msg a rest w,
        Str.utf8_valid (Str.take 2048 msg) = true ->
        hd "" (Str.split " " (Str.take 2048 msg)) <> "GET"%string ->
        recognized (hd "" (Str.split " " (Str.take 2048 msg))) = false ->
        exists w',
          serve env ((msg, a) :: rest) w = Crashed AttributeError w'
          /\ sent w' = sent w /\ fetches w' = fetches w
          /\ In (PrintStr ("unknown command: "
                           ++ hd "" (Str.split " " (Str.take 2048 msg)))%string)
                (stdout w'))
  /\ (forall env msg a w,
        Str.utf8_valid msg = true ->
        hd "" (Str.split " " msg) = "GET"%string ->
        let known :=
          Str.join " " ("GET"%string
                        :: filter recognized (tl (Str.split " " msg))) in
        fst (serve_one env msg a w) = fst (serve_one env known a w)
        /\ sent (snd (serve_one env msg a w))
           = sent (snd (serve_one env known a w))
        /\ fetches (snd (serve_one env msg a w))
           = fetches (snd (serve_one env known a w)))
  /\ (forall env msg a w aps,
        Str.utf8_valid msg = true ->
        hd "" (Str.split " " msg) = "GET"%string ->
        filter recognized (tl (Str.split " " msg)) = ["nodeinfo"%string] ->
        get_infos env (fetches w) = Ok aps ->
        NoDup (map (fun ap => Str.remove_char ":" (Accesspoint.mac ap))
                   (Accesspoints.accesspoints aps)) ->
        (forall n, sendto_error env n = None) ->
        fst (serve_one env msg a w) = Ok tt
        /\ sent (snd (serve_one env msg a w))
           = sent w
             ++ map (fun ap =>
                       mk_datagram
                         (Deflate (Json (JObject
                            [ ("nodeinfo"%string,
                                NodeInfo_to_dict (nodeinfo_of ap)) ])))
                         a)
                    (Accesspoints.accesspoints aps))
  /\ (forall env msg a w aps sl,
        Str.utf8_valid msg = true ->
        hd "" (Str.split " " msg) = "GET"%string ->
        filter recognized (tl (Str.split " " msg))
        = ["nodeinfo"; "statistics"]%string ->
        get_infos env (fetches w) = Ok aps ->
        get_infos env (S (fetches w)) = Ok aps ->
        statistics_list (Accesspoints.accesspoints aps) = Ok sl ->
        NoDup (map (fun ap => Str.remove_char ":" (Accesspoint.mac ap))
                   (Accesspoints.accesspoints aps)) ->
        (forall n, sendto_error env n = None) ->
        fst (serve_one env msg a w) = Ok tt
        /\ sent (snd (serve_one env msg a w))
           = sent w
             ++ map (fun p =>
                       mk_datagram
                         (Deflate (Json (JObject
                            [ ("nodeinfo"%string,
                                NodeInfo_to_dict (nodeinfo_of (fst p)));
                              ("statistics"%string,
                                StatisticsInfo_to_dict (snd p)) ])))
                         a)
                    (combine (Accesspoints.accesspoints aps) sl)).
Proof.
  split; [vm_compute; reflexivity |].
  split; [| split; [| split]].
  - intros env msg a rest w Hv Hhd Hrec.
    cbn [serve]. unfold recvfrom; cbn [fst snd].
    rewrite (unknown_single_request_run env _ a w Hv Hhd Hrec).
    eexists. split; [reflexivity |]. cbn [printed sent fetches stdout].
    repeat split. apply in_or_app. right. now left.
  - intros env msg a w Hv Hhd. now apply multi_request_known_only.
  - intros env msg a w aps Hv Hhd Hknown Hget Hnd Hok.
    rewrite serve_one_multi by assumption.
    destruct (sim_eq_run _ _ w
                (sim_multi_request env a (tl (Str.split " " msg))))
      as (Hr & Hs & _).
    rewrite Hknown in Hr, Hs. rewrite Hr, Hs.
    now apply known_nodeinfo_run.
  - intros env msg a w aps sl Hv Hhd Hknown H1 H2 Hsl Hnd Hok.
    rewrite serve_one_multi by assumption.
    destruct (sim_eq_run _ _ w
                (sim_multi_request env a (tl (Str.split " " msg))))
      as (Hr & Hs & _).
    rewrite Hknown in Hr, Hs. rewrite Hr, Hs.
    now apply known_both_run.
Qed.

Lemma unknown_kind_in_single_request_ends_the_loop_witness :
  (exists w',
     serve (Sample.steady [Sample.gw1])
       [("bogus"%string, Sample.requester);
        ("GET nodeinfo"%string, Sample.requester)] initial
     = Crashed AttributeError w'
     /\ sent w' = [] /\ fetches w' = 0%nat)
  /\ sent (snd (serve_one (Sample.steady [Sample.gw1]) "GET nodeinfo bogus"
                  Sample.requester initial))
     = sent (snd (serve_one (Sample.steady [Sample.gw1]) "GET nodeinfo"
                    Sample.requester initial))
  /\ sent (snd (serve_one (Sample.steady [Sample.gw1]) "GET nodeinfo bogus"
                  Sample.requester initial))
     = [ mk_datagram
           (Deflate (Json (JObject
              [ ("nodeinfo"%string,
                  NodeInfo_to_dict (nodeinfo_of Sample.gw1)) ])))
           Sample.requester ]
  /\ sent (snd (serve_one (Sample.steady [Sample.gw1])
                  "GET bogus nodeinfo  statistics"
                  Sample.requester initial))
     = [ mk_datagram
           (Deflate (Json (JObject
              [ ("nodeinfo"%string,
                  NodeInfo_to_dict (nodeinfo_of Sample.gw1));
                ("statistics"%string,
                  StatisticsInfo_to_dict Examples.stat1) ])))
           Sample.requester ].
Proof.
  destruct unknown_kind_in_single_request_ends_the_loop
    as (_ & Hsingle & Hsame & Hnode & Hboth).
  split; [| split; [| split]].
  - destruct (Hsingle (Sample.steady [Sample.gw1]) "bogus"%string
                Sample.requester
                [("GET nodeinfo"%string, Sample.requester)] initial eq_refl)
      as (w' & Hrun & Hs & Hf & _); [discriminate | reflexivity |].
    exists w'. auto.
  - exact (proj1 (proj2 (Hsame (Sample.steady [Sample.gw1])
                           "GET nodeinfo bogus"%string Sample.requester
                           initial eq_refl eq_refl))).
  - destruct (Hnode (Sample.steady [Sample.gw1]) "GET nodeinfo bogus"%string
                Sample.requester initial (Accesspoints.mk [Sample.gw1])
                eq_refl eq_refl eq_refl eq_refl) as [_ Hsent].
    + repeat constructor. intros [].
    + intros n. reflexivity.
    + exact Hsent.
  - destruct (Hboth (Sample.steady [Sample.gw1])
                "GET bogus nodeinfo  statistics"%string
                Sample.requester initial (Accesspoints.mk [Sample.gw1])
                [Examples.stat1]
                eq_refl eq_refl eq_refl eq_refl eq_refl eq_refl) as [_ Hsent].
    + repeat constructor. intros [].
    + intros n. reflexivity.
    + exact Hsent.
Defined.
